(** * mcp-context-memory: an in-memory topic/record store with statistics

    Shallow embedding of the memory server's tools:
    - [src/utils.js]   (generateId, getCurrentTimestamp, calculateRecordSize),
    - [src/stats.js]   (memoryStats, updateStats),
    - [src/tools/memoryManage.js] (the memory_manage handler),
    - [src/tools/memoryQuery.js]  (the memory_query handler),
    and of the search loop of the older single-file server, kept in module
    [Legacy] for comparison.

    Conventions of the embedding.
    - A JS string is a [string]: a sequence of code units, here the code
      units below 256.  [String.length] is the JS [length].
    - A JS number that counts something is a [Z]; array lengths and the
      [limit] argument, an integer from 1 to 100, are [nat].  A number inside
      metadata is a safe integer (at most 2^53 - 1 in absolute value), whose
      text is its plain decimal digits.
    - A timestamp is the millisecond instant (a [Z]) whose ISO-8601 text the
      source stores: [new Date(iso)] gives the instant back, and the text
      always has 24 code units.
    - The wall clock and the id generator are oracles carried by the world
      state; every read advances a counter, so that successive reads may
      differ.
    - The store is a JS [Map] and a handler writes the fields of the topic and
      record objects it holds by reference.  No object is shared between two
      topics or two records, so the embedding keeps the store as a value and
      a field write as the replacement of the object where it stands.
    - The handlers answer with formatted text.  The embedding keeps, for each
      return site, a constructor carrying the values interpolated there. *)

From Stdlib Require Import String Ascii List ZArith Lia Bool Arith.
From Stdlib Require Import Permutation Sorted DecimalString.
Import ListNotations.

Set Warnings "-register-all".

Local Open Scope string_scope.
Local Open Scope list_scope.

(* ===================================================================== *)
(** ** JavaScript built-ins used by the source *)
(* ===================================================================== *)

Module Js.

(** A string is falsy exactly when it is empty. *)
Definition truthy (s : string) : bool := negb (s =? "").

(** [String.prototype.toLowerCase] on code units below 256: the ASCII capitals
    and the Latin-1 capitals (0xC0-0xDE without 0xD7) move up by 0x20. *)
Definition lower_unit (c : ascii) : ascii :=
  let n := nat_of_ascii c in
  if (((65 <=? n) && (n <=? 90)) || ((192 <=? n) && (n <=? 222) && negb (n =? 215)))%nat
  then ascii_of_nat (n + 32) else c.

Fixpoint toLowerCase (s : string) : string :=
  match s with
  | EmptyString => EmptyString
  | String c s' => String (lower_unit c) (toLowerCase s')
  end.

(** [s.includes(sub)]: [sub] occurs in [s] as a contiguous run. *)
Fixpoint includes (s sub : string) : bool :=
  if String.prefix sub s then true
  else match s with
       | EmptyString => false
       | String _ s' => includes s' sub
       end.

(** [Number.isSafeInteger]: an integer that a Number holds exactly, at most
    2^53 - 1 in absolute value. *)
Definition isSafeInteger (z : Z) : bool := (Z.abs z <=? 9007199254740991)%Z.

(** The values a JSON request can put into [metadata].  A number is a safe
    integer: the one kind of Number whose text is its plain decimal digits. *)
Inductive value : Type :=
| JNull
| JBool (b : bool)
| JNum (z : Z) (safe : isSafeInteger z = true)
| JStr (s : string)
| JArr (l : list value)
| JObj (l : list (string * value)).

Definition decimal (z : Z) : string := NilZero.string_of_int (Z.to_int z).

(** The object has a property of its own with this name. *)
Definition hasOwn (name : string) (l : list (string * value)) : bool :=
  existsb (fun kv => fst kv =? name) l.

(** [String(v)]: the text of a value, [None] when the conversion raises a
    TypeError.  An array joins the texts of its elements with a comma, null
    elements giving the empty text.  An object is converted through its
    [toString] property: the inherited method gives a fixed tag; a property
    of its own with that name hides the method, and since a value of a request
    is never a function (nor is what [valueOf] then returns a primitive) the
    conversion raises. *)
Fixpoint toString (v : value) : option string :=
  match v with
  | JNull => Some "null"
  | JBool true => Some "true"
  | JBool false => Some "false"
  | JNum z _ => Some (decimal z)
  | JStr s => Some s
  | JArr l =>
      (fix join (l : list value) : option string :=
         match l with
         | [] => Some ""
         | x :: rest =>
             match (match x with JNull => Some "" | _ => toString x end) with
             | None => None
             | Some e =>
                 match rest with
                 | [] => Some e
                 | _ :: _ =>
                     match join rest with
                     | None => None
                     | Some t => Some (e ++ "," ++ t)%string
                     end
                 end
             end
         end) l
  | JObj l => if hasOwn "toString" l then None else Some "[object Object]"
  end.

(** [v.toLowerCase()] as a method call: only a string has the method; on any
    other value the call raises a TypeError ([None]). *)
Definition method_toLowerCase (v : value) : option string :=
  match v with
  | JStr s => Some (toLowerCase s)
  | _ => None
  end.

(** Length of one code unit inside a JSON string literal: two for the short
    escapes (quote, backslash, \b \t \n \f \r), six for the other control
    units (\u00XX), one otherwise. *)
Definition quoted_unit_length (c : ascii) : nat :=
  let n := nat_of_ascii c in
  if ((n =? 34) || (n =? 92) || (n =? 8) || (n =? 9) || (n =? 10) || (n =? 12) || (n =? 13))%nat
  then 2
  else if (n <? 32)%nat then 6 else 1.

Fixpoint quoted_body_length (s : string) : nat :=
  match s with
  | EmptyString => 0
  | String c s' => quoted_unit_length c + quoted_body_length s'
  end.

(** Length of [JSON.stringify(s)] for a string [s]. *)
Definition quoted_length (s : string) : nat := 2 + quoted_body_length s.

(** Length of [JSON.stringify(v)]. *)
Fixpoint JSON_length (v : value) : nat :=
  match v with
  | JNull => 4
  | JBool true => 4
  | JBool false => 5
  | JNum z _ => String.length (decimal z)
  | JStr s => quoted_length s
  | JArr l =>
      2 + (fix items (l : list value) : nat :=
             match l with
             | [] => 0
             | x :: rest =>
                 match rest with
                 | [] => JSON_length x
                 | _ :: _ => JSON_length x + 1 + items rest
                 end
             end) l
  | JObj l =>
      2 + (fix members (l : list (string * value)) : nat :=
             match l with
             | [] => 0
             | (k, x) :: rest =>
                 match rest with
                 | [] => quoted_length k + 1 + JSON_length x
                 | _ :: _ => quoted_length k + 1 + JSON_length x + 1 + members rest
                 end
             end) l
  end.

(** [Array.prototype.sort(cmp)].  The language requires the sort to be
    stable; for a comparator that is a difference of keys the result is the
    one a stable insertion sort computes: an element moves past those that
    must precede it ([cmp x y > 0]) and stays before its ties. *)
Section Sort.
Context {A : Type} (cmp : A -> A -> Z).

Fixpoint insert (x : A) (l : list A) : list A :=
  match l with
  | [] => [x]
  | y :: l' => if (cmp x y <=? 0)%Z then x :: y :: l' else y :: insert x l'
  end.

Fixpoint sort (l : list A) : list A :=
  match l with
  | [] => []
  | x :: l' => insert x (sort l')
  end.

End Sort.

(** [Array.prototype.slice(0, n)]. *)
Definition slice0 {A : Type} (n : nat) (l : list A) : list A := firstn n l.

(** [Array.prototype.find] and [findIndex]: the first element passing the
    test (index -1 is [None]). *)
Definition find {A : Type} (p : A -> bool) (l : list A) : option A := List.find p l.

Fixpoint findIndex {A : Type} (p : A -> bool) (l : list A) : option nat :=
  match l with
  | [] => None
  | x :: l' => if p x then Some 0 else option_map S (findIndex p l')
  end.

(** [l.splice(i, 1)]: the removed element and the array left. *)
Fixpoint splice1 {A : Type} (i : nat) (l : list A) : option A * list A :=
  match l, i with
  | [], _ => (None, [])
  | x :: l', 0 => (Some x, l')
  | x :: l', S i' => let (r, rest) := splice1 i' l' in (r, x :: rest)
  end.

(** A property name that is an array index: the canonical decimal text of an
    integer from 0 to 2^32 - 2. *)
Definition arrayIndex (name : string) : option Z :=
  match NilZero.int_of_string name with
  | None => None
  | Some i =>
      let z := Z.of_int i in
      if (decimal z =? name) && (0 <=? z)%Z && (z <=? 4294967294)%Z
      then Some z else None
  end.

End Js.


(* ===================================================================== *)
(** ** Insertion-ordered keyed collections: [Map] and plain objects *)
(* ===================================================================== *)

(** A JS [Map] with string keys (the store) keeps its entries in insertion
    order; writing an existing key replaces the value where it stands.  A
    plain object (metadata) is the list of its properties in the order in
    which the language enumerates them ([Object.values], [Object.keys]): a
    fresh object is built with [set] and put into that order by
    [own_order]. *)
Module JsMap.

Definition t (V : Type) : Type := list (string * V).

Fixpoint get {V : Type} (k : string) (m : t V) : option V :=
  match m with
  | [] => None
  | (k', v) :: m' => if k =? k' then Some v else get k m'
  end.

Definition has {V : Type} (k : string) (m : t V) : bool :=
  match get k m with Some _ => true | None => false end.

Fixpoint set {V : Type} (k : string) (v : V) (m : t V) : t V :=
  match m with
  | [] => [(k, v)]
  | (k', v') :: m' => if k =? k' then (k', v) :: m' else (k', v') :: set k v m'
  end.

Fixpoint delete {V : Type} (k : string) (m : t V) : t V :=
  match m with
  | [] => []
  | (k', v') :: m' => if k =? k' then m' else (k', v') :: delete k m'
  end.

Definition size {V : Type} (m : t V) : nat := length m.
Definition keys {V : Type} (m : t V) : list string := map fst m.
Definition values {V : Type} (m : t V) : list V := map snd m.

(** The order in which an object lists its own properties: the names that
    are array indices in ascending numeric order, then the other names in the
    order of their creation. *)
Definition is_index {V : Type} (kv : string * V) : bool :=
  match Js.arrayIndex (fst kv) with Some _ => true | None => false end.

Definition index_of {V : Type} (kv : string * V) : Z :=
  match Js.arrayIndex (fst kv) with Some i => i | None => 0%Z end.

Definition own_order {V : Type} (m : t V) : t V :=
  Js.sort (fun a b => (index_of a - index_of b)%Z) (filter is_index m)
  ++ filter (fun kv => negb (is_index kv)) m.

(** Object spread [{ ...a, ...b }]: a fresh object receiving the properties
    of [a], then those of [b]. *)
Definition spread {V : Type} (a b : t V) : t V :=
  own_order (fold_left (fun acc kv => set (fst kv) (snd kv) acc) (a ++ b) []).

(** Keys are unique in every [Map] and every object. *)
Definition wf {V : Type} (m : t V) : Prop := NoDup (keys m).

End JsMap.

(* ===================================================================== *)
(** ** Data model *)
(* ===================================================================== *)

(** The importance labels of the source: 低 (low), 中 (medium), 高 (high). *)
Inductive Importance : Type := Low | Medium | High.

Definition Importance_eqb (a b : Importance) : bool :=
  match a, b with
  | Low, Low | Medium, Medium | High, High => true
  | _, _ => false
  end.

Definition Timestamp : Type := Z.

Module MemRecord.

Record t : Type := mk {
  id : string;
  content : string;
  importance : Importance;
  context : string;
  metadata : JsMap.t Js.value;
  createdAt : Timestamp;
  updatedAt : Timestamp
}.

Definition with_content (x : string) (r : t) : t :=
  mk (id r) x (importance r) (context r) (metadata r) (createdAt r) (updatedAt r).
Definition with_importance (x : Importance) (r : t) : t :=
  mk (id r) (content r) x (context r) (metadata r) (createdAt r) (updatedAt r).
Definition with_context (x : string) (r : t) : t :=
  mk (id r) (content r) (importance r) x (metadata r) (createdAt r) (updatedAt r).
Definition with_metadata (x : JsMap.t Js.value) (r : t) : t :=
  mk (id r) (content r) (importance r) (context r) x (createdAt r) (updatedAt r).
Definition with_updatedAt (x : Timestamp) (r : t) : t :=
  mk (id r) (content r) (importance r) (context r) (metadata r) (createdAt r) x.

End MemRecord.

Module Topic.

Record t : Type := mk {
  id : string;
  name : string;
  description : string;
  tags : list string;
  records : list MemRecord.t;
  createdAt : Timestamp;
  updatedAt : Timestamp
}.

Definition with_description (x : string) (d : t) : t :=
  mk (id d) (name d) x (tags d) (records d) (createdAt d) (updatedAt d).
Definition with_tags (x : list string) (d : t) : t :=
  mk (id d) (name d) (description d) x (records d) (createdAt d) (updatedAt d).
Definition with_records (x : list MemRecord.t) (d : t) : t :=
  mk (id d) (name d) (description d) (tags d) x (createdAt d) (updatedAt d).
Definition with_updatedAt (x : Timestamp) (d : t) : t :=
  mk (id d) (name d) (description d) (tags d) (records d) (createdAt d) x.

End Topic.

(** [memoryStats] of stats.js. *)
Module Stats.

Record t : Type := mk {
  totalTopics : Z;
  totalRecords : Z;
  totalMemorySize : Z;
  lastAccessTime : option Timestamp;
  accessCount : Z
}.

Definition initial : t := mk 0 0 0 None 0.

Definition set_lastAccessTime (x : Timestamp) (s : t) : t :=
  mk (totalTopics s) (totalRecords s) (totalMemorySize s) (Some x) (accessCount s).
Definition add_accessCount (d : Z) (s : t) : t :=
  mk (totalTopics s) (totalRecords s) (totalMemorySize s) (lastAccessTime s) (accessCount s + d).
Definition add_totalTopics (d : Z) (s : t) : t :=
  mk (totalTopics s + d) (totalRecords s) (totalMemorySize s) (lastAccessTime s) (accessCount s).
Definition add_totalRecords (d : Z) (s : t) : t :=
  mk (totalTopics s) (totalRecords s + d) (totalMemorySize s) (lastAccessTime s) (accessCount s).
Definition add_totalMemorySize (d : Z) (s : t) : t :=
  mk (totalTopics s) (totalRecords s) (totalMemorySize s + d) (lastAccessTime s) (accessCount s).

End Stats.

(* ===================================================================== *)
(** ** The process state and the monad of the handlers *)
(* ===================================================================== *)

(** The two module-level objects, [memoryStore] and [memoryStats], with the
    clock and the id generator of the environment. *)
Record World : Type := mkWorld {
  memoryStore : JsMap.t Topic.t;
  memoryStats : Stats.t;
  clock : nat -> Timestamp;
  clock_reads : nat;
  idgen : nat -> string;
  id_reads : nat
}.

Definition M (A : Type) : Type := World -> A * World.

Definition ret {A : Type} (a : A) : M A := fun w => (a, w).

Definition bind {A B : Type} (m : M A) (k : A -> M B) : M B :=
  fun w => let (a, w') := m w in k a w'.

Declare Scope js_scope.
Delimit Scope js_scope with js.
Notation "x <- c1 ;; c2" := (bind c1 (fun x => c2))
  (at level 61, c1 at next level, right associativity) : js_scope.
Notation "c1 ;; c2" := (bind c1 (fun _ => c2))
  (at level 61, right associativity) : js_scope.
Local Open Scope js_scope.

Definition readStore : M (JsMap.t Topic.t) := fun w => (memoryStore w, w).

Definition modifyStore (f : JsMap.t Topic.t -> JsMap.t Topic.t) : M unit :=
  fun w => (tt, mkWorld (f (memoryStore w)) (memoryStats w)
                        (clock w) (clock_reads w) (idgen w) (id_reads w)).

Definition modifyStats (f : Stats.t -> Stats.t) : M unit :=
  fun w => (tt, mkWorld (memoryStore w) (f (memoryStats w))
                        (clock w) (clock_reads w) (idgen w) (id_reads w)).

(* ---------------------------------------------------------------- *)
(** *** utils.js *)

Definition generateId : M string :=
  fun w => (idgen w (id_reads w),
            mkWorld (memoryStore w) (memoryStats w)
                    (clock w) (clock_reads w) (idgen w) (S (id_reads w))).

Definition getCurrentTimestamp : M Timestamp :=
  fun w => (clock w (clock_reads w),
            mkWorld (memoryStore w) (memoryStats w)
                    (clock w) (S (clock_reads w)) (idgen w) (id_reads w)).

(** [JSON.stringify(record).length]: braces, seven members and six commas.
    Each member is its quoted name, a colon and its value; an importance
    label is one code unit, an ISO timestamp 24. *)
Definition calculateRecordSize (record : MemRecord.t) : Z :=
  Z.of_nat
    (2 + 6
     + (5 + Js.quoted_length (MemRecord.id record))
     + (10 + Js.quoted_length (MemRecord.content record))
     + (13 + 3)
     + (10 + Js.quoted_length (MemRecord.context record))
     + (11 + Js.JSON_length (Js.JObj (MemRecord.metadata record)))
     + (12 + 26)
     + (12 + 26)).

(* ---------------------------------------------------------------- *)
(** *** stats.js *)

(** [updateStats(action, topic = null, record = null)]. *)
Definition updateStats (action : string) (topic : option string)
           (record : option MemRecord.t) : M unit :=
  now <- getCurrentTimestamp ;;
  modifyStats (Stats.set_lastAccessTime now) ;;
  modifyStats (Stats.add_accessCount 1) ;;
  if action =? "add_topic" then
    modifyStats (Stats.add_totalTopics 1)
  else if action =? "add_record" then
    modifyStats (Stats.add_totalRecords 1) ;;
    match record with
    | Some r => modifyStats (Stats.add_totalMemorySize (calculateRecordSize r))
    | None => ret tt
    end
  else if action =? "remove_topic" then
    modifyStats (Stats.add_totalTopics (-1))
  else if action =? "remove_record" then
    modifyStats (Stats.add_totalRecords (-1)) ;;
    match record with
    | Some r => modifyStats (Stats.add_totalMemorySize (- calculateRecordSize r))
    | None => ret tt
    end
  else ret tt.

(* ===================================================================== *)
(** ** tools/memoryManage.js: the memory_manage handler *)
(* ===================================================================== *)

Module Manage.

(** The validated arguments of one call (defaults already filled in). *)
Record Args : Type := mkArgs {
  action : string;
  topic : string;
  description : string;
  tags : list string;
  content : string;
  importance : Importance;
  context : string;
  metadata : JsMap.t Js.value;
  recordId : string;
  confirm : bool
}.

(** One constructor per return site of the handler, with the values its text
    shows. *)
Inductive Result : Type :=
| TopicAlreadyExists (description : string) (tags : list string) (recordCount : nat)
| TopicCreated (newTopic : Topic.t)
| ContentEmpty
| TopicNotFound
| RecordCreated (newRecord : MemRecord.t) (recordCount : nat)
| TopicUpdated (topicToUpdate : Topic.t)
| RecordIdEmpty
| RecordNotFound
| RecordUpdated (recordToUpdate : MemRecord.t)
| ConfirmRequired (description : string) (tags : list string) (recordCount : nat)
                  (createdAt : Timestamp)
| TopicDeleted (recordCount : nat) (description : string) (remainingTopics : nat)
| RecordDeleted (removedRecord : MemRecord.t) (remainingRecords : nat)
| UnsupportedAction
| OperationFailed.

(** The record a handler holds by reference sits in the array of its topic:
    writing its fields rewrites the first element with that id. *)
Fixpoint replace_first (p : MemRecord.t -> bool) (r' : MemRecord.t)
         (l : list MemRecord.t) : list MemRecord.t :=
  match l with
  | [] => []
  | r :: l' => if p r then r' :: l' else r :: replace_first p r' l'
  end.

Definition has_id (recordId : string) (record : MemRecord.t) : bool :=
  MemRecord.id record =? recordId.

(** case create_topic *)
Definition create_topic (topic description : string) (tags : list string) : M Result :=
  store <- readStore ;;
  match JsMap.get topic store with
  | Some existing =>
      ret (TopicAlreadyExists (Topic.description existing) (Topic.tags existing)
                              (length (Topic.records existing)))
  | None =>
      newId <- generateId ;;
      created <- getCurrentTimestamp ;;
      updated <- getCurrentTimestamp ;;
      let newTopic := Topic.mk newId topic description tags [] created updated in
      modifyStore (JsMap.set topic newTopic) ;;
      updateStats "add_topic" None None ;;
      ret (TopicCreated newTopic)
  end.

(** case create_record *)
Definition create_record (topic content : string) (importance : Importance)
           (context : string) (metadata : JsMap.t Js.value) : M Result :=
  if negb (Js.truthy content) then ret ContentEmpty
  else
    store <- readStore ;;
    match JsMap.get topic store with
    | None => ret TopicNotFound
    | Some topicDataForRecord =>
        newId <- generateId ;;
        created <- getCurrentTimestamp ;;
        updated <- getCurrentTimestamp ;;
        let newRecord :=
          MemRecord.mk newId content importance context metadata created updated in
        let pushed :=
          Topic.with_records (Topic.records topicDataForRecord ++ [newRecord])
                             topicDataForRecord in
        now <- getCurrentTimestamp ;;
        let touched := Topic.with_updatedAt now pushed in
        modifyStore (JsMap.set topic touched) ;;
        updateStats "add_record" (Some topic) (Some newRecord) ;;
        ret (RecordCreated newRecord (length (Topic.records touched)))
    end.

(** case update_topic *)
Definition update_topic (topic description : string) (tags : list string) : M Result :=
  store <- readStore ;;
  match JsMap.get topic store with
  | None => ret TopicNotFound
  | Some topicToUpdate =>
      let t1 := if Js.truthy description && negb (description =? "")
                then Topic.with_description description topicToUpdate
                else topicToUpdate in
      let t2 := if (0 <? length tags)%nat then Topic.with_tags tags t1 else t1 in
      now <- getCurrentTimestamp ;;
      let t3 := Topic.with_updatedAt now t2 in
      modifyStore (JsMap.set topic t3) ;;
      ret (TopicUpdated t3)
  end.

(** The field writes of case update_record on the record found. *)
Definition apply_record_update (content : string) (importance : Importance)
           (context : string) (metadata : JsMap.t Js.value)
           (recordToUpdate : MemRecord.t) : MemRecord.t :=
  let r1 := if Js.truthy content && negb (content =? "")
            then MemRecord.with_content content recordToUpdate
            else recordToUpdate in
  let r2 := if negb (Importance_eqb importance Medium)
            then MemRecord.with_importance importance r1 else r1 in
  let r3 := if Js.truthy context && negb (context =? "")
            then MemRecord.with_context context r2 else r2 in
  if (0 <? length (JsMap.keys metadata))%nat
  then MemRecord.with_metadata (JsMap.spread (MemRecord.metadata r3) metadata) r3
  else r3.

(** case update_record *)
Definition update_record (topic recordId content : string) (importance : Importance)
           (context : string) (metadata : JsMap.t Js.value) : M Result :=
  if negb (Js.truthy recordId) then ret RecordIdEmpty
  else
    store <- readStore ;;
    match JsMap.get topic store with
    | None => ret TopicNotFound
    | Some topicDataForUpdate =>
        match Js.find (has_id recordId) (Topic.records topicDataForUpdate) with
        | None => ret RecordNotFound
        | Some recordToUpdate =>
            let r4 := apply_record_update content importance context metadata
                                          recordToUpdate in
            now <- getCurrentTimestamp ;;
            let r5 := MemRecord.with_updatedAt now r4 in
            now' <- getCurrentTimestamp ;;
            let written :=
              Topic.with_records
                (replace_first (has_id recordId) r5 (Topic.records topicDataForUpdate))
                topicDataForUpdate in
            modifyStore (JsMap.set topic (Topic.with_updatedAt now' written)) ;;
            ret (RecordUpdated r5)
        end
    end.

(** case delete_topic *)
Definition delete_topic (topic : string) (confirm : bool) : M Result :=
  store <- readStore ;;
  match JsMap.get topic store with
  | None => ret TopicNotFound
  | Some topicData =>
      if negb confirm then
        ret (ConfirmRequired (Topic.description topicData) (Topic.tags topicData)
                             (length (Topic.records topicData))
                             (Topic.createdAt topicData))
      else
        let recordCount := length (Topic.records topicData) in
        modifyStore (JsMap.delete topic) ;;
        updateStats "remove_topic" (Some topic) None ;;
        store' <- readStore ;;
        ret (TopicDeleted recordCount (Topic.description topicData) (JsMap.size store'))
  end.

(** case delete_record.  [splice(recordIndex, 1)[0]] is undefined when nothing
    is removed; reading a field of it for the answer then raises, and the
    handler's catch answers [OperationFailed]. *)
Definition delete_record (topic recordId : string) : M Result :=
  if negb (Js.truthy recordId) then ret RecordIdEmpty
  else
    store <- readStore ;;
    match JsMap.get topic store with
    | None => ret TopicNotFound
    | Some topicDataForDelete =>
        match Js.findIndex (has_id recordId) (Topic.records topicDataForDelete) with
        | None => ret RecordNotFound
        | Some recordIndex =>
            let (removedRecord, rest) :=
              Js.splice1 recordIndex (Topic.records topicDataForDelete) in
            let spliced := Topic.with_records rest topicDataForDelete in
            now <- getCurrentTimestamp ;;
            modifyStore (JsMap.set topic (Topic.with_updatedAt now spliced)) ;;
            updateStats "remove_record" (Some topic) removedRecord ;;
            match removedRecord with
            | Some removed => ret (RecordDeleted removed (length rest))
            | None => ret OperationFailed
            end
        end
    end.

(** The handler: a switch on [action]. *)
Definition memory_manage (a : Args) : M Result :=
  if action a =? "create_topic" then
    create_topic (topic a) (description a) (tags a)
  else if action a =? "create_record" then
    create_record (topic a) (content a) (importance a) (context a) (metadata a)
  else if action a =? "update_topic" then
    update_topic (topic a) (description a) (tags a)
  else if action a =? "update_record" then
    update_record (topic a) (recordId a) (content a) (importance a) (context a)
                  (metadata a)
  else if action a =? "delete_topic" then
    delete_topic (topic a) (confirm a)
  else if action a =? "delete_record" then
    delete_record (topic a) (recordId a)
  else ret UnsupportedAction.

End Manage.

(* ===================================================================== *)
(** ** tools/memoryQuery.js: the memory_query handler *)
(* ===================================================================== *)

Module Query.

(** [sortBy]: 时间 (by creation time) or 重要性 (by importance). *)
Inductive SortBy : Type := ByTime | ByImportance.

(** [importance] of a query: 全部 (all), or one of the three labels. *)
Inductive ImportanceFilter : Type := AllImportance | Only (i : Importance).

Record Args : Type := mkArgs {
  action : string;
  topic : string;
  query : string;
  importance : ImportanceFilter;
  sortBy : SortBy;
  limit : nat;
  recordId : string
}.

(** An element of [results]: [{ topic, record, relevance }]. *)
Record Hit : Type := mkHit {
  hit_topic : string;
  hit_record : MemRecord.t;
  relevance : Z
}.

Inductive Result : Type :=
| NoTopics
| TopicList (entries : list (string * Topic.t))
| TopicNameEmpty
| TopicNotFound
| TopicView (topicData : Topic.t) (displayRecords : list MemRecord.t)
            (totalRecords : nat) (notShown : option nat)
| QueryEmpty
| SearchResults (found : nat) (displayResults : list Hit) (notShown : option nat)
| RecordIdEmpty
| RecordFound (topicName : string) (foundRecord : MemRecord.t)
| RecordNotFound
| UnsupportedQuery
| QueryFailed.

(** [importanceOrder] of case view_topic. *)
Definition importanceOrder (i : Importance) : Z :=
  match i with High => 3 | Medium => 2 | Low => 1 end.

(** The tail line of a listing: how many are left when more than [limit]. *)
Definition not_shown (total limit : nat) : option nat :=
  if (limit <? total)%nat then Some (total - limit) else None.

(** case list_topics *)
Definition list_topics (store : JsMap.t Topic.t) : Result :=
  if (JsMap.size store =? 0)%nat then NoTopics else TopicList store.

(** case view_topic *)
Definition view_topic (store : JsMap.t Topic.t) (topic : string) (sortBy : SortBy)
           (limit : nat) : Result :=
  if negb (Js.truthy topic) then TopicNameEmpty
  else
    match JsMap.get topic store with
    | None => TopicNotFound
    | Some topicData =>
        let records := Topic.records topicData in
        let records :=
          match sortBy with
          | ByTime =>
              Js.sort (fun a b => (MemRecord.createdAt b - MemRecord.createdAt a)%Z)
                      records
          | ByImportance =>
              Js.sort (fun a b => (importanceOrder (MemRecord.importance b)
                                   - importanceOrder (MemRecord.importance a))%Z)
                      records
          end in
        let displayRecords := Js.slice0 limit records in
        TopicView topicData displayRecords (length (Topic.records topicData))
                  (not_shown (length (Topic.records topicData)) limit)
    end.

(** The [continue] test of the search loop. *)
Definition filtered_out (importance : ImportanceFilter) (record : MemRecord.t) : bool :=
  match importance with
  | AllImportance => false
  | Only i => negb (Importance_eqb (MemRecord.importance record) i)
  end.

Definition contentMatch (query : string) (record : MemRecord.t) : bool :=
  Js.includes (Js.toLowerCase (MemRecord.content record)) (Js.toLowerCase query).

Definition contextMatch (query : string) (record : MemRecord.t) : bool :=
  Js.truthy (MemRecord.context record)
  && Js.includes (Js.toLowerCase (MemRecord.context record)) (Js.toLowerCase query).

(** [Object.values(record.metadata).some(value =>
    String(value).toLowerCase().includes(query.toLowerCase()))]: the values
    in order up to the first that passes; [None] when [String(value)] raises
    before a value passed. *)
Fixpoint metadataMatch_values (query : string) (vs : list Js.value) : option bool :=
  match vs with
  | [] => Some false
  | v :: vs' =>
      match Js.toString v with
      | None => None
      | Some s =>
          if Js.includes (Js.toLowerCase s) (Js.toLowerCase query) then Some true
          else metadataMatch_values query vs'
      end
  end.

Definition metadataMatch (query : string) (record : MemRecord.t) : option bool :=
  metadataMatch_values query (JsMap.values (MemRecord.metadata record)).

(** The body of the inner loop: [results] after looking at one record, [None]
    when the metadata test raised. *)
Definition scan_record (query : string) (importance : ImportanceFilter)
           (topicName : string) (results : list Hit) (record : MemRecord.t)
  : option (list Hit) :=
  if filtered_out importance record then Some results
  else
    let c := contentMatch query record in
    let x := contextMatch query record in
    match metadataMatch query record with
    | None => None
    | Some m =>
        if c || x || m
        then Some (results ++ [mkHit topicName record (if c then 3 else if x then 2 else 1)])
        else Some results
    end.

(** The inner loop, over the records of one topic. *)
Fixpoint scan_records (query : string) (importance : ImportanceFilter)
         (topicName : string) (records : list MemRecord.t) (results : list Hit)
  : option (list Hit) :=
  match records with
  | [] => Some results
  | record :: records' =>
      match scan_record query importance topicName results record with
      | None => None
      | Some results' => scan_records query importance topicName records' results'
      end
  end.

(** The outer loop, over [memoryStore.entries()]. *)
Fixpoint scan_store (query : string) (importance : ImportanceFilter)
         (store : JsMap.t Topic.t) (results : list Hit) : option (list Hit) :=
  match store with
  | [] => Some results
  | (topicName, topicData) :: store' =>
      match scan_records query importance topicName (Topic.records topicData) results with
      | None => None
      | Some results' => scan_store query importance store' results'
      end
  end.

(** case search; what the loops raise is caught by the handler's catch, which
    answers with the failure text. *)
Definition search (store : JsMap.t Topic.t) (query : string)
           (importance : ImportanceFilter) (limit : nat) : Result :=
  if negb (Js.truthy query) then QueryEmpty
  else
    match scan_store query importance store [] with
    | None => QueryFailed
    | Some results =>
        let results := Js.sort (fun a b => (relevance b - relevance a)%Z) results in
        let displayResults := Js.slice0 limit results in
        SearchResults (length results) displayResults (not_shown (length results) limit)
    end.

(** case get_record: the first record with the id, topics in order. *)
Fixpoint get_record_in (store : JsMap.t Topic.t) (recordId : string) : Result :=
  match store with
  | [] => RecordNotFound
  | (topicName, topicData) :: store' =>
      match Js.find (fun record => MemRecord.id record =? recordId)
                    (Topic.records topicData) with
      | Some foundRecord => RecordFound topicName foundRecord
      | None => get_record_in store' recordId
      end
  end.

Definition get_record (store : JsMap.t Topic.t) (recordId : string) : Result :=
  if negb (Js.truthy recordId) then RecordIdEmpty else get_record_in store recordId.

(** The handler: a switch on [action]; it only reads the store. *)
Definition memory_query (a : Args) : M Result :=
  store <- readStore ;;
  if action a =? "list_topics" then ret (list_topics store)
  else if action a =? "view_topic" then
    ret (view_topic store (topic a) (sortBy a) (limit a))
  else if action a =? "search" then
    ret (search store (query a) (importance a) (limit a))
  else if action a =? "get_record" then ret (get_record store (recordId a))
  else ret UnsupportedQuery.

End Query.

(* ===================================================================== *)
(** ** The older single-file server: its search loop *)
(* ===================================================================== *)

(** The single-file server has the same search, except that the metadata test
    calls [value.toLowerCase()] on the value itself.  The call raises on a
    value that is not a string; the handler's catch then answers with the
    failure text. *)
Module Legacy.

(** [Object.values(metadata).some(value => value.toLowerCase().includes(q))]:
    [None] when the callback raises before a value matched. *)
Fixpoint metadataMatch_values (query : string) (vs : list Js.value) : option bool :=
  match vs with
  | [] => Some false
  | v :: vs' =>
      match Js.method_toLowerCase v with
      | None => None
      | Some s =>
          if Js.includes s (Js.toLowerCase query) then Some true
          else metadataMatch_values query vs'
      end
  end.

Definition scan_record (query : string) (importance : Query.ImportanceFilter)
           (topicName : string) (results : list Query.Hit) (record : MemRecord.t)
  : option (list Query.Hit) :=
  if Query.filtered_out importance record then Some results
  else
    let c := Query.contentMatch query record in
    let x := Query.contextMatch query record in
    match metadataMatch_values query (JsMap.values (MemRecord.metadata record)) with
    | None => None
    | Some m =>
        if c || x || m
        then Some (results ++ [Query.mkHit topicName record
                                           (if c then 3 else if x then 2 else 1)])
        else Some results
    end.

Fixpoint scan_records (query : string) (importance : Query.ImportanceFilter)
         (topicName : string) (records : list MemRecord.t) (results : list Query.Hit)
  : option (list Query.Hit) :=
  match records with
  | [] => Some results
  | record :: records' =>
      match scan_record query importance topicName results record with
      | None => None
      | Some results' => scan_records query importance topicName records' results'
      end
  end.

Fixpoint scan_store (query : string) (importance : Query.ImportanceFilter)
         (store : JsMap.t Topic.t) (results : list Query.Hit) : option (list Query.Hit) :=
  match store with
  | [] => Some results
  | (topicName, topicData) :: store' =>
      match scan_records query importance topicName (Topic.records topicData) results with
      | None => None
      | Some results' => scan_store query importance store' results'
      end
  end.

Definition search (store : JsMap.t Topic.t) (query : string)
           (importance : Query.ImportanceFilter) (limit : nat) : Query.Result :=
  if negb (Js.truthy query) then Query.QueryEmpty
  else
    match scan_store query importance store [] with
    | None => Query.QueryFailed
    | Some results =>
        let results := Js.sort (fun a b => (Query.relevance b - Query.relevance a)%Z)
                               results in
        Query.SearchResults (length results) (Js.slice0 limit results)
                            (Query.not_shown (length results) limit)
    end.

End Legacy.
(* ===================================================================== *)
(** ** The search as the specification words it *)
(* ===================================================================== *)

(** Written from the words of the search operation, to be compared with
    [Query.search]: scan every entry of every topic in insertion order, skip
    what the importance filter excludes, test the query without regard to
    case against content, context (if present) and the text of the metadata
    values, in order up to the first that contains it; when a value so tested
    has no text, the search fails as a whole; otherwise score 3 / 2 / 1,
    order by score with ties in scan order, cut at the limit. *)
Module SearchSpec.

Definition scan_order (store : JsMap.t Topic.t) : list (string * MemRecord.t) :=
  flat_map (fun entry => map (fun r => (fst entry, r)) (Topic.records (snd entry))) store.

Definition passes (f : Query.ImportanceFilter) (r : MemRecord.t) : bool :=
  match f with
  | Query.AllImportance => true
  | Query.Only i => Importance_eqb (MemRecord.importance r) i
  end.

Definition occurs_in (query text : string) : bool :=
  Js.includes (Js.toLowerCase text) (Js.toLowerCase query).

(** The value has a text, and the text contains the query. *)
Definition value_matches (query : string) (v : Js.value) : bool :=
  match Js.toString v with
  | Some text => occurs_in query text
  | None => false
  end.

Definition has_no_text (v : Js.value) : bool :=
  match Js.toString v with Some _ => false | None => true end.

(** The metadata values that are tested: in order, up to the first whose
    text contains the query. *)
Fixpoint tested (query : string) (vs : list Js.value) : list Js.value :=
  match vs with
  | [] => []
  | v :: vs' => if value_matches query v then [v] else v :: tested query vs'
  end.

(** The test of the entry fails: one of the tested values has no text. *)
Definition faults (query : string) (r : MemRecord.t) : bool :=
  existsb has_no_text (tested query (JsMap.values (MemRecord.metadata r))).

Definition score (query : string) (r : MemRecord.t) : option Z :=
  if occurs_in query (MemRecord.content r) then Some 3%Z
  else if negb (MemRecord.context r =? "") && occurs_in query (MemRecord.context r)
       then Some 2%Z
  else if existsb (value_matches query) (JsMap.values (MemRecord.metadata r))
       then Some 1%Z
  else None.

Definition hit_of (query : string) (f : Query.ImportanceFilter)
           (e : string * MemRecord.t) : list Query.Hit :=
  if passes f (snd e) then
    match score query (snd e) with
    | Some k => [Query.mkHit (fst e) (snd e) k]
    | None => []
    end
  else [].

Definition hits (query : string) (f : Query.ImportanceFilter)
           (store : JsMap.t Topic.t) : list Query.Hit :=
  flat_map (hit_of query f) (scan_order store).

Definition scored (k : Z) (l : list Query.Hit) : list Query.Hit :=
  filter (fun h => (Query.relevance h =? k)%Z) l.

(** Relevance descending, ties in scan order. *)
Definition ranked (l : list Query.Hit) : list Query.Hit :=
  scored 3 l ++ scored 2 l ++ scored 1 l.

(** Some scanned entry that the filter lets through fails its test. *)
Definition fails (query : string) (f : Query.ImportanceFilter)
           (store : JsMap.t Topic.t) : bool :=
  existsb (fun e => passes f (snd e) && faults query (snd e)) (scan_order store).

Definition search (store : JsMap.t Topic.t) (query : string)
           (f : Query.ImportanceFilter) (limit : nat) : Query.Result :=
  if query =? "" then Query.QueryEmpty
  else if fails query f store then Query.QueryFailed
  else
    let found := hits query f store in
    Query.SearchResults (length found) (firstn limit (ranked found))
                        (Query.not_shown (length found) limit).

End SearchSpec.

(* ===================================================================== *)
(** ** Definitions used to state the properties *)
(* ===================================================================== *)

(** What one call of [updateStats] does to the counters, given the clock
    reading [now] it takes. *)
Definition stats_after (action : string) (record : option MemRecord.t)
           (now : Timestamp) (s : Stats.t) : Stats.t :=
  let s := Stats.add_accessCount 1 (Stats.set_lastAccessTime now s) in
  if action =? "add_topic" then Stats.add_totalTopics 1 s
  else if action =? "add_record" then
    match record with
    | Some r => Stats.add_totalMemorySize (calculateRecordSize r) (Stats.add_totalRecords 1 s)
    | None => Stats.add_totalRecords 1 s
    end
  else if action =? "remove_topic" then Stats.add_totalTopics (-1) s
  else if action =? "remove_record" then
    match record with
    | Some r => Stats.add_totalMemorySize (- calculateRecordSize r)
                                          (Stats.add_totalRecords (-1) s)
    | None => Stats.add_totalRecords (-1) s
    end
  else s.

(** A sequence of calls of [updateStats]. *)
Fixpoint run_updateStats (calls : list (string * option MemRecord.t)) : M unit :=
  match calls with
  | [] => ret tt
  | (action, record) :: calls' =>
      updateStats action None record ;; run_updateStats calls'
  end.

(** The world with the clock advanced by [n] reads and new statistics. *)
Definition tick_stats (n : nat) (s : Stats.t) (w : World) : World :=
  mkWorld (memoryStore w) s (clock w) (n + clock_reads w) (idgen w) (id_reads w).

(** The answers of memory_manage that report an error, ask for confirmation,
    or come from the handler's catch. *)
Definition is_error_or_preview (r : Manage.Result) : bool :=
  match r with
  | Manage.TopicAlreadyExists _ _ _ | Manage.ContentEmpty | Manage.TopicNotFound
  | Manage.RecordIdEmpty | Manage.RecordNotFound | Manage.ConfirmRequired _ _ _ _
  | Manage.UnsupportedAction | Manage.OperationFailed => true
  | _ => false
  end.

(** The event a successful answer of memory_manage goes with. *)
Definition stats_event (r : Manage.Result) : option (string * option MemRecord.t) :=
  match r with
  | Manage.TopicCreated _ => Some ("add_topic", None)
  | Manage.RecordCreated newRecord _ => Some ("add_record", Some newRecord)
  | Manage.TopicDeleted _ _ _ => Some ("remove_topic", None)
  | Manage.RecordDeleted removedRecord _ => Some ("remove_record", Some removedRecord)
  | _ => None
  end.

(** The statistics of [w'] are those of [w] after the event of the answer
    [r], and those of [w] when the answer has no event. *)
Definition recorded (w w' : World) (r : Manage.Result) : Prop :=
  match stats_event r with
  | Some (action, record) =>
      exists n, memoryStats w' = stats_after action record (clock w n) (memoryStats w)
  | None => memoryStats w' = memoryStats w
  end.

(** Number of records held by the store, over all topics. *)
Definition stored_records (store : JsMap.t Topic.t) : nat :=
  list_sum (map (fun e => length (Topic.records (snd e))) store).

(** Topic and record counters agree with the store. *)
Definition in_step (w : World) : Prop :=
  Stats.totalTopics (memoryStats w) = Z.of_nat (JsMap.size (memoryStore w))
  /\ Stats.totalRecords (memoryStats w) = Z.of_nat (stored_records (memoryStore w)).

(** The same after a call that answered [r]: after a topic was deleted the
    record counter is ahead of the store by the records the topic held. *)
Definition in_step_after (w' : World) (r : Manage.Result) : Prop :=
  match r with
  | Manage.TopicDeleted recordCount _ _ =>
      Stats.totalTopics (memoryStats w') = Z.of_nat (JsMap.size (memoryStore w'))
      /\ Stats.totalRecords (memoryStats w')
         = Z.of_nat (stored_records (memoryStore w') + recordCount)
  | _ => in_step w'
  end.

(** The topic object [create_topic] builds in [w]. *)
Definition created_topic (w : World) (topic description : string) (tags : list string)
  : Topic.t :=
  Topic.mk (idgen w (id_reads w)) topic description tags []
           (clock w (clock_reads w)) (clock w (1 + clock_reads w)).

(** The record object [create_record] builds in [w]. *)
Definition created_record (w : World) (content : string) (importance : Importance)
           (context : string) (metadata : JsMap.t Js.value) : MemRecord.t :=
  MemRecord.mk (idgen w (id_reads w)) content importance context metadata
               (clock w (clock_reads w)) (clock w (1 + clock_reads w)).

(** The topic object after the writes of [update_topic] in [w]. *)
Definition updated_topic (w : World) (description : string) (tags : list string)
           (topicToUpdate : Topic.t) : Topic.t :=
  Topic.mk (Topic.id topicToUpdate) (Topic.name topicToUpdate)
           (if description =? "" then Topic.description topicToUpdate else description)
           (match tags with [] => Topic.tags topicToUpdate | _ :: _ => tags end)
           (Topic.records topicToUpdate) (Topic.createdAt topicToUpdate)
           (clock w (clock_reads w)).

(** The record object after the writes of [update_record] in [w]. *)
Definition updated_record (w : World) (content : string) (importance : Importance)
           (context : string) (metadata : JsMap.t Js.value)
           (recordToUpdate : MemRecord.t) : MemRecord.t :=
  MemRecord.mk
    (MemRecord.id recordToUpdate)
    (if content =? "" then MemRecord.content recordToUpdate else content)
    (match importance with
     | Medium => MemRecord.importance recordToUpdate
     | _ => importance
     end)
    (if context =? "" then MemRecord.context recordToUpdate else context)
    (match metadata with
     | [] => MemRecord.metadata recordToUpdate
     | _ :: _ => JsMap.spread (MemRecord.metadata recordToUpdate) metadata
     end)
    (MemRecord.createdAt recordToUpdate)
    (clock w (clock_reads w)).

(** The array left by [splice] at the index [findIndex] gave: the first
    element passing the test is gone. *)
Fixpoint remove_first {A : Type} (p : A -> bool) (l : list A) : list A :=
  match l with
  | [] => []
  | x :: l' => if p x then l' else x :: remove_first p l'
  end.

(** The records of one importance, in their order. *)
Definition of_importance (i : Importance) (rs : list MemRecord.t) : list MemRecord.t :=
  filter (fun r => Importance_eqb (MemRecord.importance r) i) rs.

(** The elements of key [k], in their order; a list descending in the key. *)
Definition keyed {A : Type} (key : A -> Z) (k : Z) (l : list A) : list A :=
  filter (fun a => (key a =? k)%Z) l.

Definition descending {A : Type} (key : A -> Z) : list A -> Prop :=
  StronglySorted (fun a b => (key b <= key a)%Z).

(** Every metadata value of the store is a string. *)
Definition text_only (store : JsMap.t Topic.t) : Prop :=
  forall topicName td r v,
    In (topicName, td) store -> In r (Topic.records td) ->
    In v (JsMap.values (MemRecord.metadata r)) -> exists s, v = Js.JStr s.

(** The single-file search raises on [r]: the record passes the importance
    filter and the test of its metadata values meets a value that is not a
    string before any value matched. *)
Definition raises (query : string) (f : Query.ImportanceFilter) (r : MemRecord.t)
  : bool :=
  negb (Query.filtered_out f r)
  && match Legacy.metadataMatch_values query (JsMap.values (MemRecord.metadata r)) with
     | None => true
     | Some _ => false
     end.

Definition is_text (v : Js.value) : bool :=
  match v with Js.JStr _ => true | _ => false end.

(** A scalar: null, a boolean, a number or a string. *)
Definition scalar (v : Js.value) : bool :=
  match v with Js.JArr _ | Js.JObj _ => false | _ => true end.

(** Arguments of a call of memory_manage, with the defaults of the schema for
    all but the action and the topic. *)
Definition call (action topic : string) : Manage.Args :=
  Manage.mkArgs action topic "" [] "" Medium "" [] "" false.

(** Sample worlds. *)
Module Sample.

(** An empty server whose clock reads 1000, 1001, ... and whose ids are
    id0, id1, ... *)
Definition empty : World :=
  mkWorld [] Stats.initial (fun n => (1000 + Z.of_nat n)%Z) 0
          (fun n => ("id" ++ Js.decimal (Z.of_nat n))%string) 0.

Definition after {A : Type} (m : M A) (w : World) : World := snd (m w).

(** Topic Notes with two records, as in the scenario of the specification;
    the first record carries a number in its metadata. *)
Definition notes : World :=
  after (Manage.create_record "Notes" "second" Low "ctx" [])
    (after (Manage.create_record "Notes" "Hello World" High ""
                                 [("n", Js.JNum 42 eq_refl)])
       (after (Manage.create_topic "Notes" "d" ["a"]) empty)).

(** Topic T with one record, whose content contains an x and whose metadata
    holds an object with a property named toString. *)
Definition odd : World :=
  after (Manage.create_record "T" "x marks the spot" Medium ""
                              [("a", Js.JObj [("toString", Js.JNum 1 eq_refl)])])
    (after (Manage.create_topic "T" "" []) empty).

(** Topic T with one record, whose id is id1. *)
Definition one : World :=
  after (Manage.create_record "T" "x" Medium "" [])
    (after (Manage.create_topic "T" "" []) empty).

(** Topic Mixed with records of importance low, high, medium, high, low. *)
Definition mixed : World :=
  after (Manage.create_record "Mixed" "e" Low "" [])
    (after (Manage.create_record "Mixed" "d" High "" [])
       (after (Manage.create_record "Mixed" "c" Medium "" [])
          (after (Manage.create_record "Mixed" "b" High "" [])
             (after (Manage.create_record "Mixed" "a" Low "" [])
                (after (Manage.create_topic "Mixed" "" []) empty))))).

End Sample.

(* ===================================================================== *)
(** ** Facts about the built-ins *)
(* ===================================================================== *)

Lemma truthy_false_iff (s : string) : Js.truthy s = false <-> s = "".
Proof.
  unfold Js.truthy. destruct (String.eqb_spec s ""); simpl; split; congruence.
Qed.

Lemma truthy_true_iff (s : string) : Js.truthy s = true <-> s <> "".
Proof.
  unfold Js.truthy. destruct (String.eqb_spec s ""); simpl; split; congruence.
Qed.

Lemma truthy_and_nonempty (s : string) :
  Js.truthy s && negb (s =? "") = negb (s =? "").
Proof. unfold Js.truthy. destruct (s =? ""); reflexivity. Qed.

Module JsMapFacts.
Import JsMap.

Section Facts.
Context {V : Type}.
Implicit Types (m : JsMap.t V) (k : string) (v : V).

Lemma get_None_iff m k : get k m = None <-> ~ In k (keys m).
Proof.
  induction m as [|[k' v'] m IH]; simpl.
  - tauto.
  - destruct (String.eqb_spec k k') as [->|Hne].
    + split; [discriminate | intros H; exfalso; apply H; now left].
    + rewrite IH. split; intros H; [intros [E|I]; [congruence | tauto] | tauto].
Qed.

Lemma has_true_iff m k : has k m = true <-> In k (keys m).
Proof.
  unfold has. destruct (get k m) eqn:E.
  - split; [intros _ | reflexivity].
    destruct (in_dec string_dec k (keys m)) as [I|N]; [exact I|].
    apply get_None_iff in N. congruence.
  - split; [discriminate|]. intros I. apply get_None_iff in E. tauto.
Qed.

Lemma get_set_same m k v : get k (set k v m) = Some v.
Proof.
  induction m as [|[k' v'] m IH]; simpl.
  - now rewrite String.eqb_refl.
  - destruct (String.eqb_spec k k') as [->|Hne]; simpl.
    + now rewrite String.eqb_refl.
    + destruct (String.eqb_spec k k'); [congruence | exact IH].
Qed.

Lemma get_set_other m k k' v : k' <> k -> get k' (set k v m) = get k' m.
Proof.
  intros Hne. induction m as [|[k0 v0] m IH]; simpl.
  - destruct (String.eqb_spec k' k); [congruence | reflexivity].
  - destruct (String.eqb_spec k k0) as [->|Hk]; simpl.
    + destruct (String.eqb_spec k' k0); [congruence | reflexivity].
    + now rewrite IH.
Qed.

Lemma set_absent m k v : get k m = None -> set k v m = m ++ [(k, v)].
Proof.
  induction m as [|[k' v'] m IH]; simpl; [reflexivity|].
  destruct (k =? k'); [discriminate|]. intros H. now rewrite IH.
Qed.

Lemma keys_set_present m k v v0 : get k m = Some v0 -> keys (set k v m) = keys m.
Proof.
  induction m as [|[k' v'] m IH]; simpl; [discriminate|].
  destruct (k =? k'); simpl; [reflexivity|]. intros H. f_equal. now apply IH.
Qed.

Lemma size_set_present m k v v0 : get k m = Some v0 -> size (set k v m) = size m.
Proof.
  intros H. unfold size. rewrite <- !(length_map fst).
  change (length (keys (set k v m)) = length (keys m)).
  now rewrite (keys_set_present _ _ _ _ H).
Qed.

Lemma values_set_present m k v v0 :
  get k m = Some v0 ->
  exists m1 m2, m = m1 ++ (k, v0) :: m2 /\ set k v m = m1 ++ (k, v) :: m2
                /\ ~ In k (keys m1).
Proof.
  induction m as [|[k' v'] m IH]; simpl; [discriminate|].
  destruct (String.eqb_spec k k') as [->|Hne].
  - intros [= ->]. exists [], m. simpl. tauto.
  - intros H. destruct (IH H) as (m1 & m2 & -> & E & N).
    exists ((k', v') :: m1), m2. simpl. rewrite E.
    split; [reflexivity|]. split; [reflexivity|].
    intros [?|?]; [congruence | tauto].
Qed.

Lemma size_delete_present m k v0 : get k m = Some v0 -> S (size (delete k m)) = size m.
Proof.
  unfold size. induction m as [|[k' v'] m IH]; simpl; [discriminate|].
  destruct (k =? k'); simpl; [reflexivity|]. intros H. now rewrite IH.
Qed.

Lemma keys_delete_incl m k : incl (keys (delete k m)) (keys m).
Proof.
  induction m as [|[k' v'] m IH]; simpl; [apply incl_refl|].
  destruct (k =? k'); simpl.
  - apply incl_tl, incl_refl.
  - apply incl_cons; [now left | now apply incl_tl].
Qed.

Lemma wf_delete m k : wf m -> wf (delete k m).
Proof.
  unfold wf. induction m as [|[k' v'] m IH]; simpl; [trivial|].
  intros H. inversion H as [|? ? Hn Hd]; subst.
  destruct (k =? k'); simpl; [exact Hd|].
  constructor; [|now apply IH].
  intros I. apply Hn. now apply (keys_delete_incl m k).
Qed.

Lemma get_delete_same m k : wf m -> get k (delete k m) = None.
Proof.
  unfold wf. induction m as [|[k' v'] m IH]; simpl; [trivial|].
  intros H. inversion H as [|? ? Hn Hd]; subst.
  destruct (String.eqb_spec k k') as [->|Hne]; simpl.
  - now apply get_None_iff.
  - destruct (String.eqb_spec k k'); [congruence | now apply IH].
Qed.

Lemma get_delete_other m k k' : k' <> k -> get k' (delete k m) = get k' m.
Proof.
  intros Hne. induction m as [|[k0 v0] m IH]; simpl; [reflexivity|].
  destruct (String.eqb_spec k k0) as [->|Hk]; simpl.
  - destruct (String.eqb_spec k' k0); [congruence | reflexivity].
  - now rewrite IH.
Qed.

Lemma wf_set m k v : wf m -> wf (set k v m).
Proof.
  intros H. destruct (get k m) eqn:E.
  - unfold wf. now rewrite (keys_set_present _ _ _ _ E).
  - rewrite (set_absent _ _ _ E). unfold wf, keys. rewrite map_app. simpl.
    apply NoDup_app; [exact H | repeat constructor; intros [] | ].
    intros a Ia [<-|[]]. apply get_None_iff in E. tauto.
Qed.

(** Reading a property of [{ ...a, ...b }]: [b] wins, then [a]. *)
Lemma get_fold_set (l : JsMap.t V) : forall acc k,
  wf l ->
  get k (fold_left (fun acc kv => set (fst kv) (snd kv) acc) l acc)
  = match get k l with Some v => Some v | None => get k acc end.
Proof.
  induction l as [|[k0 v0] l IH]; intros acc k Hwf; simpl; [reflexivity|].
  unfold wf in Hwf. simpl in Hwf. inversion Hwf as [|? ? Hn Hd]; subst.
  rewrite IH by exact Hd.
  destruct (String.eqb_spec k k0) as [->|Hne].
  - apply get_None_iff in Hn. rewrite Hn. apply get_set_same.
  - destruct (get k l); [reflexivity|]. now apply get_set_other.
Qed.

Lemma get_app (a b : JsMap.t V) k :
  get k (a ++ b) = match get k a with Some v => Some v | None => get k b end.
Proof.
  induction a as [|[k0 v0] a IH]; simpl; [reflexivity|].
  destruct (k =? k0); [reflexivity | exact IH].
Qed.

Lemma fold_set_keys_incl (l : JsMap.t V) : forall acc k,
  In k (keys (fold_left (fun acc kv => set (fst kv) (snd kv) acc) l acc)) ->
  In k (keys l) \/ In k (keys acc).
Proof.
  induction l as [|[k0 v0] l IH]; intros acc k; simpl; [tauto|].
  intros H. apply IH in H. destruct H as [H|H]; [tauto|].
  destruct (string_dec k k0) as [->|Hne]; [tauto|].
  right. apply has_true_iff. apply has_true_iff in H. unfold has in *.
  now rewrite get_set_other in H.
Qed.

Lemma wf_fold_set (l : JsMap.t V) : forall acc,
  wf acc -> wf (fold_left (fun acc kv => set (fst kv) (snd kv) acc) l acc).
Proof.
  induction l as [|[k0 v0] l IH]; intros acc H; simpl; [exact H|].
  apply IH. now apply wf_set.
Qed.

(** Putting the properties into the order of the language changes neither
    what a name reads nor the set of the names. *)
Lemma get_filter_names (p : string -> bool) (m : JsMap.t V) k :
  get k (filter (fun kv => p (fst kv)) m) = if p k then get k m else None.
Proof.
  induction m as [|[k0 v0] m IH]; simpl; [now destruct (p k)|].
  destruct (p k0) eqn:P0; simpl; destruct (String.eqb_spec k k0) as [->|Hne].
  - now rewrite P0.
  - exact IH.
  - now rewrite IH, P0.
  - exact IH.
Qed.

Lemma get_insert_index (x : string * V) (l : JsMap.t V) k :
  get k (Js.insert (fun a b => (index_of a - index_of b)%Z) x l) = get k (x :: l).
Proof.
  induction l as [|[ky vy] l IH]; [reflexivity|]. cbn [Js.insert].
  destruct (index_of x - index_of (ky, vy) <=? 0)%Z eqn:E; [reflexivity|].
  destruct x as [kx vx]. cbn [get] in *. rewrite IH.
  destruct (String.eqb_spec k ky) as [->|Hy]; [|reflexivity].
  destruct (String.eqb_spec ky kx) as [->|Hx]; [|reflexivity].
  unfold index_of in E. cbn [fst] in E. rewrite Z.sub_diag in E. discriminate.
Qed.

Lemma get_sort_index (l : JsMap.t V) k :
  get k (Js.sort (fun a b => (index_of a - index_of b)%Z) l) = get k l.
Proof.
  induction l as [|[k0 v0] l IH]; [reflexivity|]. cbn [Js.sort].
  rewrite get_insert_index. cbn [get]. now rewrite IH.
Qed.

Lemma get_own_order (m : JsMap.t V) k : get k (own_order m) = get k m.
Proof.
  unfold own_order. rewrite get_app, get_sort_index.
  rewrite (get_filter_names
             (fun n => match Js.arrayIndex n with Some _ => true | None => false end)).
  rewrite (get_filter_names
             (fun n => negb match Js.arrayIndex n with Some _ => true | None => false end)).
  destruct (Js.arrayIndex k); simpl; [now destruct (get k m) | reflexivity].
Qed.

Lemma own_order_perm (m : JsMap.t V) : Permutation (own_order m) m.
Proof.
  unfold own_order.
  assert (S : forall l : JsMap.t V,
             Permutation (Js.sort (fun a b => (index_of a - index_of b)%Z) l) l).
  { assert (I : forall x (l : JsMap.t V),
               Permutation (Js.insert (fun a b => (index_of a - index_of b)%Z) x l)
                           (x :: l)).
    { intros x l. induction l as [|y l IH]; simpl; [reflexivity|].
      destruct (index_of x - index_of y <=? 0)%Z; [reflexivity|].
      rewrite IH. apply perm_swap. }
    induction l as [|x l IH]; simpl; [reflexivity|].
    rewrite I. now apply perm_skip. }
  rewrite S. clear S.
  induction m as [|x m IH]; simpl; [reflexivity|].
  destruct (is_index x); simpl.
  - now apply perm_skip.
  - rewrite <- Permutation_middle. now apply perm_skip.
Qed.

Lemma wf_own_order (m : JsMap.t V) : wf m -> wf (own_order m).
Proof.
  unfold wf, keys. intros H.
  apply (Permutation_NoDup (l := map fst m)); [|exact H].
  apply Permutation_map. symmetry. apply own_order_perm.
Qed.

Lemma wf_spread (a b : JsMap.t V) : wf (spread a b).
Proof. apply wf_own_order. apply wf_fold_set. constructor. Qed.

End Facts.
End JsMapFacts.

Lemma get_spread {V : Type} (a b : JsMap.t V) (k : string) :
  JsMap.wf a -> JsMap.wf b ->
  JsMap.get k (JsMap.spread a b)
  = match JsMap.get k b with Some v => Some v | None => JsMap.get k a end.
Proof.
  intros Ha Hb. unfold JsMap.spread. rewrite JsMapFacts.get_own_order.
  rewrite fold_left_app.
  rewrite (JsMapFacts.get_fold_set b _ k Hb).
  destruct (JsMap.get k b); [reflexivity|].
  rewrite (JsMapFacts.get_fold_set a _ k Ha).
  now destruct (JsMap.get k a).
Qed.

Lemma count_occ_keys_wf {V : Type} (m : JsMap.t V) (k : string) (v : V) :
  JsMap.wf m -> JsMap.get k m = Some v -> count_occ string_dec (JsMap.keys m) k = 1.
Proof.
  intros Hwf Hget.
  assert (I : In k (JsMap.keys m)).
  { apply JsMapFacts.has_true_iff. unfold JsMap.has. now rewrite Hget. }
  apply (count_occ_In string_dec) in I.
  pose proof (proj1 (NoDup_count_occ string_dec (JsMap.keys m)) Hwf k). lia.
Qed.

(** *** find, findIndex and splice *)

Lemma findIndex_None {A : Type} (p : A -> bool) (l : list A) :
  Js.findIndex p l = None -> Js.find p l = None.
Proof.
  unfold Js.find. induction l as [|x l IH]; simpl; [reflexivity|].
  destruct (p x); [discriminate|].
  destruct (Js.findIndex p l); [discriminate | auto].
Qed.

Lemma findIndex_Some {A : Type} (p : A -> bool) (l : list A) : forall i,
  Js.findIndex p l = Some i ->
  exists x, Js.find p l = Some x /\ Js.splice1 i l = (Some x, remove_first p l).
Proof.
  unfold Js.find. induction l as [|x l IH]; simpl; intros i; [discriminate|].
  destruct (p x).
  - intros [= <-]. now exists x.
  - destruct (Js.findIndex p l) as [j|]; [|discriminate].
    simpl. intros [= <-]. destruct (IH j eq_refl) as (y & F & Sp).
    exists y. simpl. rewrite Sp. now split.
Qed.

Lemma find_Some_findIndex {A : Type} (p : A -> bool) (l : list A) x :
  Js.find p l = Some x -> exists i, Js.findIndex p l = Some i.
Proof.
  unfold Js.find. induction l as [|y l IH]; simpl; [discriminate|].
  destruct (p y); [now exists 0|].
  intros H. destruct (IH H) as [i ->]. now exists (S i).
Qed.

Lemma length_remove_first {A : Type} (p : A -> bool) (l : list A) x :
  Js.find p l = Some x -> S (length (remove_first p l)) = length l.
Proof.
  unfold Js.find. induction l as [|y l IH]; simpl; [discriminate|].
  destruct (p y); [reflexivity|]. intros H. simpl. now rewrite IH.
Qed.

Lemma length_replace_first (p : MemRecord.t -> bool) r' l :
  length (Manage.replace_first p r' l) = length l.
Proof.
  induction l as [|y l IH]; simpl; [reflexivity|].
  destruct (p y); simpl; [reflexivity | now rewrite IH].
Qed.

Lemma replace_first_split (p : MemRecord.t -> bool) (new : MemRecord.t)
      (l : list MemRecord.t) (old : MemRecord.t) :
  Js.find p l = Some old ->
  exists before after,
    l = before ++ old :: after
    /\ Manage.replace_first p new l = before ++ new :: after
    /\ Forall (fun r => p r = false) before.
Proof.
  unfold Js.find. induction l as [|r l IH]; simpl; [discriminate|].
  destruct (p r) eqn:E.
  - intros [= ->]. exists [], l. repeat split. constructor.
  - intros H. destruct (IH H) as (b & a & -> & R & F).
    exists (r :: b), a. simpl. rewrite R. repeat split. now constructor.
Qed.

Lemma remove_first_split {A : Type} (p : A -> bool) (l : list A) (x : A) :
  Js.find p l = Some x ->
  exists before after,
    l = before ++ x :: after /\ remove_first p l = before ++ after
    /\ Forall (fun r => p r = false) before.
Proof.
  unfold Js.find. induction l as [|r l IH]; simpl; [discriminate|].
  destruct (p r) eqn:E.
  - intros [= ->]. exists [], l. repeat split. constructor.
  - intros H. destruct (IH H) as (b & a & -> & R & F).
    exists (r :: b), a. simpl. rewrite R. repeat split. now constructor.
Qed.

(** *** Counting the records of the store *)

Lemma stored_records_app (a b : JsMap.t Topic.t) :
  stored_records (a ++ b) = stored_records a + stored_records b.
Proof. unfold stored_records. now rewrite map_app, list_sum_app. Qed.

Lemma stored_records_set (m : JsMap.t Topic.t) k td td' :
  JsMap.get k m = Some td ->
  stored_records (JsMap.set k td' m) + length (Topic.records td)
  = stored_records m + length (Topic.records td').
Proof.
  unfold stored_records. induction m as [|[k0 t0] m IH]; simpl; [discriminate|].
  destruct (k =? k0); simpl.
  - intros [= ->]. lia.
  - intros H. specialize (IH H). lia.
Qed.

Lemma stored_records_delete (m : JsMap.t Topic.t) k td :
  JsMap.get k m = Some td ->
  stored_records (JsMap.delete k m) + length (Topic.records td) = stored_records m.
Proof.
  unfold stored_records. induction m as [|[k0 t0] m IH]; simpl; [discriminate|].
  destruct (k =? k0); simpl.
  - intros [= ->]. lia.
  - intros H. specialize (IH H). lia.
Qed.

Lemma set_changes_store (store : JsMap.t Topic.t) topic td td' :
  JsMap.get topic store = Some td ->
  length (Topic.records td') <> length (Topic.records td) ->
  JsMap.set topic td' store <> store.
Proof.
  intros H L E. pose proof (JsMapFacts.get_set_same store topic td') as G.
  rewrite E, H in G. injection G as ->. now apply L.
Qed.

(* ===================================================================== *)
(** ** The sort: a permutation, descending in the key, stable *)
(* ===================================================================== *)

Section SortByKey.
Context {A : Type} (key : A -> Z).

Local Abbreviation by_key := (fun a b : A => (key b - key a)%Z).

Lemma insert_perm x l : Permutation (x :: l) (Js.insert by_key x l).
Proof.
  induction l as [|y l IH]; simpl; [reflexivity|].
  destruct (key y - key x <=? 0)%Z; [reflexivity|].
  rewrite perm_swap. now apply perm_skip.
Qed.

Lemma sort_perm l : Permutation l (Js.sort by_key l).
Proof.
  induction l as [|x l IH]; simpl; [reflexivity|].
  rewrite <- insert_perm. now apply perm_skip.
Qed.

Lemma sort_length l : length (Js.sort by_key l) = length l.
Proof. symmetry. apply Permutation_length, sort_perm. Qed.

Lemma insert_descending x l :
  descending key l -> descending key (Js.insert by_key x l).
Proof.
  unfold descending. induction l as [|y l IH]; simpl; intros H.
  - repeat constructor.
  - inversion H as [|? ? Hl Hy]; subst.
    destruct (Z.leb_spec (key y - key x) 0) as [Hle|Hgt].
    + constructor; [exact H|]. constructor; [lia|].
      eapply Forall_impl; [|exact Hy]. simpl. intros; lia.
    + constructor; [now apply IH|].
      eapply Permutation_Forall; [apply insert_perm|].
      constructor; [lia | exact Hy].
Qed.

Lemma sort_descending l : descending key (Js.sort by_key l).
Proof.
  induction l as [|x l IH]; simpl; [constructor | now apply insert_descending].
Qed.

(** Stability: among the elements of one key the order is the original one. *)
Lemma insert_stable k x l : keyed key k (Js.insert by_key x l) = keyed key k (x :: l).
Proof.
  unfold keyed. induction l as [|y l IH]; [reflexivity|].
  cbn [Js.insert]. destruct (Z.leb_spec (key y - key x) 0) as [Hle|Hgt]; [reflexivity|].
  cbn [filter] in *. rewrite IH.
  destruct (Z.eqb_spec (key x) k), (Z.eqb_spec (key y) k); try reflexivity. lia.
Qed.

Lemma sort_stable k l : keyed key k (Js.sort by_key l) = keyed key k l.
Proof.
  induction l as [|x l IH]; [reflexivity|].
  cbn [Js.sort]. rewrite insert_stable. unfold keyed in *. cbn [filter]. now rewrite IH.
Qed.

(** A descending list is determined by its groups: whatever stable sort the
    engine runs, its result is the one of [Js.sort]. *)
Lemma descending_groups_unique l1 : forall l2,
  descending key l1 -> descending key l2 ->
  (forall k, keyed key k l1 = keyed key k l2) ->
  l1 = l2.
Proof.
  unfold descending, keyed.
  induction l1 as [|x l1 IH]; intros l2 D1 D2 G.
  - destruct l2 as [|y l2]; [reflexivity|].
    specialize (G (key y)). cbn [filter] in G. rewrite Z.eqb_refl in G. discriminate.
  - destruct l2 as [|y l2].
    { specialize (G (key x)). cbn [filter] in G. rewrite Z.eqb_refl in G. discriminate. }
    inversion D1 as [|? ? D1' F1]; subst. inversion D2 as [|? ? D2' F2]; subst.
    assert (Hxy : (key x <= key y)%Z).
    { pose proof (G (key x)) as Gx. cbn [filter] in Gx. rewrite Z.eqb_refl in Gx.
      assert (I : In x (if (key y =? key x)%Z
                        then y :: filter (fun a => (key a =? key x)%Z) l2
                        else filter (fun a => (key a =? key x)%Z) l2))
        by (rewrite <- Gx; now left).
      destruct (Z.eqb_spec (key y) (key x)) as [E|N]; [lia|].
      apply filter_In in I. destruct I as [I _].
      rewrite Forall_forall in F2. now apply F2. }
    assert (Hyx : (key y <= key x)%Z).
    { pose proof (G (key y)) as Gy. cbn [filter] in Gy. rewrite Z.eqb_refl in Gy.
      assert (I : In y (if (key x =? key y)%Z
                        then x :: filter (fun a => (key a =? key y)%Z) l1
                        else filter (fun a => (key a =? key y)%Z) l1))
        by (rewrite Gy; now left).
      destruct (Z.eqb_spec (key x) (key y)) as [E|N]; [lia|].
      apply filter_In in I. destruct I as [I _].
      rewrite Forall_forall in F1. now apply F1. }
    assert (E : key y = key x) by lia.
    pose proof (G (key x)) as Gx. cbn [filter] in Gx.
    rewrite E, Z.eqb_refl in Gx. injection Gx as <- Gx.
    f_equal. apply IH; [exact D1' | exact D2' |].
    intros k. destruct (Z.eq_dec (key x) k) as [Ek|N]; [now subst k|].
    specialize (G k). cbn [filter] in G.
    apply Z.eqb_neq in N. now rewrite N in G.
Qed.

Lemma sort_unique l l' :
  descending key l' -> (forall k, keyed key k l' = keyed key k l) ->
  l' = Js.sort by_key l.
Proof.
  intros D G. apply descending_groups_unique; [exact D | apply sort_descending |].
  intros k. now rewrite sort_stable.
Qed.

(** An element goes past those that must precede it and no further. *)
Lemma insert_past x l1 l2 :
  Forall (fun y => (key x < key y)%Z) l1 ->
  Forall (fun y => (key y <= key x)%Z) l2 ->
  Js.insert by_key x (l1 ++ l2) = l1 ++ x :: l2.
Proof.
  intros H1 H2. induction H1 as [|y l1 Hy _ IH]; simpl.
  - destruct l2 as [|z l2]; [reflexivity|]. simpl.
    inversion H2; subst. destruct (Z.leb_spec (key z - key x) 0); [reflexivity | lia].
  - destruct (Z.leb_spec (key y - key x) 0); [lia | now rewrite IH].
Qed.

Lemma keyed_Forall k l : Forall (fun a => key a = k) (keyed key k l).
Proof.
  apply Forall_forall. intros a I. apply filter_In in I. now apply Z.eqb_eq.
Qed.

(** With keys 1, 2 and 3 the sorted array is the elements of key 3, then
    those of key 2, then those of key 1, each group in its original order. *)
Lemma sort_three l :
  Forall (fun a => key a = 1 \/ key a = 2 \/ key a = 3)%Z l ->
  Js.sort by_key l = keyed key 3 l ++ keyed key 2 l ++ keyed key 1 l.
Proof.
  induction 1 as [|x l Hx _ IH]; [reflexivity|].
  cbn [Js.sort]. rewrite IH. unfold keyed at 4 5 6. cbn [filter].
  fold (keyed key 3 l) (keyed key 2 l) (keyed key 1 l).
  pose proof (keyed_Forall 3 l) as K3.
  pose proof (keyed_Forall 2 l) as K2.
  pose proof (keyed_Forall 1 l) as K1.
  destruct Hx as [E|[E|E]]; rewrite E; cbn [Z.eqb Pos.eqb app].
  - rewrite app_assoc.
    rewrite (insert_past x (keyed key 3 l ++ keyed key 2 l) (keyed key 1 l)).
    + now rewrite <- app_assoc.
    + apply Forall_app. split; (eapply Forall_impl; [|eassumption]); simpl; intros; lia.
    + eapply Forall_impl; [|exact K1]. simpl. intros; lia.
  - rewrite (insert_past x (keyed key 3 l) (keyed key 2 l ++ keyed key 1 l));
      [reflexivity| |].
    + eapply Forall_impl; [|exact K3]. simpl. intros; lia.
    + apply Forall_app. split; (eapply Forall_impl; [|eassumption]); simpl; intros; lia.
  - apply (insert_past x [] (keyed key 3 l ++ keyed key 2 l ++ keyed key 1 l));
      [constructor|].
    apply Forall_app. split; [|apply Forall_app; split];
      (eapply Forall_impl; [|eassumption]); simpl; intros; lia.
Qed.

End SortByKey.

Lemma keyed_importance (i : Importance) (rs : list MemRecord.t) :
  keyed (fun r => Query.importanceOrder (MemRecord.importance r))
        (Query.importanceOrder i) rs
  = of_importance i rs.
Proof.
  unfold keyed, of_importance. apply filter_ext. intros r.
  destruct (MemRecord.importance r), i; reflexivity.
Qed.

Lemma sort_by_importance (rs : list MemRecord.t) :
  Js.sort (fun a b => (Query.importanceOrder (MemRecord.importance b)
                       - Query.importanceOrder (MemRecord.importance a))%Z) rs
  = of_importance High rs ++ of_importance Medium rs ++ of_importance Low rs.
Proof.
  rewrite (sort_three (fun r => Query.importanceOrder (MemRecord.importance r))).
  - now rewrite <- !keyed_importance.
  - apply Forall_forall. intros r _. destruct (MemRecord.importance r); simpl; tauto.
Qed.

(* ===================================================================== *)
(** ** What each handler computes *)
(* ===================================================================== *)

Ltac run_handler :=
  unfold bind, ret, readStore, modifyStore, modifyStats, generateId,
         getCurrentTimestamp;
  cbn beta iota zeta delta [memoryStore memoryStats clock clock_reads idgen id_reads
                            fst snd negb].

Lemma updateStats_run (action : string) (topic : option string)
      (record : option MemRecord.t) (w : World) :
  updateStats action topic record w
  = (tt, tick_stats 1 (stats_after action record (clock w (clock_reads w))
                                   (memoryStats w)) w).
Proof.
  unfold updateStats, stats_after, tick_stats. run_handler.
  destruct (action =? "add_topic"); [reflexivity|].
  destruct (action =? "add_record"); [destruct record; reflexivity|].
  destruct (action =? "remove_topic"); [reflexivity|].
  destruct (action =? "remove_record"); [destruct record; reflexivity|].
  reflexivity.
Qed.

Lemma stats_after_access (action : string) (record : option MemRecord.t)
      (now : Timestamp) (s : Stats.t) :
  Stats.accessCount (stats_after action record now s) = (Stats.accessCount s + 1)%Z
  /\ Stats.lastAccessTime (stats_after action record now s) = Some now.
Proof.
  unfold stats_after.
  destruct (action =? "add_topic"); [split; reflexivity|].
  destruct (action =? "add_record"); [destruct record; split; reflexivity|].
  destruct (action =? "remove_topic"); [split; reflexivity|].
  destruct (action =? "remove_record"); [destruct record; split; reflexivity|].
  split; reflexivity.
Qed.

(** The four events, spelled out. *)
Lemma stats_after_add_topic now s :
  stats_after "add_topic" None now s
  = Stats.mk (Stats.totalTopics s + 1) (Stats.totalRecords s) (Stats.totalMemorySize s)
             (Some now) (Stats.accessCount s + 1).
Proof. reflexivity. Qed.

Lemma stats_after_add_record r now s :
  stats_after "add_record" (Some r) now s
  = Stats.mk (Stats.totalTopics s) (Stats.totalRecords s + 1)
             (Stats.totalMemorySize s + calculateRecordSize r)
             (Some now) (Stats.accessCount s + 1).
Proof. reflexivity. Qed.

Lemma stats_after_remove_topic now s :
  stats_after "remove_topic" None now s
  = Stats.mk (Stats.totalTopics s - 1) (Stats.totalRecords s) (Stats.totalMemorySize s)
             (Some now) (Stats.accessCount s + 1).
Proof. reflexivity. Qed.

Lemma stats_after_remove_record r now s :
  stats_after "remove_record" (Some r) now s
  = Stats.mk (Stats.totalTopics s) (Stats.totalRecords s - 1)
             (Stats.totalMemorySize s - calculateRecordSize r)
             (Some now) (Stats.accessCount s + 1).
Proof. reflexivity. Qed.

Section ManageRuns.
Import Manage.
Variable w : World.

Lemma create_topic_present topic description tags existing :
  JsMap.get topic (memoryStore w) = Some existing ->
  create_topic topic description tags w
  = (TopicAlreadyExists (Topic.description existing) (Topic.tags existing)
                        (length (Topic.records existing)), w).
Proof.
  intros H. unfold create_topic. run_handler. now rewrite H.
Qed.

Lemma create_topic_absent topic description tags :
  JsMap.get topic (memoryStore w) = None ->
  create_topic topic description tags w
  = (TopicCreated (created_topic w topic description tags),
     mkWorld (memoryStore w ++ [(topic, created_topic w topic description tags)])
             (stats_after "add_topic" None (clock w (2 + clock_reads w)) (memoryStats w))
             (clock w) (3 + clock_reads w) (idgen w) (S (id_reads w))).
Proof.
  intros H. unfold create_topic. run_handler. rewrite H.
  run_handler. rewrite updateStats_run. unfold tick_stats. simpl.
  rewrite (JsMapFacts.set_absent _ _ _ H). reflexivity.
Qed.

Lemma create_record_empty topic importance context metadata :
  create_record topic "" importance context metadata w = (ContentEmpty, w).
Proof. reflexivity. Qed.

Lemma create_record_absent topic content importance context metadata :
  content <> "" ->
  JsMap.get topic (memoryStore w) = None ->
  create_record topic content importance context metadata w = (TopicNotFound, w).
Proof.
  intros Hc H. unfold create_record.
  apply truthy_true_iff in Hc. rewrite Hc. run_handler. now rewrite H.
Qed.

Lemma create_record_present topic content importance context metadata topicData :
  content <> "" ->
  JsMap.get topic (memoryStore w) = Some topicData ->
  let newRecord := created_record w content importance context metadata in
  let topicData' :=
    Topic.with_updatedAt (clock w (2 + clock_reads w))
      (Topic.with_records (Topic.records topicData ++ [newRecord]) topicData) in
  create_record topic content importance context metadata w
  = (RecordCreated newRecord (S (length (Topic.records topicData))),
     mkWorld (JsMap.set topic topicData' (memoryStore w))
             (stats_after "add_record" (Some newRecord) (clock w (3 + clock_reads w))
                          (memoryStats w))
             (clock w) (4 + clock_reads w) (idgen w) (S (id_reads w))).
Proof.
  intros Hc H. unfold create_record.
  apply truthy_true_iff in Hc. rewrite Hc. run_handler. rewrite H. run_handler.
  rewrite updateStats_run. unfold tick_stats. simpl.
  rewrite length_app. simpl. rewrite Nat.add_1_r. reflexivity.
Qed.

Lemma update_topic_absent topic description tags :
  JsMap.get topic (memoryStore w) = None ->
  update_topic topic description tags w = (TopicNotFound, w).
Proof.
  intros H. unfold update_topic. run_handler. now rewrite H.
Qed.

Lemma update_topic_present topic description tags topicToUpdate :
  JsMap.get topic (memoryStore w) = Some topicToUpdate ->
  update_topic topic description tags w
  = (TopicUpdated (updated_topic w description tags topicToUpdate),
     mkWorld (JsMap.set topic (updated_topic w description tags topicToUpdate)
                        (memoryStore w))
             (memoryStats w) (clock w) (1 + clock_reads w) (idgen w) (id_reads w)).
Proof.
  intros H. unfold update_topic. run_handler. rewrite H. run_handler.
  rewrite truthy_and_nonempty. unfold updated_topic.
  destruct topicToUpdate; destruct (description =? ""); destruct tags; reflexivity.
Qed.

Lemma update_record_no_id topic content importance context metadata :
  update_record topic "" content importance context metadata w = (RecordIdEmpty, w).
Proof. reflexivity. Qed.

Lemma update_record_no_topic topic recordId content importance context metadata :
  recordId <> "" ->
  JsMap.get topic (memoryStore w) = None ->
  update_record topic recordId content importance context metadata w
  = (TopicNotFound, w).
Proof.
  intros Hr H. unfold update_record. apply truthy_true_iff in Hr. rewrite Hr.
  run_handler. now rewrite H.
Qed.

Lemma update_record_no_record topic recordId content importance context metadata td :
  recordId <> "" ->
  JsMap.get topic (memoryStore w) = Some td ->
  Js.find (has_id recordId) (Topic.records td) = None ->
  update_record topic recordId content importance context metadata w
  = (RecordNotFound, w).
Proof.
  intros Hr H F. unfold update_record. apply truthy_true_iff in Hr. rewrite Hr.
  run_handler. rewrite H. now rewrite F.
Qed.

Lemma apply_record_update_eq content importance context metadata r :
  MemRecord.with_updatedAt (clock w (clock_reads w))
    (apply_record_update content importance context metadata r)
  = updated_record w content importance context metadata r.
Proof.
  unfold apply_record_update, updated_record. rewrite !truthy_and_nonempty.
  destruct r; destruct (content =? ""); destruct importance;
    destruct (context =? ""); destruct metadata; reflexivity.
Qed.

Lemma update_record_present topic recordId content importance context metadata td r :
  recordId <> "" ->
  JsMap.get topic (memoryStore w) = Some td ->
  Js.find (has_id recordId) (Topic.records td) = Some r ->
  let r' := updated_record w content importance context metadata r in
  let td' :=
    Topic.with_updatedAt (clock w (1 + clock_reads w))
      (Topic.with_records (replace_first (has_id recordId) r' (Topic.records td)) td) in
  update_record topic recordId content importance context metadata w
  = (RecordUpdated r',
     mkWorld (JsMap.set topic td' (memoryStore w)) (memoryStats w)
             (clock w) (2 + clock_reads w) (idgen w) (id_reads w)).
Proof.
  intros Hr H F. unfold update_record. apply truthy_true_iff in Hr. rewrite Hr.
  run_handler. rewrite H, F. run_handler.
  rewrite apply_record_update_eq. reflexivity.
Qed.

Lemma delete_topic_absent topic confirm :
  JsMap.get topic (memoryStore w) = None ->
  delete_topic topic confirm w = (TopicNotFound, w).
Proof.
  intros H. unfold delete_topic. run_handler. now rewrite H.
Qed.

Lemma delete_topic_preview topic topicData :
  JsMap.get topic (memoryStore w) = Some topicData ->
  delete_topic topic false w
  = (ConfirmRequired (Topic.description topicData) (Topic.tags topicData)
                     (length (Topic.records topicData)) (Topic.createdAt topicData), w).
Proof.
  intros H. unfold delete_topic. run_handler. now rewrite H.
Qed.

Lemma delete_topic_confirmed topic topicData :
  JsMap.get topic (memoryStore w) = Some topicData ->
  delete_topic topic true w
  = (TopicDeleted (length (Topic.records topicData)) (Topic.description topicData)
                  (JsMap.size (JsMap.delete topic (memoryStore w))),
     mkWorld (JsMap.delete topic (memoryStore w))
             (stats_after "remove_topic" None (clock w (clock_reads w)) (memoryStats w))
             (clock w) (1 + clock_reads w) (idgen w) (id_reads w)).
Proof.
  intros H. unfold delete_topic. run_handler. rewrite H. run_handler.
  rewrite updateStats_run. reflexivity.
Qed.

Lemma delete_record_no_id topic :
  delete_record topic "" w = (RecordIdEmpty, w).
Proof. reflexivity. Qed.

Lemma delete_record_no_topic topic recordId :
  recordId <> "" ->
  JsMap.get topic (memoryStore w) = None ->
  delete_record topic recordId w = (TopicNotFound, w).
Proof.
  intros Hr H. unfold delete_record. apply truthy_true_iff in Hr. rewrite Hr.
  run_handler. now rewrite H.
Qed.

Lemma delete_record_no_record topic recordId td :
  recordId <> "" ->
  JsMap.get topic (memoryStore w) = Some td ->
  Js.find (has_id recordId) (Topic.records td) = None ->
  delete_record topic recordId w = (RecordNotFound, w).
Proof.
  intros Hr H F. unfold delete_record. apply truthy_true_iff in Hr. rewrite Hr.
  run_handler. rewrite H.
  destruct (Js.findIndex (has_id recordId) (Topic.records td)) as [i|] eqn:E;
    [|reflexivity].
  apply findIndex_Some in E. destruct E as (x & F' & _). congruence.
Qed.

Lemma delete_record_present topic recordId td removed :
  recordId <> "" ->
  JsMap.get topic (memoryStore w) = Some td ->
  Js.find (has_id recordId) (Topic.records td) = Some removed ->
  let rest := remove_first (has_id recordId) (Topic.records td) in
  let td' := Topic.with_updatedAt (clock w (clock_reads w)) (Topic.with_records rest td) in
  delete_record topic recordId w
  = (RecordDeleted removed (length rest),
     mkWorld (JsMap.set topic td' (memoryStore w))
             (stats_after "remove_record" (Some removed) (clock w (1 + clock_reads w))
                          (memoryStats w))
             (clock w) (2 + clock_reads w) (idgen w) (id_reads w)).
Proof.
  intros Hr H F. unfold delete_record. apply truthy_true_iff in Hr. rewrite Hr.
  run_handler. rewrite H.
  destruct (find_Some_findIndex _ _ _ F) as [i E]. rewrite E.
  destruct (findIndex_Some _ _ _ E) as (x & F' & Sp). rewrite Sp.
  assert (x = removed) by congruence. subst x.
  run_handler. rewrite updateStats_run. reflexivity.
Qed.

End ManageRuns.

(** The cases of memory_manage: the action, then the tests of its handler,
    each with the answer and the world it gives. *)
Ltac on_topic a w present absent :=
  let td := fresh "td" in
  let Hget := fresh "Hget" in
  destruct (JsMap.get (Manage.topic a) (memoryStore w)) as [td|] eqn:Hget;
  [ present td Hget | absent Hget ].

Ltac on_record a w td missing id_ok topic_ok present absent :=
  let r := fresh "r" in
  let F := fresh "F" in
  destruct (Js.find (Manage.has_id (Manage.recordId a)) (Topic.records td)) as [r|] eqn:F;
  [ present id_ok topic_ok F | absent id_ok topic_ok F ].

Ltac manage_cases a w :=
  unfold Manage.memory_manage;
  destruct (Manage.action a =? "create_topic");
  [ on_topic a w
      ltac:(fun td H => rewrite (create_topic_present w _ _ _ _ H))
      ltac:(fun H => rewrite (create_topic_absent w _ _ _ H))
  | destruct (Manage.action a =? "create_record");
    [ let Hc := fresh "Hc" in
      destruct (string_dec (Manage.content a) "") as [Hc|Hc];
      [ rewrite Hc, create_record_empty
      | on_topic a w
          ltac:(fun td H => rewrite (create_record_present w _ _ _ _ _ _ Hc H))
          ltac:(fun H => rewrite (create_record_absent w _ _ _ _ _ Hc H)) ]
    | destruct (Manage.action a =? "update_topic");
      [ on_topic a w
          ltac:(fun td H => rewrite (update_topic_present w _ _ _ _ H))
          ltac:(fun H => rewrite (update_topic_absent w _ _ _ H))
      | destruct (Manage.action a =? "update_record");
        [ let Hr := fresh "Hr" in
          destruct (string_dec (Manage.recordId a) "") as [Hr|Hr];
          [ rewrite Hr, update_record_no_id
          | on_topic a w
              ltac:(fun td H =>
                      on_record a w td tt Hr H
                        ltac:(fun Hr H F =>
                                rewrite (update_record_present w _ _ _ _ _ _ _ _ Hr H F))
                        ltac:(fun Hr H F =>
                                rewrite (update_record_no_record w _ _ _ _ _ _ _ Hr H F)))
              ltac:(fun H => rewrite (update_record_no_topic w _ _ _ _ _ _ Hr H)) ]
        | destruct (Manage.action a =? "delete_topic");
          [ on_topic a w
              ltac:(fun td H =>
                      destruct (Manage.confirm a);
                      [ rewrite (delete_topic_confirmed w _ _ H)
                      | rewrite (delete_topic_preview w _ _ H) ])
              ltac:(fun H => rewrite (delete_topic_absent w _ _ H))
          | destruct (Manage.action a =? "delete_record");
            [ let Hr := fresh "Hr" in
              destruct (string_dec (Manage.recordId a) "") as [Hr|Hr];
              [ rewrite Hr, delete_record_no_id
              | on_topic a w
                  ltac:(fun td H =>
                          on_record a w td tt Hr H
                            ltac:(fun Hr H F =>
                                    rewrite (delete_record_present w _ _ _ _ Hr H F))
                            ltac:(fun Hr H F =>
                                    rewrite (delete_record_no_record w _ _ _ Hr H F)))
                  ltac:(fun H => rewrite (delete_record_no_topic w _ _ Hr H)) ]
            | idtac ]]]]]];
  cbn [fst snd].

(* ===================================================================== *)
(** ** Properties of every call of memory_manage *)
(* ===================================================================== *)

(** An error or preview answer comes with the world untouched. *)
Lemma memory_manage_frame (a : Manage.Args) (w : World) :
  is_error_or_preview (fst (Manage.memory_manage a w)) = true ->
  snd (Manage.memory_manage a w) = w.
Proof.
  manage_cases a w; cbn [is_error_or_preview]; solve [reflexivity | discriminate].
Qed.

(** The catch of memory_manage is never reached. *)
Lemma memory_manage_never_fails (a : Manage.Args) (w : World) :
  fst (Manage.memory_manage a w) <> Manage.OperationFailed.
Proof. manage_cases a w; discriminate. Qed.

(** One event after a creation or a deletion, none otherwise. *)
Lemma memory_manage_recorded (a : Manage.Args) (w : World) :
  recorded w (snd (Manage.memory_manage a w)) (fst (Manage.memory_manage a w)).
Proof.
  unfold recorded.
  manage_cases a w; cbn [stats_event memoryStats]; solve [reflexivity | eexists; reflexivity].
Qed.

Lemma update_topic_stats (w : World) topic description tags :
  memoryStats (snd (Manage.update_topic topic description tags w)) = memoryStats w.
Proof.
  destruct (JsMap.get topic (memoryStore w)) as [td|] eqn:Hget.
  - now rewrite (update_topic_present w _ _ _ _ Hget).
  - now rewrite (update_topic_absent w _ _ _ Hget).
Qed.

Lemma update_record_stats (w : World) topic recordId content importance context metadata :
  memoryStats (snd (Manage.update_record topic recordId content importance context
                                         metadata w))
  = memoryStats w.
Proof.
  destruct (string_dec recordId "") as [->|Hr]; [reflexivity|].
  destruct (JsMap.get topic (memoryStore w)) as [td|] eqn:Hget.
  - destruct (Js.find (Manage.has_id recordId) (Topic.records td)) as [r|] eqn:F.
    + now rewrite (update_record_present w _ _ _ _ _ _ _ _ Hr Hget F).
    + now rewrite (update_record_no_record w _ _ _ _ _ _ _ Hr Hget F).
  - now rewrite (update_record_no_topic w _ _ _ _ _ _ Hr Hget).
Qed.

(** The statistics differ after a call only if the store differs. *)
Lemma memory_manage_stats (a : Manage.Args) (w : World) :
  memoryStats (snd (Manage.memory_manage a w)) <> memoryStats w ->
  memoryStore (snd (Manage.memory_manage a w)) <> memoryStore w.
Proof.
  manage_cases a w; cbn [memoryStats memoryStore]; intros Hs;
    try (exfalso; apply Hs; reflexivity); clear Hs.
  - intros E. apply (f_equal (@length _)) in E. rewrite length_app in E.
    simpl in E. lia.
  - eapply set_changes_store; [eassumption|].
    cbn. rewrite length_app. simpl. lia.
  - intros E.
    match goal with H : JsMap.get _ _ = Some _ |- _ =>
      pose proof (JsMapFacts.size_delete_present _ _ _ H) as L end.
    rewrite E in L. lia.
  - eapply set_changes_store; [eassumption|]. cbn.
    match goal with H : Js.find _ _ = Some _ |- _ =>
      pose proof (length_remove_first _ _ _ H) end.
    lia.
Qed.

(** The keys of the store stay unique. *)
Lemma memory_manage_wf (a : Manage.Args) (w : World) :
  JsMap.wf (memoryStore w) -> JsMap.wf (memoryStore (snd (Manage.memory_manage a w))).
Proof.
  intros Hwf.
  manage_cases a w; cbn [memoryStore]; try exact Hwf;
    try (now apply JsMapFacts.wf_set); try (now apply JsMapFacts.wf_delete).
  match goal with H : JsMap.get _ _ = None |- _ =>
    rewrite <- (JsMapFacts.set_absent _ _ _ H) end.
  now apply JsMapFacts.wf_set.
Qed.

(** Counters that agree with the store keep agreeing, except that deleting a
    topic leaves the record counter ahead by the records of the topic. *)
Lemma memory_manage_in_step (a : Manage.Args) (w : World) :
  in_step w ->
  in_step_after (snd (Manage.memory_manage a w)) (fst (Manage.memory_manage a w)).
Proof.
  intros [T R]. unfold in_step_after, in_step.
  manage_cases a w; cbn [memoryStore memoryStats]; try (split; assumption);
    rewrite ?stats_after_add_topic, ?stats_after_add_record,
            ?stats_after_remove_topic, ?stats_after_remove_record;
    cbn [Stats.totalTopics Stats.totalRecords];
    try match goal with H : JsMap.get _ _ = Some _ |- context [JsMap.set ?k ?v ?m] =>
          rewrite (JsMapFacts.size_set_present _ _ _ _ H);
          let S := fresh "S" in
          pose proof (stored_records_set m k _ v H) as S;
          cbn [Topic.records Topic.with_records Topic.with_updatedAt updated_topic] in S
        end.
  - unfold JsMap.size in *. rewrite stored_records_app, length_app.
    unfold stored_records at 2. simpl. split; lia.
  - rewrite length_app in *. simpl in *. split; lia.
  - split; lia.
  - rewrite length_replace_first in *. split; lia.
  - match goal with H : JsMap.get _ _ = Some _ |- _ =>
      pose proof (JsMapFacts.size_delete_present _ _ _ H);
      pose proof (stored_records_delete _ _ _ H) end.
    split; lia.
  - match goal with H : Js.find _ _ = Some _ |- _ =>
      pose proof (length_remove_first _ _ _ H) end.
    split; lia.
Qed.

(* ===================================================================== *)
(** ** The search loop against its specification *)
(* ===================================================================== *)

Section SearchLoop.
Variables (query : string) (f : Query.ImportanceFilter).

Lemma filtered_out_passes r : Query.filtered_out f r = negb (SearchSpec.passes f r).
Proof. destruct f; reflexivity. Qed.

Lemma value_matches_text v s :
  Js.toString v = Some s ->
  SearchSpec.value_matches query v
  = Js.includes (Js.toLowerCase s) (Js.toLowerCase query).
Proof. intros E. unfold SearchSpec.value_matches. now rewrite E. Qed.

Lemma value_matches_no_text v :
  Js.toString v = None -> SearchSpec.value_matches query v = false.
Proof. intros E. unfold SearchSpec.value_matches. now rewrite E. Qed.

(** The test of the metadata values: it raises when a tested value has no
    text, and otherwise tells whether some value matches. *)
Lemma metadataMatch_values_tested vs :
  Query.metadataMatch_values query vs
  = if existsb SearchSpec.has_no_text (SearchSpec.tested query vs) then None
    else Some (existsb (SearchSpec.value_matches query) vs).
Proof.
  induction vs as [|v vs IH]; [reflexivity|].
  cbn [Query.metadataMatch_values SearchSpec.tested existsb].
  destruct (Js.toString v) as [s|] eqn:T.
  - rewrite (value_matches_text v s T).
    assert (N : SearchSpec.has_no_text v = false)
      by (unfold SearchSpec.has_no_text; now rewrite T).
    destruct (Js.includes (Js.toLowerCase s) (Js.toLowerCase query));
      cbn [existsb orb]; rewrite N; [reflexivity | exact IH].
  - rewrite (value_matches_no_text v T).
    assert (N : SearchSpec.has_no_text v = true)
      by (unfold SearchSpec.has_no_text; now rewrite T).
    cbn [existsb]. now rewrite N.
Qed.

Lemma scan_record_hit_of topicName results r :
  Query.scan_record query f topicName results r
  = if SearchSpec.passes f r && SearchSpec.faults query r then None
    else Some (results ++ SearchSpec.hit_of query f (topicName, r)).
Proof.
  unfold Query.scan_record, SearchSpec.hit_of, SearchSpec.score, Query.metadataMatch,
    SearchSpec.faults. cbn [fst snd].
  rewrite filtered_out_passes, metadataMatch_values_tested.
  destruct (SearchSpec.passes f r); cbn [negb andb]; [|now rewrite app_nil_r].
  destruct (existsb SearchSpec.has_no_text _); [reflexivity|].
  unfold Query.contentMatch, Query.contextMatch, SearchSpec.occurs_in, Js.truthy.
  destruct (Js.includes (Js.toLowerCase (MemRecord.content r)) (Js.toLowerCase query));
    [reflexivity|].
  destruct (negb (MemRecord.context r =? "")
            && Js.includes (Js.toLowerCase (MemRecord.context r)) (Js.toLowerCase query));
    [reflexivity|].
  cbn [orb].
  destruct (existsb _ _); [reflexivity | now rewrite app_nil_r].
Qed.

Lemma scan_records_hits topicName rs : forall results,
  Query.scan_records query f topicName rs results
  = if existsb (fun r => SearchSpec.passes f r && SearchSpec.faults query r) rs
    then None
    else Some (results
               ++ flat_map (SearchSpec.hit_of query f) (map (fun r => (topicName, r)) rs)).
Proof.
  induction rs as [|r rs IH]; intros results; cbn [Query.scan_records existsb map flat_map].
  - now rewrite app_nil_r.
  - rewrite scan_record_hit_of.
    destruct (SearchSpec.passes f r && SearchSpec.faults query r); [reflexivity|].
    cbn [orb]. rewrite IH.
    destruct (existsb _ rs); [reflexivity|]. now rewrite <- app_assoc.
Qed.

Lemma fails_cons topicName td (store : JsMap.t Topic.t) :
  SearchSpec.fails query f ((topicName, td) :: store)
  = existsb (fun r => SearchSpec.passes f r && SearchSpec.faults query r)
            (Topic.records td)
    || SearchSpec.fails query f store.
Proof.
  unfold SearchSpec.fails, SearchSpec.scan_order. cbn [flat_map fst snd].
  rewrite existsb_app. f_equal.
  induction (Topic.records td) as [|r rs IH]; [reflexivity|].
  cbn [map existsb snd]. now rewrite IH.
Qed.

Lemma scan_store_from store : forall results,
  Query.scan_store query f store results
  = if SearchSpec.fails query f store then None
    else Some (results ++ SearchSpec.hits query f store).
Proof.
  induction store as [|[n td] store IH]; intros results.
  - cbn. now rewrite app_nil_r.
  - cbn [Query.scan_store]. rewrite scan_records_hits, fails_cons.
    destruct (existsb _ (Topic.records td)); [reflexivity|]. cbn [orb].
    rewrite IH. destruct (SearchSpec.fails query f store); [reflexivity|].
    unfold SearchSpec.hits, SearchSpec.scan_order. cbn [flat_map fst snd].
    rewrite flat_map_app. now rewrite <- app_assoc.
Qed.

Lemma scan_store_hits store :
  Query.scan_store query f store []
  = if SearchSpec.fails query f store then None
    else Some (SearchSpec.hits query f store).
Proof. now rewrite scan_store_from. Qed.

Lemma hit_of_relevance e :
  Forall (fun h => Query.relevance h = 1 \/ Query.relevance h = 2
                   \/ Query.relevance h = 3)%Z
         (SearchSpec.hit_of query f e).
Proof.
  unfold SearchSpec.hit_of, SearchSpec.score.
  destruct (SearchSpec.passes f (snd e)); [|constructor].
  destruct (SearchSpec.occurs_in query (MemRecord.content (snd e)));
    [repeat constructor; simpl; tauto|].
  destruct (negb (MemRecord.context (snd e) =? "")
            && SearchSpec.occurs_in query (MemRecord.context (snd e)));
    [repeat constructor; simpl; tauto|].
  destruct (existsb _ _); repeat constructor; simpl; tauto.
Qed.

Lemma hits_relevance store :
  Forall (fun h => Query.relevance h = 1 \/ Query.relevance h = 2
                   \/ Query.relevance h = 3)%Z
         (SearchSpec.hits query f store).
Proof.
  unfold SearchSpec.hits. induction (SearchSpec.scan_order store) as [|e l IH]; simpl.
  - constructor.
  - apply Forall_app. split; [apply hit_of_relevance | exact IH].
Qed.

Lemma search_refines store limit :
  Query.search store query f limit = SearchSpec.search store query f limit.
Proof.
  unfold Query.search, SearchSpec.search, Js.truthy. rewrite negb_involutive.
  destruct (query =? ""); [reflexivity|].
  rewrite scan_store_hits.
  destruct (SearchSpec.fails query f store); [reflexivity|]. cbv zeta.
  rewrite (sort_length Query.relevance).
  rewrite (sort_three Query.relevance _ (hits_relevance store)).
  reflexivity.
Qed.

(** A value without text fails the test of its entry, unless an earlier
    value matches. *)
Lemma faults_values_iff vs :
  existsb SearchSpec.has_no_text (SearchSpec.tested query vs) = true <->
  exists pre v post,
    vs = pre ++ v :: post
    /\ Js.toString v = None
    /\ Forall (fun u => SearchSpec.value_matches query u = false) pre.
Proof.
  induction vs as [|u vs IH]; cbn [SearchSpec.tested existsb].
  - split; [discriminate|]. intros (pre & v & post & E & _). now destruct pre.
  - destruct (SearchSpec.value_matches query u) eqn:M.
    + assert (T : SearchSpec.has_no_text u = false).
      { unfold SearchSpec.has_no_text. destruct (Js.toString u) eqn:T; [reflexivity|].
        now rewrite (value_matches_no_text u T) in M. }
      cbn [existsb]. rewrite T. cbn [orb]. split; [discriminate|].
      intros (pre & v & post & E & Tv & F).
      destruct pre as [|u' pre]; cbn [app] in E; injection E as <- E.
      * unfold SearchSpec.has_no_text in T. now rewrite Tv in T.
      * inversion F; subst. congruence.
    + cbn [existsb]. rewrite orb_true_iff, IH. split.
      * intros [T | (pre & v & post & -> & Tv & F)].
        -- exists [], u, vs. split; [reflexivity|]. split; [|constructor].
           unfold SearchSpec.has_no_text in T. now destruct (Js.toString u).
        -- exists (u :: pre), v, post. split; [reflexivity|]. split; [exact Tv|].
           now constructor.
      * intros (pre & v & post & E & Tv & F).
        destruct pre as [|u' pre]; cbn [app] in E; injection E as <- E.
        -- left. unfold SearchSpec.has_no_text. now rewrite Tv.
        -- right. exists pre, v, post. split; [exact E|]. split; [exact Tv|].
           now inversion F.
Qed.

Lemma fails_iff store :
  SearchSpec.fails query f store = true <->
  exists topicName r,
    In (topicName, r) (SearchSpec.scan_order store)
    /\ SearchSpec.passes f r = true /\ SearchSpec.faults query r = true.
Proof.
  unfold SearchSpec.fails. rewrite existsb_exists. split.
  - intros ([n r] & I & E). apply andb_true_iff in E. now exists n, r.
  - intros (n & r & I & P & F). exists (n, r). split; [exact I|].
    cbn [snd]. now rewrite P, F.
Qed.

End SearchLoop.

(** The ranking of the specification is the stable descending order. *)
Lemma ranked_is_stable_descending (l : list Query.Hit) :
  Forall (fun h => Query.relevance h = 1 \/ Query.relevance h = 2
                   \/ Query.relevance h = 3)%Z l ->
  Permutation l (SearchSpec.ranked l)
  /\ descending Query.relevance (SearchSpec.ranked l)
  /\ forall k, SearchSpec.scored k (SearchSpec.ranked l) = SearchSpec.scored k l.
Proof.
  intros H. pose proof (sort_three Query.relevance l H) as E.
  change (keyed Query.relevance 3 l ++ keyed Query.relevance 2 l
          ++ keyed Query.relevance 1 l) with (SearchSpec.ranked l) in E.
  rewrite <- E. split; [apply sort_perm|]. split; [apply sort_descending|].
  intros k. apply sort_stable.
Qed.

Lemma in_scan_order (store : JsMap.t Topic.t) topicName td r :
  In (topicName, td) store -> In r (Topic.records td) ->
  In (topicName, r) (SearchSpec.scan_order store).
Proof.
  intros Ht Hr. unfold SearchSpec.scan_order. apply in_flat_map.
  exists (topicName, td). split; [exact Ht|]. simpl.
  apply in_map_iff. now exists r.
Qed.

(** A scalar always has a text. *)
Lemma toString_scalar (v : Js.value) : scalar v = true -> Js.toString v <> None.
Proof. destruct v as [|[]| | | |]; simpl; intros H; discriminate. Qed.

(** No value without text, no failure. *)
Lemma no_fault_without_raise (query : string) (r : MemRecord.t) :
  (forall v, In v (JsMap.values (MemRecord.metadata r)) -> Js.toString v <> None) ->
  SearchSpec.faults query r = false.
Proof.
  intros H. apply not_true_is_false. intros E. unfold SearchSpec.faults in E.
  apply faults_values_iff in E. destruct E as (pre & v & post & E & T & _).
  apply (H v); [|exact T]. rewrite E. apply in_elt.
Qed.

(** A value without text, reached before any value matched, makes the whole
    search fail. *)
Lemma search_fails_at (store : JsMap.t Topic.t) (query : string)
      (f : Query.ImportanceFilter) (limit : nat) topicName td r pre v post :
  query <> "" ->
  In (topicName, td) store -> In r (Topic.records td) ->
  Query.filtered_out f r = false ->
  JsMap.values (MemRecord.metadata r) = pre ++ v :: post ->
  Js.toString v = None ->
  Forall (fun u => SearchSpec.value_matches query u = false) pre ->
  Query.search store query f limit = Query.QueryFailed.
Proof.
  intros Hq Ht Hr Hf E T F. rewrite search_refines. unfold SearchSpec.search.
  destruct (String.eqb_spec query ""); [contradiction|].
  assert (X : SearchSpec.fails query f store = true).
  { apply fails_iff. exists topicName, r.
    split; [now apply (in_scan_order store topicName td)|]. split.
    - rewrite filtered_out_passes in Hf. now destruct (SearchSpec.passes f r).
    - unfold SearchSpec.faults. apply faults_values_iff. now exists pre, v, post. }
  now rewrite X.
Qed.

(** *** The single-file server against the modular one *)

Lemma legacy_metadataMatch_some (query : string) (vs : list Js.value) (b : bool) :
  Legacy.metadataMatch_values query vs = Some b ->
  Query.metadataMatch_values query vs = Some b.
Proof.
  induction vs as [|v vs IH]; simpl; [trivial|].
  destruct v; simpl; try discriminate.
  destruct (Js.includes (Js.toLowerCase s) (Js.toLowerCase query)); [trivial|].
  exact IH.
Qed.

Lemma legacy_metadataMatch_none (query : string) (vs : list Js.value) :
  Legacy.metadataMatch_values query vs = None <->
  exists pre v post,
    vs = pre ++ v :: post
    /\ is_text v = false
    /\ Forall (fun u => exists s, u = Js.JStr s
                                  /\ Js.includes (Js.toLowerCase s) (Js.toLowerCase query)
                                     = false) pre.
Proof.
  induction vs as [|v vs IH]; simpl.
  - split; [discriminate|]. intros (pre & v & post & E & _). now destruct pre.
  - destruct (is_text v) eqn:T.
    + destruct v; try discriminate. simpl.
      destruct (Js.includes (Js.toLowerCase s) (Js.toLowerCase query)) eqn:I.
      * split; [discriminate|]. intros (pre & v & post & E & Tv & F).
        destruct pre as [|u pre]; simpl in E; injection E as <- E; [discriminate|].
        inversion F as [|? ? (s' & Es & Is) _]; subst. injection Es as <-. congruence.
      * rewrite IH. split.
        -- intros (pre & v & post & -> & Tv & F).
           exists (Js.JStr s :: pre), v, post. split; [reflexivity|]. split; [exact Tv|].
           constructor; [eauto | exact F].
        -- intros (pre & v & post & E & Tv & F).
           destruct pre as [|u pre]; simpl in E; injection E as <- E; [discriminate|].
           exists pre, v, post. split; [exact E|]. split; [exact Tv|].
           now inversion F.
    + assert (N : Js.method_toLowerCase v = None) by (destruct v; try reflexivity; discriminate).
      rewrite N. split; [intros _ | reflexivity].
      exists [], v, vs. split; [reflexivity|]. split; [exact T | constructor].
Qed.

Lemma legacy_metadataMatch_text (query : string) (vs : list Js.value) :
  (forall v, In v vs -> exists s, v = Js.JStr s) ->
  Legacy.metadataMatch_values query vs <> None.
Proof.
  intros H E. apply legacy_metadataMatch_none in E.
  destruct E as (pre & v & post & -> & T & _).
  destruct (H v) as [s ->]; [apply in_elt | discriminate].
Qed.

Lemma legacy_scan_record_eq query f topicName results r :
  Legacy.scan_record query f topicName results r
  = if raises query f r then None
    else Query.scan_record query f topicName results r.
Proof.
  unfold Legacy.scan_record, Query.scan_record, raises, Query.metadataMatch.
  destruct (Query.filtered_out f r); [reflexivity|]. cbn [negb andb].
  destruct (Legacy.metadataMatch_values query (JsMap.values (MemRecord.metadata r)))
    as [m|] eqn:E; [|reflexivity].
  now rewrite (legacy_metadataMatch_some _ _ _ E).
Qed.

Lemma legacy_scan_records_eq query f topicName rs : forall results,
  Legacy.scan_records query f topicName rs results
  = if existsb (raises query f) rs then None
    else Query.scan_records query f topicName rs results.
Proof.
  induction rs as [|r rs IH]; intros results; simpl; [reflexivity|].
  rewrite legacy_scan_record_eq. destruct (raises query f r); [reflexivity|]. cbn [orb].
  destruct (Query.scan_record query f topicName results r) as [results'|].
  - apply IH.
  - now destruct (existsb (raises query f) rs).
Qed.

Lemma legacy_scan_store_eq query f store : forall results,
  Legacy.scan_store query f store results
  = if existsb (fun e => existsb (raises query f) (Topic.records (snd e))) store
    then None
    else Query.scan_store query f store results.
Proof.
  induction store as [|[n td] store IH]; intros results; simpl; [reflexivity|].
  rewrite legacy_scan_records_eq.
  destruct (existsb (raises query f) (Topic.records td)); [reflexivity|]. cbn [orb].
  destruct (Query.scan_records query f n (Topic.records td) results) as [results'|].
  - apply IH.
  - now destruct (existsb _ store).
Qed.

Lemma legacy_search_eq (store : JsMap.t Topic.t) query f limit :
  Legacy.search store query f limit
  = (if query =? "" then Query.QueryEmpty
     else if existsb (fun e => existsb (raises query f) (Topic.records (snd e))) store
          then Query.QueryFailed
          else Query.search store query f limit).
Proof.
  unfold Legacy.search, Query.search, Js.truthy.
  rewrite negb_involutive. destruct (query =? ""); [reflexivity|].
  rewrite legacy_scan_store_eq.
  destruct (existsb _ store); reflexivity.
Qed.

Lemma text_only_never_raises store query f :
  text_only store ->
  existsb (fun e => existsb (raises query f) (Topic.records (snd e))) store = false.
Proof.
  intros H. apply not_true_is_false. intros E.
  apply existsb_exists in E. destruct E as ([n td] & I & E).
  apply existsb_exists in E. destruct E as (r & Ir & E).
  unfold raises in E. apply andb_true_iff in E. destruct E as [_ E].
  destruct (Legacy.metadataMatch_values query (JsMap.values (MemRecord.metadata r)))
    eqn:L; [discriminate|].
  revert L. apply legacy_metadataMatch_text.
  intros v Iv. now apply (H n td r v).
Qed.

(** With text-only metadata the single-file server searches like the
    modular one. *)
Lemma legacy_search_text (store : JsMap.t Topic.t) query f limit :
  text_only store ->
  Legacy.search store query f limit = Query.search store query f limit.
Proof.
  intros H. rewrite legacy_search_eq, (text_only_never_raises store query f H).
  unfold Query.search, Js.truthy. rewrite negb_involutive.
  now destruct (query =? "").
Qed.

(** A value that is not a string, reached before any string matched, makes
    the search of the single-file server fail. *)
Lemma legacy_search_fails_at (store : JsMap.t Topic.t) (query : string)
      (f : Query.ImportanceFilter) (limit : nat) topicName td r pre v post :
  query <> "" ->
  In (topicName, td) store -> In r (Topic.records td) ->
  Query.filtered_out f r = false ->
  JsMap.values (MemRecord.metadata r) = pre ++ v :: post ->
  is_text v = false ->
  Forall (fun u => SearchSpec.value_matches query u = false) pre ->
  Legacy.search store query f limit = Query.QueryFailed.
Proof.
  intros Hq Ht Hr Hf E T F. rewrite legacy_search_eq.
  destruct (String.eqb_spec query ""); [contradiction|].
  assert (L : Legacy.metadataMatch_values query (pre ++ v :: post) = None).
  { clear E. induction pre as [|u pre IH]; cbn [app Legacy.metadataMatch_values].
    - destruct v; try reflexivity; discriminate.
    - inversion F as [|? ? M F']; subst.
      destruct u; try reflexivity. cbn [Js.method_toLowerCase].
      rewrite (value_matches_text query (Js.JStr s) s eq_refl) in M. rewrite M.
      now apply IH. }
  assert (X : existsb (fun e => existsb (raises query f) (Topic.records (snd e))) store
              = true).
  { apply existsb_exists. exists (topicName, td). split; [exact Ht|].
    apply existsb_exists. exists r. split; [exact Hr|].
    unfold raises. now rewrite Hf, E, L. }
  now rewrite X.
Qed.

(* ===================================================================== *)
(** ** The properties of the specification *)
(* ===================================================================== *)

(** *** Search *)




(** The example of the specification: a query in lower case finds content in
    upper case, with relevance 3. *)
Example search_case_mismatch :
  let w := Sample.after (Manage.create_record "T" "some X here" Medium "" [])
             (Sample.after (Manage.create_topic "T" "" []) Sample.empty) in
  match Query.search (memoryStore w) "x" Query.AllImportance 20 with
  | Query.SearchResults 1 [h] None =>
      Query.relevance h = 3%Z /\ Query.hit_topic h = "T"
      /\ MemRecord.content (Query.hit_record h) = "some X here"
  | _ => False
  end.
Proof. vm_compute. repeat split. Qed.

(** The scenario of the specification: over topic Notes with the records
    Hello World and second, the query hello has exactly one result, in
    Notes. *)
Example search_hello_scenario :
  match Query.search (memoryStore Sample.notes) "hello" Query.AllImportance 20 with
  | Query.SearchResults 1 [h] None =>
      Query.hit_topic h = "Notes" /\ Query.relevance h = 3%Z
      /\ MemRecord.content (Query.hit_record h) = "Hello World"
  | _ => False
  end.
Proof. vm_compute. repeat split. Qed.

(** *** Errors and previews *)

(** C10.  Whenever memory_manage answers with an error or a preview (empty
    content, empty record id, topic absent, record id absent, duplicate topic
    name, delete without confirmation, unknown action), the whole state is
    what it was: the store, the five statistics with access count and
    last-access time, and the clock and id counters.  And the statistics
    differ after a call only if the store differs. *)
Theorem C10_errors_change_nothing (a : Manage.Args) (w : World) :
  (is_error_or_preview (fst (Manage.memory_manage a w)) = true ->
   snd (Manage.memory_manage a w) = w)
  /\ (memoryStats (snd (Manage.memory_manage a w)) <> memoryStats w ->
      memoryStore (snd (Manage.memory_manage a w)) <> memoryStore w).
Proof.
  split; [apply memory_manage_frame | apply memory_manage_stats].
Qed.

Lemma C10_witness :
  snd (Manage.memory_manage (call "delete_topic" "T") Sample.one) = Sample.one
  /\ snd (Manage.memory_manage (call "create_record" "T") Sample.one) = Sample.one
  /\ memoryStore (snd (Manage.memory_manage (call "create_topic" "U") Sample.one))
     <> memoryStore Sample.one.
Proof.
  split; [|split].
  - apply (proj1 (C10_errors_change_nothing (call "delete_topic" "T") Sample.one)).
    vm_compute. reflexivity.
  - apply (proj1 (C10_errors_change_nothing (call "create_record" "T") Sample.one)).
    vm_compute. reflexivity.
  - apply (proj2 (C10_errors_change_nothing (call "create_topic" "U") Sample.one)).
    vm_compute. discriminate.
Defined.

(** *** Topics *)

(** C5.  Creating a topic whose name is present answers AlreadyExists with
    the description, tags and record count of the existing topic and changes
    nothing.  Creating a fresh name answers with a new topic that has the
    given name, description and tags and no records, puts it at the end of the
    store and records an add_topic event (one more topic, one more access,
    the last-access time read from the clock).  After creating the same name
    twice the second answer is AlreadyExists and the store holds the name
    exactly once. *)
Theorem C5_create_topic (w : World) (topic description : string) (tags : list string) :
  (forall existing,
      JsMap.get topic (memoryStore w) = Some existing ->
      Manage.create_topic topic description tags w
      = (Manage.TopicAlreadyExists (Topic.description existing) (Topic.tags existing)
                                   (length (Topic.records existing)), w))
  /\ (JsMap.get topic (memoryStore w) = None ->
      exists newTopic w',
        Manage.create_topic topic description tags w = (Manage.TopicCreated newTopic, w')
        /\ Topic.name newTopic = topic
        /\ Topic.description newTopic = description
        /\ Topic.tags newTopic = tags
        /\ Topic.records newTopic = []
        /\ memoryStore w' = memoryStore w ++ [(topic, newTopic)]
        /\ memoryStats w'
           = stats_after "add_topic" None (clock w (2 + clock_reads w)) (memoryStats w)
        /\ Stats.totalTopics (memoryStats w') = (Stats.totalTopics (memoryStats w) + 1)%Z
        /\ Stats.totalRecords (memoryStats w') = Stats.totalRecords (memoryStats w)
        /\ Stats.totalMemorySize (memoryStats w') = Stats.totalMemorySize (memoryStats w)
        /\ Stats.accessCount (memoryStats w') = (Stats.accessCount (memoryStats w) + 1)%Z)
  /\ (JsMap.wf (memoryStore w) ->
      forall description' tags',
        let w1 := snd (Manage.create_topic topic description tags w) in
        (exists d t n, fst (Manage.create_topic topic description' tags' w1)
                       = Manage.TopicAlreadyExists d t n)
        /\ snd (Manage.create_topic topic description' tags' w1) = w1
        /\ count_occ string_dec (JsMap.keys (memoryStore w1)) topic = 1).
Proof.
  split; [|split].
  - intros existing H. now apply create_topic_present.
  - intros H. eexists. eexists. rewrite (create_topic_absent w _ _ _ H).
    split; [reflexivity|]. repeat split.
  - intros Hwf description' tags' w1.
    assert (P : exists e, JsMap.get topic (memoryStore w1) = Some e
                          /\ JsMap.wf (memoryStore w1)).
    { subst w1. destruct (JsMap.get topic (memoryStore w)) as [e|] eqn:H.
      - rewrite (create_topic_present w _ _ _ _ H). simpl. eauto.
      - rewrite (create_topic_absent w _ _ _ H). simpl.
        rewrite <- (JsMapFacts.set_absent _ _ _ H).
        rewrite JsMapFacts.get_set_same. split with (created_topic w topic description tags).
        split; [reflexivity | now apply JsMapFacts.wf_set]. }
    destruct P as (e & He & Hwf1).
    rewrite (create_topic_present w1 _ _ _ _ He). simpl.
    split; [eauto|]. split; [reflexivity|].
    now apply (count_occ_keys_wf _ _ e).
Qed.

Lemma C5_witness :
  (exists d t n,
      fst (Manage.create_topic "T" "again" ["x"] Sample.one)
      = Manage.TopicAlreadyExists d t n)
  /\ snd (Manage.create_topic "T" "again" ["x"] Sample.one) = Sample.one
  /\ (exists newTopic w',
         Manage.create_topic "U" "d" [] Sample.one = (Manage.TopicCreated newTopic, w')
         /\ Topic.records newTopic = []
         /\ memoryStore w' = memoryStore Sample.one ++ [("U", newTopic)])
  /\ count_occ string_dec
       (JsMap.keys (memoryStore (snd (Manage.create_topic "U" "d" [] Sample.one)))) "U" = 1.
Proof.
  assert (G : exists e, JsMap.get "T" (memoryStore Sample.one) = Some e)
    by (vm_compute; eauto).
  destruct G as [e G].
  assert (N : JsMap.get "U" (memoryStore Sample.one) = None) by (vm_compute; reflexivity).
  assert (Hwf : JsMap.wf (memoryStore Sample.one)).
  { vm_compute. constructor; [intros [] | constructor]. }
  pose proof (C5_create_topic Sample.one "T" "again" ["x"]) as (P & _ & _).
  pose proof (C5_create_topic Sample.one "U" "d" []) as (_ & F & D).
  rewrite (P e G). simpl. split; [eauto|]. split; [reflexivity|]. split.
  - destruct (F N) as (nt & w' & E & _ & _ & _ & R & St & _). eauto.
  - apply (D Hwf "d" []).
Defined.

(** C8.  update_topic answers NotFound and changes nothing when the topic is
    absent.  On an existing topic it overwrites the description only when the
    given one is not empty and the tags only when the given list is not
    empty, so that neither can be cleared; id, name, records and creation
    time stay; updatedAt becomes the clock reading of the call whatever the
    arguments; the other topics and the statistics stay. *)
Theorem C8_update_topic (w : World) (topic description : string) (tags : list string) :
  (JsMap.get topic (memoryStore w) = None ->
   Manage.update_topic topic description tags w = (Manage.TopicNotFound, w))
  /\ (forall old,
         JsMap.get topic (memoryStore w) = Some old ->
         exists new w',
           Manage.update_topic topic description tags w = (Manage.TopicUpdated new, w')
           /\ memoryStore w' = JsMap.set topic new (memoryStore w)
           /\ JsMap.get topic (memoryStore w') = Some new
           /\ (forall other, other <> topic ->
                 JsMap.get other (memoryStore w') = JsMap.get other (memoryStore w))
           /\ JsMap.keys (memoryStore w') = JsMap.keys (memoryStore w)
           /\ memoryStats w' = memoryStats w
           /\ Topic.description new
              = (if description =? "" then Topic.description old else description)
           /\ Topic.tags new = (match tags with [] => Topic.tags old | _ :: _ => tags end)
           /\ Topic.id new = Topic.id old
           /\ Topic.name new = Topic.name old
           /\ Topic.records new = Topic.records old
           /\ Topic.createdAt new = Topic.createdAt old
           /\ Topic.updatedAt new = clock w (clock_reads w)
           /\ (Topic.description old <> "" -> Topic.description new <> "")
           /\ (Topic.tags old <> [] -> Topic.tags new <> [])).
Proof.
  split.
  - apply update_topic_absent.
  - intros old H. eexists. eexists. rewrite (update_topic_present w _ _ _ _ H).
    split; [reflexivity|]. simpl.
    split; [reflexivity|].
    split; [apply JsMapFacts.get_set_same|].
    split; [intros other Hne; now apply JsMapFacts.get_set_other|].
    split; [now apply (JsMapFacts.keys_set_present _ _ _ old)|].
    do 8 (split; [reflexivity|]).
    split.
    + destruct (String.eqb_spec description ""); congruence.
    + destruct tags; [tauto | discriminate].
Qed.

Lemma C8_witness :
  (exists new w',
      Manage.update_topic "T" "" [] Sample.one = (Manage.TopicUpdated new, w')
      /\ Topic.updatedAt new = clock Sample.one (clock_reads Sample.one)
      /\ memoryStats w' = memoryStats Sample.one)
  /\ Manage.update_topic "U" "d" ["x"] Sample.one = (Manage.TopicNotFound, Sample.one).
Proof.
  pose proof (C8_update_topic Sample.one "T" "" []) as (_ & P).
  pose proof (C8_update_topic Sample.one "U" "d" ["x"]) as (A & _).
  assert (G : exists e, JsMap.get "T" (memoryStore Sample.one) = Some e)
    by (vm_compute; eauto).
  destruct G as [e G].
  split.
  - destruct (P e G) as (new & w' & E & _ & _ & _ & _ & St & _ & _ & _ & _ & _ & _ & U & _).
    exists new, w'. auto.
  - apply A. vm_compute. reflexivity.
Defined.

(** *** Records *)

(** C6.  create_record answers with the validation error when the content is
    empty, and with NotFound when the content is given and the topic is
    absent; both leave the state alone.  Otherwise it builds a record from
    its arguments, appends it to the end of the records of the topic, sets
    the topic's updatedAt to a clock reading of the call, and records an
    add_record event: one more record, the serialized size of the record
    added to the total size, one more access. *)
Theorem C6_create_record (w : World) (topic content : string) (importance : Importance)
        (context : string) (metadata : JsMap.t Js.value) :
  (content = "" ->
   Manage.create_record topic content importance context metadata w
   = (Manage.ContentEmpty, w))
  /\ (content <> "" -> JsMap.get topic (memoryStore w) = None ->
      Manage.create_record topic content importance context metadata w
      = (Manage.TopicNotFound, w))
  /\ (content <> "" ->
      forall old, JsMap.get topic (memoryStore w) = Some old ->
      exists newRecord new w',
        Manage.create_record topic content importance context metadata w
        = (Manage.RecordCreated newRecord (S (length (Topic.records old))), w')
        /\ MemRecord.content newRecord = content
        /\ MemRecord.importance newRecord = importance
        /\ MemRecord.context newRecord = context
        /\ MemRecord.metadata newRecord = metadata
        /\ memoryStore w' = JsMap.set topic new (memoryStore w)
        /\ JsMap.get topic (memoryStore w') = Some new
        /\ (forall other, other <> topic ->
              JsMap.get other (memoryStore w') = JsMap.get other (memoryStore w))
        /\ Topic.records new = Topic.records old ++ [newRecord]
        /\ Topic.updatedAt new = clock w (2 + clock_reads w)
        /\ Topic.id new = Topic.id old
        /\ Topic.name new = Topic.name old
        /\ Topic.description new = Topic.description old
        /\ Topic.tags new = Topic.tags old
        /\ Topic.createdAt new = Topic.createdAt old
        /\ memoryStats w'
           = stats_after "add_record" (Some newRecord) (clock w (3 + clock_reads w))
                         (memoryStats w)
        /\ Stats.totalRecords (memoryStats w')
           = (Stats.totalRecords (memoryStats w) + 1)%Z
        /\ Stats.totalMemorySize (memoryStats w')
           = (Stats.totalMemorySize (memoryStats w) + calculateRecordSize newRecord)%Z
        /\ Stats.totalTopics (memoryStats w') = Stats.totalTopics (memoryStats w)
        /\ Stats.accessCount (memoryStats w')
           = (Stats.accessCount (memoryStats w) + 1)%Z).
Proof.
  split; [|split].
  - intros ->. reflexivity.
  - apply create_record_absent.
  - intros Hc old H. eexists. eexists. eexists.
    rewrite (create_record_present w _ _ _ _ _ _ Hc H).
    split; [reflexivity|]. simpl.
    do 4 (split; [reflexivity|]).
    split; [reflexivity|].
    split; [apply JsMapFacts.get_set_same|].
    split; [intros other Hne; now apply JsMapFacts.get_set_other|].
    repeat split.
Qed.

Lemma C6_witness :
  Manage.create_record "T" "" High "c" [] Sample.one = (Manage.ContentEmpty, Sample.one)
  /\ Manage.create_record "U" "text" High "c" [] Sample.one
     = (Manage.TopicNotFound, Sample.one)
  /\ (exists newRecord w',
         Manage.create_record "T" "text" High "c" [] Sample.one
         = (Manage.RecordCreated newRecord 2, w')
         /\ Stats.totalRecords (memoryStats w') = 2%Z).
Proof.
  pose proof (C6_create_record Sample.one "T" "" High "c" []) as (A & _ & _).
  pose proof (C6_create_record Sample.one "U" "text" High "c" []) as (_ & B & _).
  pose proof (C6_create_record Sample.one "T" "text" High "c" []) as (_ & _ & C).
  split; [apply A; reflexivity|].
  split; [apply B; [discriminate | vm_compute; reflexivity]|].
  assert (G : exists e, JsMap.get "T" (memoryStore Sample.one) = Some e)
    by (vm_compute; eauto).
  destruct G as [e G].
  assert (L : forall t, JsMap.get "T" (memoryStore Sample.one) = Some t ->
                        length (Topic.records t) = 1).
  { vm_compute. intros t [= <-]. reflexivity. }
  destruct (C ltac:(discriminate) e G) as (r & new & w' & E & _ & _ & _ & _ & _ & _ & _ & _
                                           & _ & _ & _ & _ & _ & _ & _ & R & _).
  rewrite (L e G) in E.
  exists r, w'. split; [exact E|]. rewrite R. vm_compute. reflexivity.
Defined.

(** C7.  On an existing topic and record, update_record overwrites content
    and context only when the given text is not empty, importance only when
    the given one is not medium (so that medium cannot be set), and the
    metadata only when the given object is not empty, the result then being
    the old object with the given properties written over it (given keys
    win, the other keys keep their values).  The record keeps its id, its
    creation time and its place among the records of the topic; its
    updatedAt and the topic's updatedAt become clock readings of the call.
    The other topics and the statistics stay. *)
Theorem C7_update_record (w : World) (topic recordId content : string)
        (importance : Importance) (context : string) (metadata : JsMap.t Js.value)
        (td : Topic.t) (old : MemRecord.t) :
  recordId <> "" ->
  JsMap.get topic (memoryStore w) = Some td ->
  Js.find (Manage.has_id recordId) (Topic.records td) = Some old ->
  exists new td' w',
    Manage.update_record topic recordId content importance context metadata w
    = (Manage.RecordUpdated new, w')
    /\ MemRecord.content new
       = (if content =? "" then MemRecord.content old else content)
    /\ MemRecord.context new
       = (if context =? "" then MemRecord.context old else context)
    /\ MemRecord.importance new
       = (match importance with Medium => MemRecord.importance old | _ => importance end)
    /\ MemRecord.metadata new
       = (match metadata with
          | [] => MemRecord.metadata old
          | _ :: _ => JsMap.spread (MemRecord.metadata old) metadata
          end)
    /\ (JsMap.wf (MemRecord.metadata old) -> JsMap.wf metadata ->
        forall k, JsMap.get k (MemRecord.metadata new)
                  = match JsMap.get k metadata with
                    | Some v => Some v
                    | None => JsMap.get k (MemRecord.metadata old)
                    end)
    /\ MemRecord.id new = MemRecord.id old
    /\ MemRecord.createdAt new = MemRecord.createdAt old
    /\ MemRecord.updatedAt new = clock w (clock_reads w)
    /\ memoryStore w' = JsMap.set topic td' (memoryStore w)
    /\ JsMap.get topic (memoryStore w') = Some td'
    /\ (forall other, other <> topic ->
          JsMap.get other (memoryStore w') = JsMap.get other (memoryStore w))
    /\ (exists before after,
           Topic.records td = before ++ old :: after
           /\ Topic.records td' = before ++ new :: after)
    /\ Topic.updatedAt td' = clock w (1 + clock_reads w)
    /\ Topic.id td' = Topic.id td
    /\ Topic.name td' = Topic.name td
    /\ Topic.description td' = Topic.description td
    /\ Topic.tags td' = Topic.tags td
    /\ Topic.createdAt td' = Topic.createdAt td
    /\ memoryStats w' = memoryStats w.
Proof.
  intros Hr H F. eexists. eexists. eexists.
  rewrite (update_record_present w _ _ _ _ _ _ _ _ Hr H F).
  split; [reflexivity|]. simpl.
  do 4 (split; [reflexivity|]).
  split.
  { intros Ho Hm k. destruct metadata as [|kv m'] eqn:Em.
    - reflexivity.
    - rewrite <- Em in *. now apply get_spread. }
  do 4 (split; [reflexivity|]).
  split; [apply JsMapFacts.get_set_same|].
  split; [intros other Hne; now apply JsMapFacts.get_set_other|].
  split.
  { destruct (replace_first_split (Manage.has_id recordId)
                (updated_record w content importance context metadata old) _ _ F)
      as (b & a & E1 & E2 & _).
    exists b, a. split; [exact E1 | exact E2]. }
  repeat split.
Qed.

Lemma C7_witness :
  exists new w',
    Manage.update_record "Notes" "id1" "" Medium "about"
                         [("n", Js.JBool true); ("k", Js.JNull)] Sample.notes
    = (Manage.RecordUpdated new, w')
    /\ MemRecord.content new = "Hello World"
    /\ MemRecord.importance new = High
    /\ MemRecord.context new = "about"
    /\ JsMap.get "n" (MemRecord.metadata new) = Some (Js.JBool true)
    /\ JsMap.get "k" (MemRecord.metadata new) = Some Js.JNull.
Proof.
  assert (G : exists td old,
             JsMap.get "Notes" (memoryStore Sample.notes) = Some td
             /\ Js.find (Manage.has_id "id1") (Topic.records td) = Some old
             /\ MemRecord.content old = "Hello World"
             /\ MemRecord.importance old = High
             /\ JsMap.wf (MemRecord.metadata old)).
  { vm_compute. eexists. eexists. split; [reflexivity|]. split; [reflexivity|].
    repeat split. constructor; [intros [] | constructor]. }
  destruct G as (td & old & G & F & Co & Im & Wo).
  destruct (C7_update_record Sample.notes "Notes" "id1" "" Medium "about"
              [("n", Js.JBool true); ("k", Js.JNull)] td old
              ltac:(discriminate) G F)
    as (new & td' & w' & E & C1 & C2 & C3 & _ & M & _).
  exists new, w'. split; [exact E|].
  assert (Wm : JsMap.wf [("n", Js.JBool true); ("k", Js.JNull)]).
  { repeat constructor; simpl; intuition discriminate. }
  rewrite C1, C2, C3, Co, Im. rewrite !(M Wo Wm).
  repeat split.
Defined.

(** *** Viewing a topic *)

(** C9, as the code has it.  view_topic sorted by importance answers with the
    validation error for the empty name, and with NotFound for any other name
    that is absent.  For an existing topic it answers with the records of high
    importance, then those of medium, then those of low importance, each
    group in insertion order, cut at [limit], together with the number of
    records of the topic and, when that exceeds [limit], the number left
    out. *)
Theorem C9_view_topic_by_importance (store : JsMap.t Topic.t) (topic : string)
        (limit : nat) :
  (topic = "" ->
   Query.view_topic store topic Query.ByImportance limit = Query.TopicNameEmpty)
  /\ (topic <> "" -> JsMap.get topic store = None ->
      Query.view_topic store topic Query.ByImportance limit = Query.TopicNotFound)
  /\ (topic <> "" ->
      forall td, JsMap.get topic store = Some td ->
      let rs := Topic.records td in
      Query.view_topic store topic Query.ByImportance limit
      = Query.TopicView td
          (firstn limit (of_importance High rs ++ of_importance Medium rs
                         ++ of_importance Low rs))
          (length rs)
          (if (limit <? length rs)%nat then Some (length rs - limit) else None)).
Proof.
  split; [|split].
  - intros ->. reflexivity.
  - intros Hn H. unfold Query.view_topic. apply truthy_true_iff in Hn.
    rewrite Hn, H. reflexivity.
  - intros Hn td H rs. unfold Query.view_topic. apply truthy_true_iff in Hn.
    rewrite Hn, H. cbv zeta. cbn [negb]. rewrite sort_by_importance. reflexivity.
Qed.

Lemma C9_witness :
  Query.view_topic (memoryStore Sample.notes) "" Query.ByImportance 10
  = Query.TopicNameEmpty
  /\ Query.view_topic (memoryStore Sample.notes) "Other" Query.ByImportance 10
     = Query.TopicNotFound
  /\ (exists td,
         JsMap.get "Notes" (memoryStore Sample.notes) = Some td
         /\ Query.view_topic (memoryStore Sample.notes) "Notes" Query.ByImportance 1
            = Query.TopicView td
                (firstn 1 (of_importance High (Topic.records td)
                           ++ of_importance Medium (Topic.records td)
                           ++ of_importance Low (Topic.records td)))
                (length (Topic.records td))
                (if (1 <? length (Topic.records td))%nat
                 then Some (length (Topic.records td) - 1) else None)).
Proof.
  pose proof (C9_view_topic_by_importance (memoryStore Sample.notes) "" 10) as (A & _).
  pose proof (C9_view_topic_by_importance (memoryStore Sample.notes) "Other" 10)
    as (_ & B & _).
  pose proof (C9_view_topic_by_importance (memoryStore Sample.notes) "Notes" 1)
    as (_ & _ & C).
  split; [apply A; reflexivity|].
  split; [apply B; [discriminate | vm_compute; reflexivity]|].
  assert (G : exists td, JsMap.get "Notes" (memoryStore Sample.notes) = Some td)
    by (vm_compute; eauto).
  destruct G as [td G]. exists td. split; [exact G|].
  apply C; [discriminate | exact G].
Defined.

(** The empty name is absent from the store, and the answer is not NotFound. *)
Lemma C9_counterexample :
  JsMap.get "" (memoryStore Sample.notes) = None
  /\ Query.view_topic (memoryStore Sample.notes) "" Query.ByImportance 10
     <> Query.TopicNotFound.
Proof. split; [vm_compute; reflexivity | vm_compute; discriminate]. Qed.

(** The scenario of the specification: the high record comes first. *)
Example view_notes_by_importance :
  match Query.view_topic (memoryStore Sample.notes) "Notes" Query.ByImportance 10 with
  | Query.TopicView _ shown total rest =>
      map MemRecord.content shown = ["Hello World"; "second"] /\ total = 2 /\ rest = None
  | _ => False
  end.
Proof. vm_compute. repeat split. Qed.

(** Ties keep their insertion order: low a, high b, medium c, high d, low e
    come out as b, d, c, a, e; with limit 4 one record is left out. *)
Example view_mixed_by_importance :
  match Query.view_topic (memoryStore Sample.mixed) "Mixed" Query.ByImportance 4 with
  | Query.TopicView _ shown total rest =>
      map MemRecord.content shown = ["b"; "d"; "c"; "a"] /\ total = 5 /\ rest = Some 1
  | _ => False
  end.
Proof. vm_compute. repeat split. Qed.

(** *** Metadata values in the search *)

(** C3.  There are stores with an entry whose metadata has a value that is
    not a string on which the search ends with the internal failure of the
    catch, raised by the comparison against that value.  Whenever a scanned
    entry that the importance filter lets through has a metadata value that
    is not a string, with no value before it whose text contains the query:
    - the search of the single-file server fails, whatever the value (a
      number and a boolean as well), because it calls [value.toLowerCase()]
      on the value itself, without turning it into text;
    - the search of the modular server, which compares [String(value)],
      fails when [String(value)] raises, that is, when the value has no
      text. *)
Theorem C3_search_raises_on_metadata (store : JsMap.t Topic.t) (query : string)
        (f : Query.ImportanceFilter) (limit : nat)
        (topicName : string) (td : Topic.t) (r : MemRecord.t)
        (pre : list Js.value) (v : Js.value) (post : list Js.value) :
  query <> "" ->
  In (topicName, td) store ->
  In r (Topic.records td) ->
  Query.filtered_out f r = false ->
  JsMap.values (MemRecord.metadata r) = pre ++ v :: post ->
  is_text v = false ->
  Forall (fun u => SearchSpec.value_matches query u = false) pre ->
  Legacy.search store query f limit = Query.QueryFailed
  /\ (Js.toString v = None ->
      Query.search store query f limit = Query.QueryFailed).
Proof.
  intros Hq Ht Hr Hf E T F. split.
  - now apply (legacy_search_fails_at store query f limit topicName td r pre v post).
  - intros N.
    now apply (search_fails_at store query f limit topicName td r pre v post).
Qed.

Lemma C3_witness :
  Legacy.search (memoryStore Sample.notes) "42" Query.AllImportance 20
  = Query.QueryFailed
  /\ Legacy.search (memoryStore Sample.odd) "x" Query.AllImportance 20
     = Query.QueryFailed
  /\ Query.search (memoryStore Sample.odd) "x" Query.AllImportance 20
     = Query.QueryFailed.
Proof.
  assert (G : exists td r,
             In ("Notes", td) (memoryStore Sample.notes)
             /\ In r (Topic.records td)
             /\ JsMap.values (MemRecord.metadata r) = [] ++ Js.JNum 42 eq_refl :: []).
  { vm_compute. eexists. eexists. split; [left; reflexivity|].
    split; [left; reflexivity | reflexivity]. }
  destruct G as (td & r & Ht & Hr & Hv).
  assert (G' : exists td' r',
             In ("T", td') (memoryStore Sample.odd)
             /\ In r' (Topic.records td')
             /\ JsMap.values (MemRecord.metadata r')
                = [] ++ Js.JObj [("toString", Js.JNum 1 eq_refl)] :: []).
  { vm_compute. eexists. eexists. split; [left; reflexivity|].
    split; [left; reflexivity | reflexivity]. }
  destruct G' as (td' & r' & Ht' & Hr' & Hv').
  split.
  - exact (proj1 (C3_search_raises_on_metadata
                    (memoryStore Sample.notes) "42" Query.AllImportance 20
                    "Notes" td r [] (Js.JNum 42 eq_refl) []
                    ltac:(discriminate) Ht Hr eq_refl Hv eq_refl (Forall_nil _))).
  - destruct (C3_search_raises_on_metadata
                (memoryStore Sample.odd) "x" Query.AllImportance 20
                "T" td' r' [] (Js.JObj [("toString", Js.JNum 1 eq_refl)]) []
                ltac:(discriminate) Ht' Hr' eq_refl Hv' eq_refl (Forall_nil _))
      as [L Q].
    split; [exact L | exact (Q eq_refl)].
Defined.

(** In the modular server a metadata value that is null, a boolean, a number
    or a string always has a text: a store with such values only never makes
    the search fail. *)
Lemma search_coerces_scalars (store : JsMap.t Topic.t) (query : string)
      (f : Query.ImportanceFilter) (limit : nat) :
  (forall topicName r v,
      In (topicName, r) (SearchSpec.scan_order store) ->
      In v (JsMap.values (MemRecord.metadata r)) -> scalar v = true) ->
  Query.search store query f limit <> Query.QueryFailed.
Proof.
  intros H. rewrite search_refines. unfold SearchSpec.search.
  destruct (query =? ""); [discriminate|].
  destruct (SearchSpec.fails query f store) eqn:X; [|discriminate].
  apply fails_iff in X. destruct X as (n & r & I & _ & F).
  rewrite (no_fault_without_raise query r) in F; [discriminate|].
  intros v Iv. apply toString_scalar. now apply (H n r v).
Qed.

(** A number in the metadata: the modular search finds the record through
    the text of the number. *)
Example search_finds_number :
  match Query.search (memoryStore Sample.notes) "42" Query.AllImportance 20 with
  | Query.SearchResults 1 [h] None =>
      Query.relevance h = 1%Z
      /\ MemRecord.metadata (Query.hit_record h) = [("n", Js.JNum 42 eq_refl)]
  | _ => False
  end.
Proof. vm_compute. split; reflexivity. Qed.

(** The single-file server does fail on that store. *)
Example legacy_search_fails_on_number :
  Legacy.search (memoryStore Sample.notes) "42" Query.AllImportance 20 = Query.QueryFailed.
Proof. vm_compute. reflexivity. Qed.


(** *** The statistics tracker *)

(** C4, as the code has it.  Every call of updateStats, whatever the action,
    adds one to the access count and sets the last-access time to the clock
    reading, then adjusts the counters of its event.  memory_manage makes one
    such call after a topic or record was created or deleted, with the event
    add_topic, add_record, remove_topic or remove_record, and none otherwise:
    update_topic and update_record leave the statistics as they were, also
    when they succeed.  No counter has a floor: there is a sequence of calls
    after which topic count, record count and total size are all negative. *)
Theorem C4_statistics_tracker :
  (forall action topic record w,
      let w' := snd (updateStats action topic record w) in
      Stats.accessCount (memoryStats w') = (Stats.accessCount (memoryStats w) + 1)%Z
      /\ Stats.lastAccessTime (memoryStats w') = Some (clock w (clock_reads w))
      /\ memoryStats w'
         = stats_after action record (clock w (clock_reads w)) (memoryStats w)
      /\ memoryStore w' = memoryStore w)
  /\ (forall a w,
         recorded w (snd (Manage.memory_manage a w)) (fst (Manage.memory_manage a w)))
  /\ (forall topic description tags w,
         memoryStats (snd (Manage.update_topic topic description tags w)) = memoryStats w)
  /\ (forall topic recordId content importance context metadata w,
         memoryStats
           (snd (Manage.update_record topic recordId content importance context
                                      metadata w))
         = memoryStats w)
  /\ (exists calls,
         let s := memoryStats (snd (run_updateStats calls Sample.empty)) in
         (Stats.totalTopics s < 0 /\ Stats.totalRecords s < 0
          /\ Stats.totalMemorySize s < 0)%Z).
Proof.
  split; [|split; [|split; [|split]]].
  - intros action topic record w w'. subst w'. rewrite updateStats_run. simpl.
    pose proof (stats_after_access action record (clock w (clock_reads w))
                                   (memoryStats w)) as [A L].
    repeat split; assumption.
  - apply memory_manage_recorded.
  - intros. apply update_topic_stats.
  - intros. apply update_record_stats.
  - exists [("remove_topic", None);
            ("remove_record", Some (MemRecord.mk "a" "b" Low "" [] 0%Z 0%Z))].
    vm_compute. repeat split.
Qed.

(** A topic and a record updated with success, and the statistics, access
    count and last-access time included, are those from before. *)
Lemma C4_counterexample :
  (exists t, fst (Manage.update_topic "T" "new" ["x"] Sample.one) = Manage.TopicUpdated t
             /\ Topic.description t = "new")
  /\ memoryStats (snd (Manage.update_topic "T" "new" ["x"] Sample.one))
     = memoryStats Sample.one
  /\ (exists r, fst (Manage.update_record "T" "id1" "new" High "" [] Sample.one)
                = Manage.RecordUpdated r
                /\ MemRecord.content r = "new")
  /\ memoryStats (snd (Manage.update_record "T" "id1" "new" High "" [] Sample.one))
     = memoryStats Sample.one.
Proof.
  split; [vm_compute; eexists; split; reflexivity|].
  split; [vm_compute; reflexivity|].
  split; [vm_compute; eexists; split; reflexivity|].
  vm_compute; reflexivity.
Qed.

(** Through the tool itself the size counter can go below zero: a record is
    counted with its size when added and with its size when removed, and an
    update in between makes it longer. *)
Example size_counter_negative_through_tool :
  let w1 := Sample.after (Manage.update_record "T" "id1" "a much longer content" Medium
                                               "" []) Sample.one in
  let w2 := Sample.after (Manage.delete_record "T" "id1") w1 in
  (0 < Stats.totalMemorySize (memoryStats Sample.one))%Z
  /\ Stats.totalRecords (memoryStats w2) = 0%Z
  /\ (Stats.totalMemorySize (memoryStats w2) < 0)%Z.
Proof. vm_compute. repeat split. Qed.

(** *** Deleting a topic *)

(** C1, what the code does.  Without confirmation delete_topic answers with
    the preview and changes nothing.  With confirmation it removes the topic,
    and with it its records, from the store, and records a remove_topic
    event: the topic count goes down by one, while the record count and the
    total size stay what they were, however many records the topic held.  So
    a record count that agreed with the store is ahead of it afterwards by
    the number of records deleted. *)
Theorem C1_delete_topic_counters (w : World) (topic : string) (td : Topic.t) :
  JsMap.get topic (memoryStore w) = Some td ->
  Manage.delete_topic topic false w
  = (Manage.ConfirmRequired (Topic.description td) (Topic.tags td)
                            (length (Topic.records td)) (Topic.createdAt td), w)
  /\ let w' := snd (Manage.delete_topic topic true w) in
     fst (Manage.delete_topic topic true w)
     = Manage.TopicDeleted (length (Topic.records td)) (Topic.description td)
                           (JsMap.size (memoryStore w'))
     /\ memoryStore w' = JsMap.delete topic (memoryStore w)
     /\ S (JsMap.size (memoryStore w')) = JsMap.size (memoryStore w)
     /\ stored_records (memoryStore w') + length (Topic.records td)
        = stored_records (memoryStore w)
     /\ (JsMap.wf (memoryStore w) -> JsMap.get topic (memoryStore w') = None)
     /\ (forall other, other <> topic ->
           JsMap.get other (memoryStore w') = JsMap.get other (memoryStore w))
     /\ Stats.totalTopics (memoryStats w') = (Stats.totalTopics (memoryStats w) - 1)%Z
     /\ Stats.totalRecords (memoryStats w') = Stats.totalRecords (memoryStats w)
     /\ Stats.totalMemorySize (memoryStats w') = Stats.totalMemorySize (memoryStats w)
     /\ (in_step w ->
         Stats.totalRecords (memoryStats w')
         = Z.of_nat (stored_records (memoryStore w') + length (Topic.records td))).
Proof.
  intros H. split; [now apply delete_topic_preview|].
  rewrite (delete_topic_confirmed w _ _ H). cbn [fst snd memoryStore memoryStats].
  rewrite stats_after_remove_topic. cbn [Stats.totalTopics Stats.totalRecords
                                         Stats.totalMemorySize].
  split; [reflexivity|]. split; [reflexivity|].
  split; [now apply (JsMapFacts.size_delete_present _ _ td)|].
  split; [now apply stored_records_delete|].
  split; [intros Hwf; now apply JsMapFacts.get_delete_same|].
  split; [intros other Hne; now apply JsMapFacts.get_delete_other|].
  do 3 (split; [reflexivity|]).
  intros [_ R]. rewrite R. f_equal. symmetry. now apply stored_records_delete.
Qed.

(** Topic T holds one record; after the confirmed deletion the store holds no
    record and the record count is still 1. *)
Lemma C1_witness :
  let w' := snd (Manage.delete_topic "T" true Sample.one) in
  stored_records (memoryStore Sample.one) = 1
  /\ Stats.totalRecords (memoryStats Sample.one) = 1%Z
  /\ stored_records (memoryStore w') = 0
  /\ Stats.totalRecords (memoryStats w') = 1%Z
  /\ Stats.totalTopics (memoryStats w') = 0%Z.
Proof.
  assert (G : exists td, JsMap.get "T" (memoryStore Sample.one) = Some td)
    by (vm_compute; eauto).
  destruct G as [td G].
  destruct (C1_delete_topic_counters Sample.one "T" td G)
    as (_ & _ & St & _ & _ & _ & _ & T & R & _).
  cbv zeta. rewrite R, T, St.
  vm_compute. repeat split.
Defined.

(* ===================================================================== *)
(** * The rest of the code *)
(* ===================================================================== *)

(** What follows covers the code around the properties above: the
    memory_stats tool, the remaining cases of the two handlers (delete_record,
    get_record, list_topics, view_topic by time), sequences of calls, and the
    search of the single-file server. *)

(* ===================================================================== *)
(** ** tools/memoryStats.js: the memory_stats handler *)
(* ===================================================================== *)

Module StatsTool.

(** [importanceStats]: the counts under the labels high, medium and low. *)
Record Histogram : Type := mkHistogram {
  high : nat;
  medium : nat;
  low : nat
}.

(** [importanceStats[record.importance]++] *)
Definition bump (h : Histogram) (record : MemRecord.t) : Histogram :=
  match MemRecord.importance record with
  | High => mkHistogram (S (high h)) (medium h) (low h)
  | Medium => mkHistogram (high h) (S (medium h)) (low h)
  | Low => mkHistogram (high h) (medium h) (S (low h))
  end.

(** The two loops over [memoryStore.values()] and the records. *)
Definition importanceStats (store : JsMap.t Topic.t) : Histogram :=
  fold_left (fun h topicData => fold_left bump (Topic.records topicData) h)
            (JsMap.values store) (mkHistogram 0 0 0).

(** The values the report shows.  A quotient that the source formats with
    [toFixed(2)] is kept as its dividend and divisor; [None] stands for the
    other branch of its test (the literal 0, or the no-data text). *)
Record Report : Type := mkReport {
  totalTopics : Z;
  totalRecords : Z;
  totalMemorySizeKB : Z * Z;
  averageRecordSize : option (Z * Z);
  distribution : Histogram;
  lastAccessTime : option Timestamp;
  accessCount : Z;
  recordsPerTopic : option (Z * Z)
}.

Definition memory_stats : M Report :=
  fun w =>
    let s := memoryStats w in
    let totalMemorySizeKB := (Stats.totalMemorySize s, 1024%Z) in
    let averageRecordSize :=
      if (0 <? Stats.totalRecords s)%Z
      then Some (Stats.totalMemorySize s, Stats.totalRecords s) else None in
    let distribution := importanceStats (memoryStore w) in
    (mkReport (Stats.totalTopics s) (Stats.totalRecords s) totalMemorySizeKB
              averageRecordSize distribution (Stats.lastAccessTime s)
              (Stats.accessCount s)
              (if (0 <? Stats.totalRecords s)%Z
               then Some (Stats.totalRecords s, Stats.totalTopics s) else None),
     w).

End StatsTool.

(* ===================================================================== *)
(** ** Definitions used to state the further properties *)
(* ===================================================================== *)

(** All records of the store, topic after topic. *)
Definition all_records (store : JsMap.t Topic.t) : list MemRecord.t :=
  flat_map (fun e => Topic.records (snd e)) store.

(** The topic names an answer of list_topics shows, in its order. *)
Definition listed_names (r : Query.Result) : list string :=
  match r with
  | Query.TopicList entries => map fst entries
  | _ => []
  end.

(** A sequence of calls of memory_manage: the world it leaves. *)
Fixpoint run_manage (calls : list Manage.Args) (w : World) : World :=
  match calls with
  | [] => w
  | a :: calls' => run_manage calls' (snd (Manage.memory_manage a w))
  end.

(** The topic counter equals the store's size and the record counter is not
    below the number of stored records. *)
Definition counted (w : World) : Prop :=
  Stats.totalTopics (memoryStats w) = Z.of_nat (JsMap.size (memoryStore w))
  /\ (Z.of_nat (stored_records (memoryStore w)) <= Stats.totalRecords (memoryStats w))%Z.

(** The clock never runs backwards. *)
Definition monotone_clock (w : World) : Prop :=
  forall i j, i <= j -> (clock w i <= clock w j)%Z.

(** Every topic's updatedAt is a reading of the clock already taken. *)
Definition dated (w : World) : Prop :=
  Forall (fun e => exists i, i < clock_reads w /\ Topic.updatedAt (snd e) = clock w i)
         (memoryStore w).

(** No record of the store has the id [recordId]. *)
Definition unused_id (recordId : string) (store : JsMap.t Topic.t) : Prop :=
  forall e r, In e store -> In r (Topic.records (snd e)) -> MemRecord.id r <> recordId.

(** Arguments of a call of memory_manage on a record. *)
Definition call_record (action topic recordId content : string) : Manage.Args :=
  Manage.mkArgs action topic "" [] content Medium "" [] recordId false.

(** Further sample worlds. *)
Module Sample2.

(** Topics A and B; A holds a record with text metadata, B two records. *)
Definition two_topics : World :=
  Sample.after (Manage.create_record "B" "third" High "" [])
    (Sample.after (Manage.create_record "B" "second" Low "note" [])
       (Sample.after (Manage.create_topic "B" "" [])
          (Sample.after (Manage.create_record "A" "first" Medium ""
                                              [("lang", Js.JStr "Rocq")])
             (Sample.after (Manage.create_topic "A" "" []) Sample.empty)))).

(** A world whose clock stands still: every record has the same creation
    time. *)
Definition frozen : World :=
  Sample.after (Manage.create_record "T" "b" Low "" [])
    (Sample.after (Manage.create_record "T" "a" High "" [])
       (Sample.after (Manage.create_topic "T" "" [])
          (mkWorld [] Stats.initial (fun _ => 5%Z) 0
                   (fun n => ("r" ++ Js.decimal (Z.of_nat n))%string) 0))).

End Sample2.

(** The actions of memory_manage. *)
Definition manage_actions : list string :=
  ["create_topic"; "create_record"; "update_topic"; "update_record";
   "delete_topic"; "delete_record"].

(** The kinds of answer each action of memory_manage can give. *)
Definition answers_of (action : string) (r : Manage.Result) : bool :=
  if action =? "create_topic" then
    match r with
    | Manage.TopicAlreadyExists _ _ _ | Manage.TopicCreated _ => true
    | _ => false
    end
  else if action =? "create_record" then
    match r with
    | Manage.ContentEmpty | Manage.TopicNotFound | Manage.RecordCreated _ _ => true
    | _ => false
    end
  else if action =? "update_topic" then
    match r with
    | Manage.TopicNotFound | Manage.TopicUpdated _ => true
    | _ => false
    end
  else if action =? "update_record" then
    match r with
    | Manage.RecordIdEmpty | Manage.TopicNotFound | Manage.RecordNotFound
    | Manage.RecordUpdated _ => true
    | _ => false
    end
  else if action =? "delete_topic" then
    match r with
    | Manage.TopicNotFound | Manage.ConfirmRequired _ _ _ _
    | Manage.TopicDeleted _ _ _ => true
    | _ => false
    end
  else if action =? "delete_record" then
    match r with
    | Manage.RecordIdEmpty | Manage.TopicNotFound | Manage.RecordNotFound
    | Manage.RecordDeleted _ _ => true
    | _ => false
    end
  else
    match r with
    | Manage.UnsupportedAction => true
    | _ => false
    end.

(** From [w] to [w']: every updatedAt of [w'] is a reading already taken,
    and no topic's updatedAt went back. *)
Definition advances (w w' : World) : Prop :=
  dated w'
  /\ (forall name td td',
         JsMap.get name (memoryStore w) = Some td ->
         JsMap.get name (memoryStore w') = Some td' ->
         (Topic.updatedAt td <= Topic.updatedAt td')%Z).

(* ===================================================================== *)
(** ** Further facts *)
(* ===================================================================== *)

Lemma find_has_id recordId l r :
  Js.find (Manage.has_id recordId) l = Some r -> MemRecord.id r = recordId.
Proof.
  unfold Js.find. intros H. apply find_some in H. destruct H as [_ H].
  now apply String.eqb_eq.
Qed.

Lemma find_none_has_id recordId l :
  Js.find (Manage.has_id recordId) l = None <->
  (forall r, In r l -> MemRecord.id r <> recordId).
Proof.
  unfold Js.find. split.
  - intros H r I E. pose proof (find_none _ _ H r I) as N.
    unfold Manage.has_id in N. rewrite E, String.eqb_refl in N. discriminate.
  - intros H. induction l as [|x l IH]; [reflexivity|]. simpl.
    unfold Manage.has_id at 1. destruct (String.eqb_spec (MemRecord.id x) recordId) as [E|N].
    + exfalso. apply (H x); [now left | exact E].
    + apply IH. intros r I. apply H. now right.
Qed.

Lemma find_app_fresh recordId l (r : MemRecord.t) :
  (forall x, In x l -> MemRecord.id x <> recordId) ->
  MemRecord.id r = recordId ->
  Js.find (Manage.has_id recordId) (l ++ [r]) = Some r
  /\ remove_first (Manage.has_id recordId) (l ++ [r]) = l.
Proof.
  intros H E. unfold Js.find. induction l as [|x l IH]; simpl.
  - unfold Manage.has_id. rewrite E, String.eqb_refl. now split.
  - unfold Manage.has_id at 1 3.
    destruct (String.eqb_spec (MemRecord.id x) recordId) as [Ex|N].
    + exfalso. apply (H x); [now left | exact Ex].
    + destruct IH as [F R]; [intros y I; apply H; now right|].
      rewrite F, R. now split.
Qed.

Lemma keys_delete {V : Type} (k : string) (m : JsMap.t V) :
  JsMap.keys (JsMap.delete k m) = remove_first (String.eqb k) (JsMap.keys m).
Proof.
  induction m as [|[k' v] m IH]; simpl; [reflexivity|].
  destruct (k =? k'); simpl; [reflexivity | now rewrite IH].
Qed.

Lemma delete_app_absent {V : Type} (k : string) (v : V) (m : JsMap.t V) :
  JsMap.get k m = None -> JsMap.delete k (m ++ [(k, v)]) = m.
Proof.
  induction m as [|[k' v'] m IH]; simpl.
  - now rewrite String.eqb_refl.
  - destruct (k =? k'); [discriminate|]. intros H. now rewrite IH.
Qed.

Lemma set_set {V : Type} (k : string) (v v' : V) (m : JsMap.t V) :
  JsMap.set k v' (JsMap.set k v m) = JsMap.set k v' m.
Proof.
  induction m as [|[k' v0] m IH]; simpl.
  - now rewrite String.eqb_refl.
  - destruct (k =? k') eqn:E; simpl; rewrite E; [reflexivity | now rewrite IH].
Qed.

Lemma listed_names_keys (store : JsMap.t Topic.t) :
  listed_names (Query.list_topics store) = JsMap.keys store.
Proof. destruct store; reflexivity. Qed.

(* ===================================================================== *)
(** ** Deleting a record *)
(* ===================================================================== *)

(** X1.  delete_record answers with the empty-id error for the empty record
    id, with NotFound when the topic is absent, and with the record-not-found
    error when no record of the topic has the id; in these cases nothing
    changes.  Otherwise it removes the first record of the topic with that
    id and no other, keeps the order of the rest, sets the topic's updatedAt
    to the clock reading, answers with the removed record, and records a
    remove_record event: one record less, the serialized size of the removed
    record taken off the total size, one more access. *)
Theorem X1_delete_record (w : World) (topic recordId : string) :
  (recordId = "" -> Manage.delete_record topic recordId w = (Manage.RecordIdEmpty, w))
  /\ (recordId <> "" -> JsMap.get topic (memoryStore w) = None ->
      Manage.delete_record topic recordId w = (Manage.TopicNotFound, w))
  /\ (recordId <> "" ->
      forall td, JsMap.get topic (memoryStore w) = Some td ->
      (forall r, In r (Topic.records td) -> MemRecord.id r <> recordId) ->
      Manage.delete_record topic recordId w = (Manage.RecordNotFound, w))
  /\ (recordId <> "" ->
      forall td removed, JsMap.get topic (memoryStore w) = Some td ->
      Js.find (Manage.has_id recordId) (Topic.records td) = Some removed ->
      exists td' w',
        Manage.delete_record topic recordId w
        = (Manage.RecordDeleted removed (length (Topic.records td')), w')
        /\ MemRecord.id removed = recordId
        /\ (exists before after,
               Topic.records td = before ++ removed :: after
               /\ Topic.records td' = before ++ after
               /\ Forall (fun r => MemRecord.id r <> recordId) before)
        /\ S (length (Topic.records td')) = length (Topic.records td)
        /\ memoryStore w' = JsMap.set topic td' (memoryStore w)
        /\ JsMap.get topic (memoryStore w') = Some td'
        /\ (forall other, other <> topic ->
              JsMap.get other (memoryStore w') = JsMap.get other (memoryStore w))
        /\ Topic.updatedAt td' = clock w (clock_reads w)
        /\ Topic.id td' = Topic.id td
        /\ Topic.name td' = Topic.name td
        /\ Topic.description td' = Topic.description td
        /\ Topic.tags td' = Topic.tags td
        /\ Topic.createdAt td' = Topic.createdAt td
        /\ Stats.totalRecords (memoryStats w')
           = (Stats.totalRecords (memoryStats w) - 1)%Z
        /\ Stats.totalMemorySize (memoryStats w')
           = (Stats.totalMemorySize (memoryStats w) - calculateRecordSize removed)%Z
        /\ Stats.totalTopics (memoryStats w') = Stats.totalTopics (memoryStats w)
        /\ Stats.accessCount (memoryStats w')
           = (Stats.accessCount (memoryStats w) + 1)%Z
        /\ Stats.lastAccessTime (memoryStats w') = Some (clock w (1 + clock_reads w))).
Proof.
  split; [|split; [|split]].
  - intros ->. reflexivity.
  - apply delete_record_no_topic.
  - intros Hr td H N. apply (delete_record_no_record w _ _ td Hr H).
    now apply find_none_has_id.
  - intros Hr td removed H F.
    exists (Topic.with_updatedAt (clock w (clock_reads w))
              (Topic.with_records
                 (remove_first (Manage.has_id recordId) (Topic.records td)) td)).
    eexists. rewrite (delete_record_present w _ _ _ _ Hr H F).
    split; [reflexivity|]. cbn [memoryStore memoryStats Topic.records Topic.with_records
                                Topic.with_updatedAt Topic.updatedAt Topic.id Topic.name
                                Topic.description Topic.tags Topic.createdAt].
    rewrite stats_after_remove_record.
    split; [now apply (find_has_id _ _ _ F)|].
    split.
    { destruct (remove_first_split _ _ _ F) as (b & a & E1 & E2 & Fb).
      exists b, a. split; [exact E1|]. split; [exact E2|].
      eapply Forall_impl; [|exact Fb]. cbv beta. intros r Hf E.
      unfold Manage.has_id in Hf. rewrite E, String.eqb_refl in Hf. discriminate. }
    split; [now apply (length_remove_first _ _ _ F)|].
    split; [reflexivity|].
    split; [apply JsMapFacts.get_set_same|].
    split; [intros other Hne; now apply JsMapFacts.get_set_other|].
    repeat split.
Qed.

Lemma X1_witness :
  Manage.delete_record "B" "" Sample2.two_topics
  = (Manage.RecordIdEmpty, Sample2.two_topics)
  /\ Manage.delete_record "C" "id3" Sample2.two_topics
     = (Manage.TopicNotFound, Sample2.two_topics)
  /\ Manage.delete_record "B" "id1" Sample2.two_topics
     = (Manage.RecordNotFound, Sample2.two_topics)
  /\ (exists removed n w',
         Manage.delete_record "B" "id3" Sample2.two_topics
         = (Manage.RecordDeleted removed n, w')
         /\ MemRecord.id removed = "id3"
         /\ Stats.totalRecords (memoryStats w') = 2%Z).
Proof.
  pose proof (X1_delete_record Sample2.two_topics "B" "") as (A & _).
  pose proof (X1_delete_record Sample2.two_topics "C" "id3") as (_ & B & _).
  pose proof (X1_delete_record Sample2.two_topics "B" "id1") as (_ & _ & C & _).
  pose proof (X1_delete_record Sample2.two_topics "B" "id3") as (_ & _ & _ & D).
  assert (G : exists td removed,
             JsMap.get "B" (memoryStore Sample2.two_topics) = Some td
             /\ Js.find (Manage.has_id "id3") (Topic.records td) = Some removed
             /\ (forall r, In r (Topic.records td) -> MemRecord.id r <> "id1")).
  { vm_compute. eexists. eexists. split; [reflexivity|]. split; [reflexivity|].
    intros r [<-|[<-|[]]]; discriminate. }
  destruct G as (td & removed & G & F & N).
  split; [apply A; reflexivity|].
  split; [apply B; [discriminate | vm_compute; reflexivity]|].
  split; [apply (C ltac:(discriminate) td G N)|].
  destruct (D ltac:(discriminate) td removed G F)
    as (td' & w' & E & I & _ & _ & _ & _ & _ & _ & _ & _ & _ & _ & _ & R & _).
  exists removed, (length (Topic.records td')), w'.
  split; [exact E|]. split; [exact I|]. rewrite R. vm_compute. reflexivity.
Defined.

(* ===================================================================== *)
(** ** Looking a record up by its id *)
(* ===================================================================== *)

Lemma get_record_in_none (store : JsMap.t Topic.t) (recordId : string) :
  Query.get_record_in store recordId = Query.RecordNotFound <->
  unused_id recordId store.
Proof.
  unfold unused_id. induction store as [|[n td] store IH]; simpl.
  - split; [intros _ e r [] | reflexivity].
  - change (fun record => MemRecord.id record =? recordId) with (Manage.has_id recordId).
    destruct (Js.find (Manage.has_id recordId) (Topic.records td)) as [x|] eqn:F.
    + split; [discriminate|]. intros H. exfalso.
      pose proof (find_has_id _ _ _ F) as E. unfold Js.find in F.
      apply find_some in F. destruct F as [I _].
      apply (H (n, td) x); [now left | exact I | exact E].
    + rewrite IH. split.
      * intros H e r [<-|I] Ir; [|now apply (H e r)].
        simpl in Ir. now apply (proj1 (find_none_has_id _ _) F).
      * intros H e r I. apply H. now right.
Qed.

Lemma get_record_in_found (store : JsMap.t Topic.t) (recordId topicName : string)
      (found : MemRecord.t) :
  Query.get_record_in store recordId = Query.RecordFound topicName found ->
  exists before td after,
    store = before ++ (topicName, td) :: after
    /\ unused_id recordId before
    /\ Js.find (Manage.has_id recordId) (Topic.records td) = Some found.
Proof.
  induction store as [|[n td] store IH]; simpl; [discriminate|].
  change (fun record => MemRecord.id record =? recordId) with (Manage.has_id recordId).
  destruct (Js.find (Manage.has_id recordId) (Topic.records td)) as [x|] eqn:F.
  - intros [= <- <-]. exists [], td, store. split; [reflexivity|].
    split; [intros e r [] | exact F].
  - intros H. destruct (IH H) as (b & td' & a & -> & U & F').
    exists ((n, td) :: b), td', a. split; [reflexivity|]. split; [|exact F'].
    intros e r [<-|I] Ir; [|now apply (U e r)].
    simpl in Ir. now apply (proj1 (find_none_has_id _ _) F).
Qed.

Lemma get_record_in_cases (store : JsMap.t Topic.t) (recordId : string) :
  Query.get_record_in store recordId = Query.RecordNotFound
  \/ exists topicName found,
       Query.get_record_in store recordId = Query.RecordFound topicName found.
Proof.
  induction store as [|[n td] store IH]; simpl; [now left|].
  destruct (Js.find _ (Topic.records td)) as [x|]; [right; eauto | exact IH].
Qed.

Lemma get_record_in_app_found (before after : JsMap.t Topic.t) topicName td recordId r :
  unused_id recordId before ->
  Js.find (Manage.has_id recordId) (Topic.records td) = Some r ->
  Query.get_record_in (before ++ (topicName, td) :: after) recordId
  = Query.RecordFound topicName r.
Proof.
  intros U F. induction before as [|[n t0] before IH]; simpl.
  - change (fun record => MemRecord.id record =? recordId) with (Manage.has_id recordId).
    now rewrite F.
  - change (fun record => MemRecord.id record =? recordId) with (Manage.has_id recordId).
    assert (N : Js.find (Manage.has_id recordId) (Topic.records t0) = None).
    { apply find_none_has_id. intros x I. apply (U (n, t0) x); [now left | exact I]. }
    rewrite N. apply IH. intros e x I. apply U. now right.
Qed.

(** X2.  get_record answers with the empty-id error exactly for the empty
    id.  For any other id its answer is NotFound exactly when no record of any
    topic has the id; otherwise it is the first record with that id of the
    first topic, in insertion order, that holds one, together with that
    topic's name. *)
Theorem X2_get_record (store : JsMap.t Topic.t) (recordId : string) :
  (Query.get_record store recordId = Query.RecordIdEmpty <-> recordId = "")
  /\ (recordId <> "" ->
      (Query.get_record store recordId = Query.RecordNotFound <->
       unused_id recordId store)
      /\ (forall topicName found,
             Query.get_record store recordId = Query.RecordFound topicName found ->
             MemRecord.id found = recordId
             /\ exists before td after,
                  store = before ++ (topicName, td) :: after
                  /\ unused_id recordId before
                  /\ exists earlier later,
                       Topic.records td = earlier ++ found :: later
                       /\ Forall (fun r => MemRecord.id r <> recordId) earlier)
      /\ (Query.get_record store recordId = Query.RecordNotFound
          \/ exists topicName found,
               Query.get_record store recordId = Query.RecordFound topicName found)).
Proof.
  unfold Query.get_record. split.
  - destruct (String.eqb_spec recordId "") as [->|N].
    + split; reflexivity.
    + apply truthy_true_iff in N. rewrite N. cbn [negb]. split; [|intros ->; discriminate].
      destruct (get_record_in_cases store recordId) as [E|(n & f & E)];
        rewrite E; discriminate.
  - intros N. apply truthy_true_iff in N. rewrite N. cbn [negb].
    split; [apply get_record_in_none|]. split; [|apply get_record_in_cases].
    intros topicName found H.
    destruct (get_record_in_found _ _ _ _ H) as (b & td & a & E & U & F).
    split; [now apply (find_has_id _ _ _ F)|].
    exists b, td, a. split; [exact E|]. split; [exact U|].
    destruct (remove_first_split _ _ _ F) as (e & l & E1 & _ & Fe).
    exists e, l. split; [exact E1|].
    eapply Forall_impl; [|exact Fe]. cbv beta. intros r Hf Er.
    unfold Manage.has_id in Hf. rewrite Er, String.eqb_refl in Hf. discriminate.
Qed.

Lemma X2_witness :
  Query.get_record (memoryStore Sample2.two_topics) "id9" = Query.RecordNotFound
  /\ (exists found,
         Query.get_record (memoryStore Sample2.two_topics) "id4"
         = Query.RecordFound "B" found
         /\ MemRecord.id found = "id4").
Proof.
  pose proof (X2_get_record (memoryStore Sample2.two_topics) "id9") as (_ & A).
  pose proof (X2_get_record (memoryStore Sample2.two_topics) "id4") as (_ & B).
  destruct (A ltac:(discriminate)) as (A1 & _).
  destruct (B ltac:(discriminate)) as (_ & B2 & _).
  split.
  - apply A1. vm_compute.
    intros e r [<-|[<-|[]]]; simpl; intros [<-|I]; try discriminate;
      try (destruct I as [<-|[]]; discriminate); destruct I.
  - assert (G : exists found,
               Query.get_record (memoryStore Sample2.two_topics) "id4"
               = Query.RecordFound "B" found) by (vm_compute; eauto).
    destruct G as [found G]. exists found. split; [exact G|].
    exact (proj1 (B2 "B" found G)).
Defined.

(* ===================================================================== *)
(** ** Viewing a topic by time *)
(* ===================================================================== *)

(** X3.  For an existing topic with a non-empty name, view_topic sorted by
    time shows the first [limit] records of a rearrangement of the topic's
    records in which creation times never increase (most recent first) and
    records created at the same time keep their insertion order; it reports
    the number of records of the topic and, when that exceeds [limit], the
    number left out. *)
Theorem X3_view_topic_by_time (store : JsMap.t Topic.t) (topic : string)
        (limit : nat) (td : Topic.t) :
  topic <> "" ->
  JsMap.get topic store = Some td ->
  exists sorted,
    Query.view_topic store topic Query.ByTime limit
    = Query.TopicView td (firstn limit sorted) (length (Topic.records td))
        (if (limit <? length (Topic.records td))%nat
         then Some (length (Topic.records td) - limit) else None)
    /\ Permutation (Topic.records td) sorted
    /\ descending MemRecord.createdAt sorted
    /\ (forall t, keyed MemRecord.createdAt t sorted
                  = keyed MemRecord.createdAt t (Topic.records td))
    /\ length (firstn limit sorted) = Nat.min limit (length (Topic.records td)).
Proof.
  intros Hn H.
  exists (Js.sort (fun a b => (MemRecord.createdAt b - MemRecord.createdAt a)%Z)
                  (Topic.records td)).
  split.
  { unfold Query.view_topic. apply truthy_true_iff in Hn. rewrite Hn, H. reflexivity. }
  split; [apply sort_perm|]. split; [apply sort_descending|].
  split; [intros t; apply sort_stable|].
  rewrite length_firstn. now rewrite (sort_length MemRecord.createdAt).
Qed.

Lemma X3_witness :
  exists td sorted total rest,
    JsMap.get "B" (memoryStore Sample2.two_topics) = Some td
    /\ Query.view_topic (memoryStore Sample2.two_topics) "B" Query.ByTime 1
       = Query.TopicView td (firstn 1 sorted) total rest
    /\ Permutation (Topic.records td) sorted
    /\ descending MemRecord.createdAt sorted.
Proof.
  assert (G : exists td, JsMap.get "B" (memoryStore Sample2.two_topics) = Some td)
    by (vm_compute; eauto).
  destruct G as [td G].
  destruct (X3_view_topic_by_time (memoryStore Sample2.two_topics) "B" 1 td
              ltac:(discriminate) G) as (sorted & E & P & D & _).
  exists td, sorted. eexists. eexists.
  split; [exact G|]. split; [exact E|]. split; assumption.
Defined.

(** In topic B the later record comes first; with the clock standing still
    the insertion order stays. *)
Example view_by_time_scenarios :
  match Query.view_topic (memoryStore Sample2.two_topics) "B" Query.ByTime 10,
        Query.view_topic (memoryStore Sample2.frozen) "T" Query.ByTime 10 with
  | Query.TopicView _ shown _ _, Query.TopicView _ shown' _ _ =>
      map MemRecord.content shown = ["third"; "second"]
      /\ map MemRecord.content shown' = ["a"; "b"]
  | _, _ => False
  end.
Proof. vm_compute. repeat split. Qed.

(* ===================================================================== *)
(** ** The order of the topics *)
(* ===================================================================== *)

Lemma memory_manage_keys (a : Manage.Args) (w : World) :
  JsMap.keys (memoryStore (snd (Manage.memory_manage a w)))
  = match fst (Manage.memory_manage a w) with
    | Manage.TopicCreated _ => JsMap.keys (memoryStore w) ++ [Manage.topic a]
    | Manage.TopicDeleted _ _ _ =>
        remove_first (String.eqb (Manage.topic a)) (JsMap.keys (memoryStore w))
    | _ => JsMap.keys (memoryStore w)
    end.
Proof.
  manage_cases a w; cbn [memoryStore]; try reflexivity;
    try (eapply JsMapFacts.keys_set_present; eassumption).
  - unfold JsMap.keys. now rewrite map_app.
  - apply keys_delete.
Qed.

(** X4.  The names list_topics shows are in creation order, and a call of
    memory_manage changes them only in two ways: a created topic is added at
    the end, and a deleted topic is taken out, the others keeping their
    order.  Updates and record operations leave names and order as they are. *)
Theorem X4_listing_order (a : Manage.Args) (w : World) :
  let before := listed_names (Query.list_topics (memoryStore w)) in
  let after :=
    listed_names (Query.list_topics (memoryStore (snd (Manage.memory_manage a w)))) in
  after = match fst (Manage.memory_manage a w) with
          | Manage.TopicCreated _ => before ++ [Manage.topic a]
          | Manage.TopicDeleted _ _ _ =>
              remove_first (String.eqb (Manage.topic a)) before
          | _ => before
          end
  /\ (Query.list_topics (memoryStore w) = Query.NoTopics <-> memoryStore w = []).
Proof.
  cbv zeta. rewrite !listed_names_keys. split; [apply memory_manage_keys|].
  destruct (memoryStore w); split; (reflexivity || discriminate).
Qed.

Example listing_order_scenario :
  let w1 := Sample.after (Manage.update_topic "A" "changed" ["t"]) Sample2.two_topics in
  let w2 := Sample.after (Manage.create_topic "C" "" []) w1 in
  let w3 := Sample.after (Manage.delete_topic "A" true) w2 in
  listed_names (Query.list_topics (memoryStore w1)) = ["A"; "B"]
  /\ listed_names (Query.list_topics (memoryStore w2)) = ["A"; "B"; "C"]
  /\ listed_names (Query.list_topics (memoryStore w3)) = ["B"; "C"].
Proof. vm_compute. repeat split. Qed.

(* ===================================================================== *)
(** ** Counters over any sequence of calls *)
(* ===================================================================== *)

Lemma memory_manage_counted (a : Manage.Args) (w : World) :
  counted w -> counted (snd (Manage.memory_manage a w)).
Proof.
  intros [T R]. unfold counted.
  manage_cases a w; cbn [memoryStore memoryStats]; try (split; assumption);
    rewrite ?stats_after_add_topic, ?stats_after_add_record,
            ?stats_after_remove_topic, ?stats_after_remove_record;
    cbn [Stats.totalTopics Stats.totalRecords];
    try match goal with H : JsMap.get _ _ = Some _ |- context [JsMap.set ?k ?v ?m] =>
          rewrite (JsMapFacts.size_set_present _ _ _ _ H);
          let S := fresh "S" in
          pose proof (stored_records_set m k _ v H) as S;
          cbn [Topic.records Topic.with_records Topic.with_updatedAt updated_topic] in S
        end.
  - unfold JsMap.size in *. rewrite stored_records_app, length_app.
    unfold stored_records at 2. simpl. split; lia.
  - rewrite length_app in *. simpl in *. split; lia.
  - split; lia.
  - rewrite length_replace_first in *. split; lia.
  - match goal with H : JsMap.get _ _ = Some _ |- _ =>
      pose proof (JsMapFacts.size_delete_present _ _ _ H);
      pose proof (stored_records_delete _ _ _ H) end.
    split; lia.
  - match goal with H : Js.find _ _ = Some _ |- _ =>
      pose proof (length_remove_first _ _ _ H) end.
    split; lia.
Qed.

Lemma run_manage_counted (calls : list Manage.Args) : forall w,
  counted w -> counted (run_manage calls w).
Proof.
  induction calls as [|a calls IH]; intros w H; simpl; [exact H|].
  apply IH. now apply memory_manage_counted.
Qed.

(** X5.  From a state whose topic and record counters agree with the store,
    in particular from the start of the server, after any sequence of calls
    of memory_manage the topic counter still equals the number of topics in
    the store, and the record counter is never below the number of records
    in the store; so neither is ever negative. *)
Theorem X5_counters_follow_calls (calls : list Manage.Args) (w : World) :
  in_step w ->
  let w' := run_manage calls w in
  Stats.totalTopics (memoryStats w') = Z.of_nat (JsMap.size (memoryStore w'))
  /\ (Z.of_nat (stored_records (memoryStore w')) <= Stats.totalRecords (memoryStats w'))%Z
  /\ (0 <= Stats.totalTopics (memoryStats w'))%Z
  /\ (0 <= Stats.totalRecords (memoryStats w'))%Z.
Proof.
  intros [T R] w'.
  assert (C : counted w') by (apply run_manage_counted; split; [exact T | lia]).
  destruct C as [T' R']. repeat split; lia.
Qed.

Lemma X5_witness :
  let w' := run_manage [call "create_topic" "T";
                        call_record "create_record" "T" "" "text";
                        call_record "create_record" "T" "" "more";
                        Manage.mkArgs "delete_topic" "T" "" [] "" Medium "" [] "" true;
                        call "create_topic" "U"] Sample.empty in
  Stats.totalTopics (memoryStats w') = Z.of_nat (JsMap.size (memoryStore w'))
  /\ (Z.of_nat (stored_records (memoryStore w')) <= Stats.totalRecords (memoryStats w'))%Z.
Proof.
  destruct (X5_counters_follow_calls
              [call "create_topic" "T";
               call_record "create_record" "T" "" "text";
               call_record "create_record" "T" "" "more";
               Manage.mkArgs "delete_topic" "T" "" [] "" Medium "" [] "" true;
               call "create_topic" "U"] Sample.empty)
    as (A & B & _).
  - split; reflexivity.
  - split; [exact A | exact B].
Defined.

(* ===================================================================== *)
(** ** Creating and then deleting *)
(* ===================================================================== *)

(** X6.  Adding a record to an existing topic and then deleting it by the id
    it was given undoes the addition, provided the id is not empty and no
    record of the topic had it before: the second call answers with the very
    record the first one created, the topic holds the records it held, the
    other topics are untouched, and record count, total size and topic count
    are what they were; only the access count (two more) and the timestamps
    show the two calls. *)
Theorem X6_create_then_delete_record (w : World) (topic content : string)
        (importance : Importance) (context : string) (metadata : JsMap.t Js.value)
        (td : Topic.t) :
  content <> "" ->
  JsMap.get topic (memoryStore w) = Some td ->
  idgen w (id_reads w) <> "" ->
  (forall r, In r (Topic.records td) -> MemRecord.id r <> idgen w (id_reads w)) ->
  let w1 := snd (Manage.create_record topic content importance context metadata w) in
  let w2 := snd (Manage.delete_record topic (idgen w (id_reads w)) w1) in
  (exists newRecord,
      fst (Manage.create_record topic content importance context metadata w)
      = Manage.RecordCreated newRecord (S (length (Topic.records td)))
      /\ MemRecord.id newRecord = idgen w (id_reads w)
      /\ fst (Manage.delete_record topic (idgen w (id_reads w)) w1)
         = Manage.RecordDeleted newRecord (length (Topic.records td)))
  /\ (exists td2, JsMap.get topic (memoryStore w2) = Some td2
                  /\ Topic.records td2 = Topic.records td
                  /\ Topic.id td2 = Topic.id td
                  /\ Topic.description td2 = Topic.description td
                  /\ Topic.tags td2 = Topic.tags td
                  /\ Topic.createdAt td2 = Topic.createdAt td)
  /\ (forall other, other <> topic ->
        JsMap.get other (memoryStore w2) = JsMap.get other (memoryStore w))
  /\ JsMap.keys (memoryStore w2) = JsMap.keys (memoryStore w)
  /\ Stats.totalRecords (memoryStats w2) = Stats.totalRecords (memoryStats w)
  /\ Stats.totalMemorySize (memoryStats w2) = Stats.totalMemorySize (memoryStats w)
  /\ Stats.totalTopics (memoryStats w2) = Stats.totalTopics (memoryStats w)
  /\ Stats.accessCount (memoryStats w2) = (Stats.accessCount (memoryStats w) + 2)%Z.
Proof.
  intros Hc H Hid Hfresh. cbv zeta.
  rewrite (create_record_present w _ _ _ _ _ _ Hc H). cbn [fst snd].
  set (newRecord := created_record w content importance context metadata).
  set (td1 := Topic.with_updatedAt _ (Topic.with_records _ td)).
  set (w1 := mkWorld _ _ _ _ _ _).
  assert (G1 : JsMap.get topic (memoryStore w1) = Some td1)
    by apply JsMapFacts.get_set_same.
  destruct (find_app_fresh (idgen w (id_reads w)) (Topic.records td) newRecord Hfresh
                           eq_refl) as [F R].
  assert (F1 : Js.find (Manage.has_id (idgen w (id_reads w))) (Topic.records td1)
               = Some newRecord) by exact F.
  rewrite (delete_record_present w1 _ _ _ _ Hid G1 F1).
  cbn [fst snd memoryStore memoryStats w1 td1 Topic.records Topic.with_records
       Topic.with_updatedAt].
  rewrite R, set_set, stats_after_remove_record, stats_after_add_record.
  cbn [Stats.totalTopics Stats.totalRecords Stats.totalMemorySize Stats.accessCount].
  split; [exists newRecord; repeat split|].
  split.
  { eexists. split; [apply JsMapFacts.get_set_same|]. repeat split. }
  split; [intros other Hne; now apply JsMapFacts.get_set_other|].
  split; [now apply (JsMapFacts.keys_set_present _ _ _ td)|].
  repeat split; lia.
Qed.

Lemma X6_witness :
  let w1 := snd (Manage.create_record "B" "fourth" Low "" [] Sample2.two_topics) in
  let w2 := snd (Manage.delete_record "B" "id5" w1) in
  Stats.totalRecords (memoryStats w2) = Stats.totalRecords (memoryStats Sample2.two_topics)
  /\ Stats.totalMemorySize (memoryStats w2)
     = Stats.totalMemorySize (memoryStats Sample2.two_topics)
  /\ JsMap.keys (memoryStore w2) = JsMap.keys (memoryStore Sample2.two_topics).
Proof.
  assert (G : exists td,
             JsMap.get "B" (memoryStore Sample2.two_topics) = Some td
             /\ (forall r, In r (Topic.records td) -> MemRecord.id r <> "id5")).
  { vm_compute. eexists. split; [reflexivity|].
    intros r [<-|[<-|[]]]; discriminate. }
  destruct G as (td & G & N).
  destruct (X6_create_then_delete_record Sample2.two_topics "B" "fourth" Low "" [] td
              ltac:(discriminate) G ltac:(vm_compute; discriminate) N)
    as (_ & _ & _ & K & R & M & _).
  cbv zeta. split; [exact R|]. split; [exact M | exact K].
Defined.

(** X7.  Creating a topic under a name that is not in the store and then
    deleting it with confirmation undoes the creation: the second call
    answers that a topic with no records was deleted, the store is exactly
    the one from before, and topic count, record count and total size are
    what they were. *)
Theorem X7_create_then_delete_topic (w : World) (topic description : string)
        (tags : list string) :
  JsMap.get topic (memoryStore w) = None ->
  let w1 := snd (Manage.create_topic topic description tags w) in
  let w2 := snd (Manage.delete_topic topic true w1) in
  fst (Manage.delete_topic topic true w1)
  = Manage.TopicDeleted 0 description (JsMap.size (memoryStore w))
  /\ memoryStore w2 = memoryStore w
  /\ Stats.totalTopics (memoryStats w2) = Stats.totalTopics (memoryStats w)
  /\ Stats.totalRecords (memoryStats w2) = Stats.totalRecords (memoryStats w)
  /\ Stats.totalMemorySize (memoryStats w2) = Stats.totalMemorySize (memoryStats w)
  /\ Stats.accessCount (memoryStats w2) = (Stats.accessCount (memoryStats w) + 2)%Z.
Proof.
  intros H. cbv zeta. rewrite (create_topic_absent w _ _ _ H). cbn [fst snd].
  set (w1 := mkWorld _ _ _ _ _ _).
  assert (G1 : JsMap.get topic (memoryStore w1)
               = Some (created_topic w topic description tags)).
  { cbn [w1 memoryStore]. rewrite <- (JsMapFacts.set_absent _ _ _ H).
    apply JsMapFacts.get_set_same. }
  rewrite (delete_topic_confirmed w1 _ _ G1).
  cbn [fst snd memoryStore memoryStats w1].
  rewrite (delete_app_absent _ _ _ H), stats_after_remove_topic, stats_after_add_topic.
  cbn [Stats.totalTopics Stats.totalRecords Stats.totalMemorySize Stats.accessCount].
  repeat split; lia.
Qed.

Lemma X7_witness :
  memoryStore (snd (Manage.delete_topic "C" true
                      (snd (Manage.create_topic "C" "d" ["t"] Sample2.two_topics))))
  = memoryStore Sample2.two_topics.
Proof.
  apply (X7_create_then_delete_topic Sample2.two_topics "C" "d" ["t"]).
  vm_compute. reflexivity.
Defined.

(* ===================================================================== *)
(** ** Creating a record and looking it up *)
(* ===================================================================== *)

(** X8.  A record just created is what get_record returns for the id it was
    given, with the name of its topic, provided the id is not empty and no
    record of the store had it before. *)
Theorem X8_create_then_get_record (w : World) (topic content : string)
        (importance : Importance) (context : string) (metadata : JsMap.t Js.value)
        (td : Topic.t) :
  content <> "" ->
  JsMap.get topic (memoryStore w) = Some td ->
  idgen w (id_reads w) <> "" ->
  unused_id (idgen w (id_reads w)) (memoryStore w) ->
  exists newRecord w1,
    Manage.create_record topic content importance context metadata w
    = (Manage.RecordCreated newRecord (S (length (Topic.records td))), w1)
    /\ Query.get_record (memoryStore w1) (MemRecord.id newRecord)
       = Query.RecordFound topic newRecord
    /\ MemRecord.content newRecord = content.
Proof.
  intros Hc H Hid U. eexists. eexists.
  rewrite (create_record_present w _ _ _ _ _ _ Hc H). split; [reflexivity|].
  split; [|reflexivity].
  cbn [memoryStore created_record MemRecord.id]. unfold Query.get_record.
  apply truthy_true_iff in Hid. rewrite Hid. cbn [negb].
  destruct (JsMapFacts.values_set_present (memoryStore w) topic
              (Topic.with_updatedAt (clock w (2 + clock_reads w))
                 (Topic.with_records
                    (Topic.records td
                     ++ [created_record w content importance context metadata]) td))
              td H) as (m1 & m2 & E & E' & _).
  rewrite E'. apply get_record_in_app_found.
  - intros e r I. apply U. rewrite E. apply in_or_app. now left.
  - cbn [Topic.records Topic.with_records Topic.with_updatedAt].
    apply find_app_fresh; [|reflexivity].
    intros r I. apply (U (topic, td) r); [|exact I].
    rewrite E. apply in_or_app. right. now left.
Qed.

Lemma X8_witness :
  exists newRecord n w1,
    Manage.create_record "A" "fresh" High "" [] Sample2.two_topics
    = (Manage.RecordCreated newRecord n, w1)
    /\ Query.get_record (memoryStore w1) (MemRecord.id newRecord)
       = Query.RecordFound "A" newRecord.
Proof.
  assert (G : exists td, JsMap.get "A" (memoryStore Sample2.two_topics) = Some td)
    by (vm_compute; eauto).
  destruct G as (td & G).
  assert (U : unused_id (idgen Sample2.two_topics (id_reads Sample2.two_topics))
                        (memoryStore Sample2.two_topics)).
  { vm_compute.
    intros e r [<-|[<-|[]]]; simpl; intros [<-|I]; try discriminate;
      try (destruct I as [<-|[]]; discriminate); destruct I. }
  destruct (X8_create_then_get_record Sample2.two_topics "A" "fresh" High "" [] td
              ltac:(discriminate) G ltac:(vm_compute; discriminate) U)
    as (r & w1 & E & Q & _).
  exists r, (S (length (Topic.records td))), w1. split; [exact E | exact Q].
Defined.

(* ===================================================================== *)
(** ** The search of the single-file server *)
(* ===================================================================== *)

(** X9.  The search of the single-file server differs from the search of the
    modular server in one way only: for a non-empty query it fails, through
    its catch, exactly when some record that passes the importance filter has
    among its metadata values one that is not a string, with no matching
    value before it; in every other case the two searches give the same
    answer.  In particular they agree on every store whose metadata values
    are all strings. *)
Theorem X9_legacy_search (store : JsMap.t Topic.t) (query : string)
        (f : Query.ImportanceFilter) (limit : nat) :
  Legacy.search store query f limit
  = (if query =? "" then Query.QueryEmpty
     else if existsb (fun e => existsb (raises query f) (Topic.records (snd e))) store
          then Query.QueryFailed
          else Query.search store query f limit)
  /\ (forall r, raises query f r = true <->
                Query.filtered_out f r = false
                /\ exists pre v post,
                     JsMap.values (MemRecord.metadata r) = pre ++ v :: post
                     /\ is_text v = false
                     /\ Forall (fun u => exists s,
                                   u = Js.JStr s
                                   /\ Js.includes (Js.toLowerCase s)
                                                  (Js.toLowerCase query) = false) pre)
  /\ (text_only store ->
      Legacy.search store query f limit = Query.search store query f limit).
Proof.
  split; [|split].
  - apply legacy_search_eq.
  - intros r. unfold raises. rewrite andb_true_iff, negb_true_iff.
    rewrite <- legacy_metadataMatch_none.
    destruct (Legacy.metadataMatch_values query (JsMap.values (MemRecord.metadata r)));
      split; intros [A B]; (split; [exact A|]); congruence.
  - apply legacy_search_text.
Qed.

Lemma X9_witness :
  Legacy.search (memoryStore Sample2.two_topics) "rocq" Query.AllImportance 20
  = Query.search (memoryStore Sample2.two_topics) "rocq" Query.AllImportance 20.
Proof.
  apply (X9_legacy_search (memoryStore Sample2.two_topics) "rocq" Query.AllImportance 20).
  unfold text_only. vm_compute.
  intros n td r v [E|[E|[]]]; injection E as <- <-; simpl.
  - intros [<-|[]]. simpl. intros [<-|[]]. eauto.
  - intros [<-|[<-|[]]]; simpl; intros [].
Defined.

(* ===================================================================== *)
(** ** The memory_stats tool *)
(* ===================================================================== *)

Lemma fold_bump (rs : list MemRecord.t) : forall h,
  fold_left StatsTool.bump rs h
  = StatsTool.mkHistogram
      (StatsTool.high h + length (of_importance High rs))
      (StatsTool.medium h + length (of_importance Medium rs))
      (StatsTool.low h + length (of_importance Low rs)).
Proof.
  unfold of_importance.
  induction rs as [|r rs IH]; intros h; simpl.
  - destruct h. simpl. now rewrite !Nat.add_0_r.
  - rewrite IH. unfold StatsTool.bump.
    destruct (MemRecord.importance r); simpl; f_equal; lia.
Qed.

Lemma of_importance_app i (a b : list MemRecord.t) :
  of_importance i (a ++ b) = of_importance i a ++ of_importance i b.
Proof. apply filter_app. Qed.

Lemma importanceStats_from (vs : list Topic.t) : forall h,
  fold_left (fun h topicData => fold_left StatsTool.bump (Topic.records topicData) h) vs h
  = StatsTool.mkHistogram
      (StatsTool.high h + length (of_importance High (flat_map Topic.records vs)))
      (StatsTool.medium h + length (of_importance Medium (flat_map Topic.records vs)))
      (StatsTool.low h + length (of_importance Low (flat_map Topic.records vs))).
Proof.
  induction vs as [|td vs IH]; intros h; simpl.
  - destruct h. simpl. now rewrite !Nat.add_0_r.
  - rewrite IH, fold_bump. simpl. rewrite !of_importance_app, !length_app.
    f_equal; lia.
Qed.

Lemma all_records_values (store : JsMap.t Topic.t) :
  flat_map Topic.records (JsMap.values store) = all_records store.
Proof.
  unfold all_records, JsMap.values. induction store as [|e store IH]; simpl;
    [reflexivity | now rewrite IH].
Qed.

Lemma length_all_records (store : JsMap.t Topic.t) :
  length (all_records store) = stored_records store.
Proof.
  unfold all_records, stored_records. induction store as [|e store IH]; simpl;
    [reflexivity|]. now rewrite length_app, IH.
Qed.

Lemma importance_partition (rs : list MemRecord.t) :
  length (of_importance High rs) + length (of_importance Medium rs)
  + length (of_importance Low rs) = length rs.
Proof.
  unfold of_importance. induction rs as [|r rs IH]; simpl; [reflexivity|].
  destruct (MemRecord.importance r); simpl; lia.
Qed.

(** X10.  memory_stats changes nothing.  The importance distribution it shows
    is computed from the store at the time of the call: each of the three
    counts is the number of stored records of that importance, and together
    they are the number of stored records.  The totals it shows are the
    tracked counters; when these agree with the store, the record total is
    the sum of the distribution.  The average record size is computed only
    when the record counter is positive. *)
Theorem X10_memory_stats (w : World) :
  let report := fst (StatsTool.memory_stats w) in
  let d := StatsTool.distribution report in
  snd (StatsTool.memory_stats w) = w
  /\ StatsTool.high d = length (of_importance High (all_records (memoryStore w)))
  /\ StatsTool.medium d = length (of_importance Medium (all_records (memoryStore w)))
  /\ StatsTool.low d = length (of_importance Low (all_records (memoryStore w)))
  /\ StatsTool.high d + StatsTool.medium d + StatsTool.low d
     = stored_records (memoryStore w)
  /\ StatsTool.totalTopics report = Stats.totalTopics (memoryStats w)
  /\ StatsTool.totalRecords report = Stats.totalRecords (memoryStats w)
  /\ (in_step w ->
      StatsTool.totalRecords report
      = Z.of_nat (StatsTool.high d + StatsTool.medium d + StatsTool.low d))
  /\ (StatsTool.averageRecordSize report = None <->
      (Stats.totalRecords (memoryStats w) <= 0)%Z).
Proof.
  cbv zeta. unfold StatsTool.memory_stats.
  cbn [fst snd StatsTool.distribution StatsTool.totalTopics StatsTool.totalRecords
       StatsTool.averageRecordSize].
  unfold StatsTool.importanceStats. rewrite importanceStats_from, all_records_values.
  cbn [StatsTool.high StatsTool.medium StatsTool.low Nat.add].
  assert (S : length (of_importance High (all_records (memoryStore w)))
              + length (of_importance Medium (all_records (memoryStore w)))
              + length (of_importance Low (all_records (memoryStore w)))
              = stored_records (memoryStore w))
    by (rewrite importance_partition; apply length_all_records).
  do 4 (split; [reflexivity|]). split; [exact S|].
  do 2 (split; [reflexivity|]).
  split; [intros [_ R]; now rewrite S|].
  destruct (Z.ltb_spec 0 (Stats.totalRecords (memoryStats w))); split;
    (reflexivity || discriminate || lia).
Qed.

Lemma X10_witness :
  let report := fst (StatsTool.memory_stats Sample2.two_topics) in
  StatsTool.totalRecords report = 3%Z
  /\ StatsTool.distribution report = StatsTool.mkHistogram 1 1 1.
Proof.
  cbv zeta.
  destruct (X10_memory_stats Sample2.two_topics) as (_ & H & M & L & _ & _ & _ & T & _).
  split.
  - rewrite T; [|split; reflexivity]. rewrite H, M, L. vm_compute. reflexivity.
  - vm_compute. reflexivity.
Defined.

(** X11.  After the only topic of the store is deleted while it holds
    records, in a state whose counters agreed with the store, memory_stats
    takes the branch that divides the record counter, still positive, by the
    topic counter, which is zero; the distribution it shows beside it is
    empty. *)
Theorem X11_stats_after_last_topic (w : World) (topic : string) (td : Topic.t) :
  in_step w ->
  memoryStore w = [(topic, td)] ->
  Topic.records td <> [] ->
  let w' := snd (Manage.delete_topic topic true w) in
  let report := fst (StatsTool.memory_stats w') in
  StatsTool.recordsPerTopic report = Some (Z.of_nat (length (Topic.records td)), 0%Z)
  /\ StatsTool.distribution report = StatsTool.mkHistogram 0 0 0
  /\ memoryStore w' = [].
Proof.
  intros [T R] E Hne. cbv zeta.
  assert (G : JsMap.get topic (memoryStore w) = Some td).
  { rewrite E. simpl. now rewrite String.eqb_refl. }
  rewrite (delete_topic_confirmed w _ _ G). cbn [snd].
  unfold StatsTool.memory_stats.
  cbn [fst StatsTool.recordsPerTopic StatsTool.distribution memoryStats memoryStore].
  rewrite stats_after_remove_topic. cbn [Stats.totalRecords Stats.totalTopics].
  rewrite E in *. simpl JsMap.delete. rewrite String.eqb_refl.
  unfold stored_records, JsMap.size in *. simpl in T, R.
  rewrite Nat.add_0_r in R. rewrite R, T.
  destruct (Topic.records td) as [|r rs]; [contradiction|].
  split; [|split; reflexivity].
  assert (P : (0 <? Z.of_nat (length (r :: rs)))%Z = true)
    by (apply Z.ltb_lt; simpl length; lia).
  rewrite P. reflexivity.
Qed.

Lemma X11_witness :
  let w' := snd (Manage.delete_topic "T" true Sample.one) in
  StatsTool.recordsPerTopic (fst (StatsTool.memory_stats w')) = Some (1%Z, 0%Z).
Proof.
  assert (G : exists td, memoryStore Sample.one = [("T", td)]
                         /\ Topic.records td <> []
                         /\ length (Topic.records td) = 1).
  { vm_compute. eexists. split; [reflexivity|]. split; [discriminate | reflexivity]. }
  destruct G as (td & E & N & L).
  destruct (X11_stats_after_last_topic Sample.one "T" td) as (A & _).
  - split; reflexivity.
  - exact E.
  - exact N.
  - cbv zeta. rewrite A, L. reflexivity.
Defined.

(* ===================================================================== *)
(** ** The answers of memory_manage *)
(* ===================================================================== *)

(** X12.  memory_manage never answers with the failure text of its catch, and
    each action answers only with its own kinds of answer: for instance
    create_topic with already-exists or created, delete_topic with
    not-found, the confirmation request or deleted; an action outside the six
    gets the unsupported-action answer and changes nothing. *)
Theorem X12_manage_answers (a : Manage.Args) (w : World) :
  fst (Manage.memory_manage a w) <> Manage.OperationFailed
  /\ answers_of (Manage.action a) (fst (Manage.memory_manage a w)) = true
  /\ (~ In (Manage.action a) manage_actions ->
      Manage.memory_manage a w = (Manage.UnsupportedAction, w)).
Proof.
  split; [|split].
  - manage_cases a w; discriminate.
  - unfold answers_of. manage_cases a w; reflexivity.
  - intros N. unfold Manage.memory_manage, manage_actions in *.
    repeat match goal with
           | |- context [Manage.action a =? ?s] =>
               destruct (String.eqb_spec (Manage.action a) s) as [E|_];
               [exfalso; apply N; rewrite E; simpl; tauto|]
           end.
    reflexivity.
Qed.

Lemma X12_witness :
  Manage.memory_manage (call "rename_topic" "T") Sample.one
  = (Manage.UnsupportedAction, Sample.one).
Proof.
  apply (X12_manage_answers (call "rename_topic" "T") Sample.one).
  simpl. intuition discriminate.
Defined.

(* ===================================================================== *)
(** ** Timestamps under a clock that does not run backwards *)
(* ===================================================================== *)

Lemma get_In {V : Type} (k : string) (v : V) (m : JsMap.t V) :
  JsMap.get k m = Some v -> In (k, v) m.
Proof.
  induction m as [|[k' v'] m IH]; simpl; [discriminate|].
  destruct (String.eqb_spec k k') as [->|N]; [intros [= ->]; now left|].
  intros H. right. now apply IH.
Qed.

Lemma Forall_set {V : Type} (Q : V -> Prop) (k : string) (v : V) (m : JsMap.t V) :
  Forall (fun e => Q (snd e)) m -> Q v -> Forall (fun e => Q (snd e)) (JsMap.set k v m).
Proof.
  intros F Hv. induction F as [|[k' v'] m Hx F IH]; simpl.
  - now repeat constructor.
  - destruct (k =? k'); constructor; auto.
Qed.

Lemma Forall_delete {V : Type} (P : string * V -> Prop) (k : string) (m : JsMap.t V) :
  Forall P m -> Forall P (JsMap.delete k m).
Proof.
  intros F. induction F as [|[k' v'] m Hx F IH]; simpl; [constructor|].
  destruct (k =? k'); [exact F | now constructor].
Qed.

Section Advances.
Variable w : World.
Hypothesis Hmono : monotone_clock w.
Hypothesis Hdated : dated w.

Lemma dated_later (store' : JsMap.t Topic.t) (s' : Stats.t) (reads' ids' : nat) :
  clock_reads w <= reads' ->
  Forall (fun e => exists i, i < reads' /\ Topic.updatedAt (snd e) = clock w i)
         (memoryStore w).
Proof.
  intros L. eapply Forall_impl; [|exact Hdated]. cbv beta.
  intros e (i & Hi & E). exists i. split; [lia | exact E].
Qed.

Lemma advances_same : advances w w.
Proof.
  split; [exact Hdated|]. intros name td td' H H'. rewrite H in H'.
  injection H' as <-. lia.
Qed.

Lemma advances_set topic tdo tdn j s' reads' ids' :
  JsMap.get topic (memoryStore w) = Some tdo ->
  Topic.updatedAt tdn = clock w j ->
  clock_reads w <= j -> j < reads' ->
  advances w (mkWorld (JsMap.set topic tdn (memoryStore w)) s' (clock w) reads'
                      (idgen w) ids').
Proof.
  intros G E L1 L2. split.
  - unfold dated. cbn [memoryStore clock clock_reads].
    apply (Forall_set (fun td => exists i, i < reads' /\ Topic.updatedAt td = clock w i)).
    + apply (dated_later (memoryStore w) s' reads' ids'). lia.
    + exists j. now split.
  - cbn [memoryStore]. intros name td td' H H'.
    destruct (string_dec name topic) as [->|N].
    + rewrite JsMapFacts.get_set_same in H'. injection H' as <-.
      rewrite G in H. injection H as <-.
      apply get_In in G. unfold dated in Hdated. rewrite Forall_forall in Hdated.
      destruct (Hdated _ G) as (i & Hi & Ei). simpl in Ei. rewrite Ei, E.
      apply Hmono. lia.
    + rewrite JsMapFacts.get_set_other in H' by exact N. rewrite H in H'.
      injection H' as <-. lia.
Qed.

Lemma advances_append topic new j s' reads' ids' :
  Topic.updatedAt new = clock w j ->
  clock_reads w <= reads' -> j < reads' ->
  advances w (mkWorld (memoryStore w ++ [(topic, new)]) s' (clock w) reads'
                      (idgen w) ids').
Proof.
  intros E L1 L2. split.
  - unfold dated. cbn [memoryStore clock clock_reads]. apply Forall_app. split.
    + now apply (dated_later (memoryStore w) s' reads' ids').
    + constructor; [|constructor]. exists j. now split.
  - cbn [memoryStore]. intros name td td' H H'.
    rewrite JsMapFacts.get_app, H in H'. injection H' as <-. lia.
Qed.

Lemma advances_delete topic s' reads' ids' :
  JsMap.wf (memoryStore w) ->
  clock_reads w <= reads' ->
  advances w (mkWorld (JsMap.delete topic (memoryStore w)) s' (clock w) reads'
                      (idgen w) ids').
Proof.
  intros Hwf L. split.
  - unfold dated. cbn [memoryStore clock clock_reads]. apply Forall_delete.
    now apply (dated_later (memoryStore w) s' reads' ids').
  - cbn [memoryStore]. intros name td td' H H'.
    destruct (string_dec name topic) as [->|N].
    + rewrite JsMapFacts.get_delete_same in H' by exact Hwf. discriminate.
    + rewrite JsMapFacts.get_delete_other in H' by exact N. rewrite H in H'.
      injection H' as <-. lia.
Qed.

End Advances.

Lemma memory_manage_advances (a : Manage.Args) (w : World) :
  monotone_clock w -> JsMap.wf (memoryStore w) -> dated w ->
  advances w (snd (Manage.memory_manage a w)).
Proof.
  intros Hm Hwf Hd.
  manage_cases a w; try (now apply advances_same).
  - eapply advances_append with (j := 1 + clock_reads w);
      solve [eassumption | reflexivity | lia].
  - eapply advances_set with (j := 2 + clock_reads w);
      solve [eassumption | reflexivity | lia].
  - eapply advances_set with (j := clock_reads w);
      solve [eassumption | reflexivity | lia].
  - eapply advances_set with (j := 1 + clock_reads w);
      solve [eassumption | reflexivity | lia].
  - eapply advances_delete; solve [eassumption | lia].
  - eapply advances_set with (j := clock_reads w);
      solve [eassumption | reflexivity | lia].
Qed.

Lemma memory_manage_clock (a : Manage.Args) (w : World) :
  clock (snd (Manage.memory_manage a w)) = clock w
  /\ clock_reads w <= clock_reads (snd (Manage.memory_manage a w)).
Proof.
  manage_cases a w; cbn [clock clock_reads]; split; (reflexivity || lia).
Qed.

(** X13.  With a clock that never runs backwards, in a state where every
    topic's updatedAt is a clock reading already taken, a call of
    memory_manage never moves the updatedAt of a topic back: a topic present
    before and after has an updatedAt at least as late as before.  The state
    after the call is again one where every updatedAt is a reading already
    taken, so the same holds for every later call. *)
Theorem X13_updatedAt_never_goes_back (a : Manage.Args) (w : World) :
  monotone_clock w ->
  JsMap.wf (memoryStore w) ->
  dated w ->
  let w' := snd (Manage.memory_manage a w) in
  (forall name td td',
      JsMap.get name (memoryStore w) = Some td ->
      JsMap.get name (memoryStore w') = Some td' ->
      (Topic.updatedAt td <= Topic.updatedAt td')%Z)
  /\ monotone_clock w' /\ JsMap.wf (memoryStore w') /\ dated w'.
Proof.
  intros Hm Hwf Hd w'.
  destruct (memory_manage_advances a w Hm Hwf Hd) as [D M].
  split; [exact M|]. split; [|split; [now apply memory_manage_wf | exact D]].
  unfold monotone_clock, w'. rewrite (proj1 (memory_manage_clock a w)). exact Hm.
Qed.

Lemma X13_witness :
  exists td td',
    JsMap.get "B" (memoryStore Sample2.two_topics) = Some td
    /\ JsMap.get "B" (memoryStore
                        (snd (Manage.memory_manage
                                (call_record "delete_record" "B" "id3" "")
                                Sample2.two_topics))) = Some td'
    /\ (Topic.updatedAt td <= Topic.updatedAt td')%Z.
Proof.
  assert (G : exists td td',
             JsMap.get "B" (memoryStore Sample2.two_topics) = Some td
             /\ JsMap.get "B" (memoryStore
                                 (snd (Manage.memory_manage
                                         (call_record "delete_record" "B" "id3" "")
                                         Sample2.two_topics))) = Some td').
  { vm_compute. eexists. eexists. split; reflexivity. }
  destruct G as (td & td' & G & G').
  exists td, td'. split; [exact G|]. split; [exact G'|].
  refine (proj1 (X13_updatedAt_never_goes_back
                   (call_record "delete_record" "B" "id3" "") Sample2.two_topics
                   _ _ _) "B" td td' G G').
  - assert (C : clock Sample2.two_topics = clock Sample.empty)
      by (vm_compute; reflexivity).
    intros i j L. rewrite C. unfold Sample.empty. cbn [clock]. lia.
  - vm_compute. repeat constructor; simpl; intuition discriminate.
  - assert (E : exists ta tb,
               memoryStore Sample2.two_topics = [("A", ta); ("B", tb)]
               /\ Topic.updatedAt ta = clock Sample2.two_topics 5
               /\ Topic.updatedAt tb = clock Sample2.two_topics 16
               /\ clock_reads Sample2.two_topics = 18).
    { vm_compute. eexists. eexists. repeat split. }
    destruct E as (ta & tb & E & Ua & Ub & R).
    unfold dated. rewrite E, R.
    constructor; [exists 5; split; [lia | exact Ua]|].
    constructor; [exists 16; split; [lia | exact Ub]|]. constructor.
Defined.

(* ===================================================================== *)
(** ** The size counter across an update *)
(* ===================================================================== *)

Lemma replace_first_app_fresh recordId l (r r' : MemRecord.t) :
  (forall x, In x l -> MemRecord.id x <> recordId) ->
  MemRecord.id r = recordId ->
  Manage.replace_first (Manage.has_id recordId) r' (l ++ [r]) = l ++ [r'].
Proof.
  intros H E. induction l as [|x l IH]; simpl.
  - unfold Manage.has_id. now rewrite E, String.eqb_refl.
  - unfold Manage.has_id at 1.
    destruct (String.eqb_spec (MemRecord.id x) recordId) as [Ex|N].
    + exfalso. apply (H x); [now left | exact Ex].
    + rewrite IH; [reflexivity|]. intros y I. apply H. now right.
Qed.

(** X14.  A record is counted into the total size with the size it has when
    created and taken out with the size it has when deleted.  So after
    creating a record, updating it and deleting it (its id not empty and new
    to the topic), the record count is back where it was, while the total
    size differs from its old value by the size of the record as created
    minus its size as updated; the statistics are not touched by the update
    itself. *)
Theorem X14_size_drift (w : World) (topic content : string) (importance : Importance)
        (context : string) (metadata : JsMap.t Js.value) (td : Topic.t)
        (content' : string) (importance' : Importance) (context' : string)
        (metadata' : JsMap.t Js.value) :
  content <> "" ->
  JsMap.get topic (memoryStore w) = Some td ->
  idgen w (id_reads w) <> "" ->
  (forall r, In r (Topic.records td) -> MemRecord.id r <> idgen w (id_reads w)) ->
  let newId := idgen w (id_reads w) in
  let w1 := snd (Manage.create_record topic content importance context metadata w) in
  let w2 := snd (Manage.update_record topic newId content' importance' context'
                                      metadata' w1) in
  let w3 := snd (Manage.delete_record topic newId w2) in
  exists created updated,
    fst (Manage.create_record topic content importance context metadata w)
    = Manage.RecordCreated created (S (length (Topic.records td)))
    /\ fst (Manage.update_record topic newId content' importance' context' metadata' w1)
       = Manage.RecordUpdated updated
    /\ fst (Manage.delete_record topic newId w2)
       = Manage.RecordDeleted updated (length (Topic.records td))
    /\ memoryStats w2 = memoryStats w1
    /\ Stats.totalRecords (memoryStats w3) = Stats.totalRecords (memoryStats w)
    /\ Stats.totalMemorySize (memoryStats w3)
       = (Stats.totalMemorySize (memoryStats w)
          + calculateRecordSize created - calculateRecordSize updated)%Z
    /\ (exists td3, JsMap.get topic (memoryStore w3) = Some td3
                    /\ Topic.records td3 = Topic.records td).
Proof.
  intros Hc H Hid Hfresh. cbv zeta.
  rewrite (create_record_present w _ _ _ _ _ _ Hc H). cbn [fst snd].
  set (created := created_record w content importance context metadata).
  set (td1 := Topic.with_updatedAt _ (Topic.with_records _ td)).
  set (w1 := mkWorld _ _ _ _ _ _).
  assert (G1 : JsMap.get topic (memoryStore w1) = Some td1)
    by apply JsMapFacts.get_set_same.
  destruct (find_app_fresh (idgen w (id_reads w)) (Topic.records td) created Hfresh
                           eq_refl) as [F _].
  assert (F1 : Js.find (Manage.has_id (idgen w (id_reads w))) (Topic.records td1)
               = Some created) by exact F.
  rewrite (update_record_present w1 _ _ _ _ _ _ _ _ Hid G1 F1). cbn [fst snd].
  set (updated := updated_record w1 content' importance' context' metadata' created).
  set (td2 := Topic.with_updatedAt _ (Topic.with_records _ td1)).
  set (w2 := mkWorld _ _ _ _ _ _).
  assert (G2 : JsMap.get topic (memoryStore w2) = Some td2)
    by apply JsMapFacts.get_set_same.
  assert (R2 : Topic.records td2 = Topic.records td ++ [updated]).
  { cbn [td2 td1 Topic.records Topic.with_records Topic.with_updatedAt].
    now apply replace_first_app_fresh. }
  destruct (find_app_fresh (idgen w (id_reads w)) (Topic.records td) updated Hfresh
                           eq_refl) as [F2 Rm].
  rewrite <- R2 in F2, Rm.
  rewrite (delete_record_present w2 _ _ _ _ Hid G2 F2).
  cbn [fst snd memoryStore memoryStats w2 w1].
  rewrite Rm, stats_after_remove_record, stats_after_add_record.
  cbn [Stats.totalTopics Stats.totalRecords Stats.totalMemorySize Stats.accessCount].
  exists created, updated. repeat split; try lia.
  eexists. split; [apply JsMapFacts.get_set_same | reflexivity].
Qed.

Lemma X14_witness :
  let w1 := snd (Manage.create_record "B" "x" Low "" [] Sample2.two_topics) in
  let w2 := snd (Manage.update_record "B" "id5" "a longer text" Medium "" [] w1) in
  let w3 := snd (Manage.delete_record "B" "id5" w2) in
  Stats.totalRecords (memoryStats w3) = Stats.totalRecords (memoryStats Sample2.two_topics)
  /\ (Stats.totalMemorySize (memoryStats w3)
      < Stats.totalMemorySize (memoryStats Sample2.two_topics))%Z.
Proof.
  assert (G : exists td,
             JsMap.get "B" (memoryStore Sample2.two_topics) = Some td
             /\ (forall r, In r (Topic.records td) -> MemRecord.id r <> "id5")).
  { vm_compute. eexists. split; [reflexivity|].
    intros r [<-|[<-|[]]]; discriminate. }
  destruct G as (td & G & N).
  destruct (X14_size_drift Sample2.two_topics "B" "x" Low "" [] td
              "a longer text" Medium "" []
              ltac:(discriminate) G ltac:(vm_compute; discriminate) N)
    as (c & u & _ & _ & _ & _ & R & _).
  cbv zeta. split; [exact R|]. vm_compute. reflexivity.
Defined.
